(** * Data Analytics Platform: a shallow embedding of [index.js]

    The server keeps one global object [analyticsData] with four arrays,
    rewrites a JSON snapshot of it after every mutation, and answers
    statistics and journey queries by filtering those arrays.

    The embedding follows the source function by function.  What the
    source reads from its surroundings (the system clock, [Math.random],
    the snapshot file, the JSON codec of the runtime) is collected in the
    [World] the functions run in, and a function of the program is a
    computation that changes the world and returns a value or throws.

    JavaScript values are given the types that the program's own client
    sends and that its records then hold: identifiers, pages, names and
    the like are strings, [properties] and [metadata] are mappings, and a
    field that a request leaves out is missing.  Instants and the window
    length are integers (milliseconds since the epoch, hours); all of
    them stay in the range where JavaScript's numbers are exact. *)

From Stdlib Require Import ZArith List String Ascii Lia Permutation Sorted Bool.
From stdpp Require Import base option list gmap strings.

Open Scope Z_scope.

(** ** Values carried through unchanged

    Event [properties] and user [metadata] are open mappings that the
    program stores and returns without looking inside.  No arithmetic is
    ever done on a number: it is kept as the literal that
    [JSON.stringify] writes for it.  A number that is not finite has no
    literal and is no value of this type.  The members of an object are
    listed in the order of its properties. *)

#[local] Set Warnings "-register-all".
Inductive JSON :=
| JNull
| JBool (b : bool)
| JNumber (literal : string)
| JString (s : string)
| JArray (items : list JSON)
| JObject (members : list (string * JSON)).

Definition Mapping : Type := list (string * JSON).

(** ** Records of the store

    A [timestamp] is the instant, in milliseconds since the epoch, whose
    ISO-8601 text [new Date().toISOString()] wrote into the record;
    [new Date(r.timestamp)] reads the same instant back. *)

Module PageView.
Record t := mk {
    id : string;
    timestamp : Z;
    page : string;
    userId : string;
    sessionId : string;
    referrer : string;
    userAgent : string
  }.
End PageView.

Module Event.
Record t := mk {
    id : string;
    timestamp : Z;
    eventName : string;
    category : string;
    userId : string;
    sessionId : string;
    properties : Mapping
  }.
End Event.

Module User.
Record t := mk {
    userId : string;
    email : string;
    name : string;
    registeredAt : Z;
    lastSeen : Z;
    metadata : Mapping
  }.
End User.

(** The object [analyticsData].  Nothing ever writes to [sessions]. *)
Record Store := mkStore {
  pageViews : list PageView.t;
  events : list Event.t;
  users : list User.t;
  sessions : list JSON
}.

Definition emptyStore : Store := mkStore [] [] [] [].

(** The parsed request body [data].  A field the body does not carry is
    [None] (JavaScript [undefined]). *)
Module Data.
Record t := mk {
    page : option string;
    userId : option string;
    sessionId : option string;
    referrer : option string;
    userAgent : option string;
    eventName : option string;
    category : option string;
    properties : option Mapping;
    email : option string;
    name : option string;
    metadata : option Mapping
  }.
Definition empty : t :=
    mk None None None None None None None None None None None.
End Data.

(** ** The world the program runs in *)

Inductive Error :=
| SyntaxError (message : string)
| TypeError (message : string)
| SystemError (message : string).

Definition message (e : Error) : string :=
  match e with
  | SyntaxError m | TypeError m | SystemError m => m
  end.

(** [clock k] is what the system clock shows at its [k]-th reading and
    [entropy k] the text of the [k]-th [Math.random()] draw after
    [.toString(36).substr(2)]; [ticks] and [draws] count the readings and
    draws made so far.  [stringify] and [parse] are
    [JSON.stringify(_, null, 2)] and [JSON.parse] on snapshots.  The
    snapshot file is the program's own: [parse] takes a text that is not
    the snapshot of a store for one that does not parse, so that
    [analyticsData] is a [Store] at all times.  [file] is the
    content of [DATA_FILE], if the file exists; [readable] and [writable]
    say whether the file system lets [readFileSync] and [writeFileSync]
    through.  [console] holds the lines logged so far. *)
Record World := mkWorld {
  analyticsData : Store;
  clock : nat -> Z;
  ticks : nat;
  entropy : nat -> string;
  draws : nat;
  stringify : Store -> string;
  parse : string -> Error + Store;
  file : option string;
  readable : bool;
  writable : bool;
  console : list string
}.

Definition set_analyticsData (s : Store) (w : World) : World :=
  mkWorld s (clock w) (ticks w) (entropy w) (draws w)
    (stringify w) (parse w) (file w) (readable w) (writable w)
    (console w).

Definition set_ticks (n : nat) (w : World) : World :=
  mkWorld (analyticsData w) (clock w) n (entropy w) (draws w)
    (stringify w) (parse w) (file w) (readable w) (writable w)
    (console w).

Definition set_draws (n : nat) (w : World) : World :=
  mkWorld (analyticsData w) (clock w) (ticks w) (entropy w) n
    (stringify w) (parse w) (file w) (readable w) (writable w)
    (console w).

Definition set_file (f : option string) (w : World) : World :=
  mkWorld (analyticsData w) (clock w) (ticks w) (entropy w) (draws w)
    (stringify w) (parse w) f (readable w) (writable w)
    (console w).

Definition set_console (c : list string) (w : World) : World :=
  mkWorld (analyticsData w) (clock w) (ticks w) (entropy w) (draws w)
    (stringify w) (parse w) (file w) (readable w) (writable w)
    c.

(** ** Computations: state of the world plus exceptions

    A thrown exception keeps every change made to the world before it. *)

Inductive Result (A : Type) :=
| Return (a : A)
| Throw (e : Error).
Arguments Return {A} a.
Arguments Throw {A} e.

Definition M (A : Type) : Type := World -> Result A * World.

#[global] Instance M_ret : MRet M := fun A a w => (Return a, w).

#[global] Instance M_bind : MBind M := fun A B k m w =>
  match m w with
  | (Return a, w') => k a w'
  | (Throw e, w') => (Throw e, w')
  end.

Definition throw {A} (e : Error) : M A := fun w => (Throw e, w).

(** [try { body } catch (error) { handler }] *)
Definition try_catch {A} (body : M A) (handler : Error -> M A) : M A :=
  fun w =>
    match body w with
    | (Return a, w') => (Return a, w')
    | (Throw e, w') => handler e w'
    end.

Definition get_analyticsData : M Store := fun w => (Return (analyticsData w), w).

Definition put_analyticsData (s : Store) : M unit :=
  fun w => (Return tt, set_analyticsData s w).

Definition console_log (line : string) : M unit :=
  fun w => (Return tt, set_console (console w ++ [line]) w).

(** [Date.now()] and [new Date()]: one reading of the clock. *)
Definition Date_now : M Z :=
  fun w => (Return (clock w (ticks w)), set_ticks (S (ticks w)) w).

Definition Math_random : M string :=
  fun w => (Return (entropy w (draws w)), set_draws (S (draws w)) w).

Definition fs_existsSync : M bool :=
  fun w => (Return (bool_decide (is_Some (file w))), w).

Definition fs_readFileSync : M string :=
  fun w =>
    match file w with
    | Some content =>
        if readable w then (Return content, w)
        else (Throw (SystemError "EACCES: permission denied, open './analytics-data.json'"), w)
    | None =>
        (Throw (SystemError "ENOENT: no such file or directory, open './analytics-data.json'"), w)
    end.

Definition fs_writeFileSync (content : string) : M unit :=
  fun w =>
    if writable w then (Return tt, set_file (Some content) w)
    else (Throw (SystemError "EACCES: permission denied, open './analytics-data.json'"), w).

Definition JSON_parse (text : string) : M Store :=
  fun w =>
    match parse w text with
    | inr s => (Return s, w)
    | inl e => (Throw e, w)
    end.

Definition JSON_stringify (s : Store) : M string :=
  fun w => (Return (stringify w s), w).

(** * The runtime *)

(** ** [Number.prototype.toString(radix)] on integers *)

Definition digit (d : N) : ascii :=
  if (d <? 10)%N then ascii_of_N (48 + d) else ascii_of_N (87 + d).

Fixpoint digits (fuel : nat) (radix n : N) (acc : string) : string :=
  match fuel with
  | O => acc
  | S fuel' =>
      let acc' := String (digit (n mod radix)) acc in
      if (n / radix =? 0)%N then acc' else digits fuel' radix (n / radix) acc'
  end.

Definition Number_toString (radix : N) (z : Z) : string :=
  match z with
  | Z0 => "0"
  | Zpos p => digits (N.size_nat (Npos p)) radix (Npos p) ""
  | Zneg p => "-" +:+ digits (N.size_nat (Npos p)) radix (Npos p) ""
  end.

(** ** [parseInt] and the string methods *)

(** [parseInt(text)]: leading white space, a sign, [0x] for radix 16,
    then the longest run of digits; [None] is [NaN]. *)

Definition is_space (c : ascii) : bool :=
  let n := N_of_ascii c in
  ((9 <=? n) && (n <=? 13) || (n =? 32))%N.

Fixpoint trim_start (s : string) : string :=
  match s with
  | String c s' => if is_space c then trim_start s' else s
  | EmptyString => s
  end.

Definition digit_value (c : ascii) : option N :=
  let n := N_of_ascii c in
  if ((48 <=? n) && (n <=? 57))%N then Some (n - 48)%N
  else if ((97 <=? n) && (n <=? 122))%N then Some (n - 87)%N
  else if ((65 <=? n) && (n <=? 90))%N then Some (n - 55)%N
  else None.

Fixpoint parse_digits (radix : N) (s : string) (acc : option N) : option N :=
  match s with
  | String c s' =>
      match digit_value c with
      | Some d =>
          if (d <? radix)%N
          then parse_digits radix s' (Some (radix * default 0 acc + d)%N)
          else acc
      | None => acc
      end
  | EmptyString => acc
  end.

Definition parse_unsigned (s : string) : option N :=
  match s with
  | String "0" (String "x" s') | String "0" (String "X" s') => parse_digits 16 s' None
  | _ => parse_digits 10 s None
  end.

Definition parseInt (text : option string) : option Z :=
  match text with
  | None => None
  | Some s =>
      match trim_start s with
      | String "-" s' => (fun n => - Z.of_N n) <$> parse_unsigned s'
      | String "+" s' => Z.of_N <$> parse_unsigned s'
      | s' => Z.of_N <$> parse_unsigned s'
      end
  end.

(** [parseInt(query.hours) || 24]: [NaN] and zero are falsy. *)
Definition hours_of (text : option string) : Z :=
  match parseInt text with
  | Some n => if n =? 0 then 24 else n
  | None => 24
  end.

Definition startsWith (s pre : string) : bool := String.prefix pre s.

Definition endsWith (s suf : string) : bool :=
  (String.length suf <=? String.length s)%nat &&
  String.eqb (String.substring (String.length s - String.length suf)
                (String.length suf) s) suf.

(** [s.split(sep)] for a separator of one character. *)
Fixpoint split (sep : ascii) (s : string) : list string :=
  match s with
  | EmptyString => [""]
  | String c s' =>
      if Ascii.eqb c sep then "" :: split sep s'
      else match split sep s' with
           | part :: parts => String c part :: parts
           | [] => [String c ""]
           end
  end.

(** ** Dates

    A [Date] holds a time value or is an Invalid Date ([None]).
    [new Date(t)] clips: beyond 8.64e15 ms on either side of the epoch the
    result is invalid.  A comparison with an invalid date compares with
    [NaN] and is false. *)

Definition Date : Type := option Z.

Definition maxTime : Z := 8640000000000000.

Definition new_Date (t : Z) : Date :=
  if Z.abs t <=? maxTime then Some t else None.

(** [new Date(r.timestamp)] on a stored timestamp: the instant that
    [toISOString] wrote. *)
Definition Date_parse (timestamp : Z) : Date := Some timestamp.

(** [a >= b] *)
Definition Date_ge (a b : Date) : bool :=
  match a, b with
  | Some x, Some y => y <=? x
  | _, _ => false
  end.

(** ** [Array.prototype.sort(compareFn)]

    The sort is stable (ECMAScript 2019): an element moves in front of
    another only when [compareFn] puts it strictly before.  For a
    [compareFn] that orders consistently, as the difference of two
    timestamps does, every stable sort returns the same array; it is
    written here as an insertion sort. *)

Fixpoint sort_insert {A} (compareFn : A -> A -> Z) (x : A) (l : list A) : list A :=
  match l with
  | [] => [x]
  | y :: l' =>
      if compareFn x y <=? 0 then x :: y :: l'
      else y :: sort_insert compareFn x l'
  end.

Definition Array_sort {A} (compareFn : A -> A -> Z) (l : list A) : list A :=
  foldr (sort_insert compareFn) [] l.

(** ** Plain objects used as tables

    [obj[key] = value] on an object made by [{}].  The key ["__proto__"]
    is not a table entry: the assignment goes to the accessor inherited
    from [Object.prototype], which ignores a value that is neither an
    object nor [null], and no own property is made. *)

Definition proto_key : string := "__proto__".

Definition set_true (key : string) (obj : gset string) : gset string :=
  if String.eqb key proto_key then obj else {[key]} ∪ obj.

(** [Object.keys(obj).length] *)
Definition keys_length (obj : gset string) : nat := size obj.

(** What [obj[key]] finds on [Object.prototype] when [obj] has no own
    property [key], as the text that [+ 1] turns it into. *)
Definition inherited (key : string) : option string :=
  if String.eqb key proto_key then Some "[object Object]"
  else if bool_decide (key ∈ ["__defineGetter__"; "__defineSetter__";
                            "hasOwnProperty"; "__lookupGetter__";
                            "__lookupSetter__"; "isPrototypeOf";
                            "propertyIsEnumerable"; "toString"; "valueOf";
                            "toLocaleString"])
  then Some ("function " +:+ key +:+ "() { [native code] }")
  else if String.eqb key "constructor"
  then Some "function Object() { [native code] }"
  else None.

(** The value of a tally entry: a count, or a text once [+] has met
    something that is not a number. *)
Inductive Tally :=
| Count (n : Z)
| Text (s : string).

(** [stats[key] = (stats[key] || 0) + 1] *)
Definition tally (key : string) (stats : gmap string Tally) : gmap string Tally :=
  let next :=
    match stats !! key with
    | Some (Count n) => Count (n + 1)
    | Some (Text s) => if String.eqb s "" then Count 1 else Text (s +:+ "1")
    | None =>
        match inherited key with
        | Some s => Text (s +:+ "1")
        | None => Count 1
        end
    end in
  if String.eqb key proto_key then stats else <[key := next]> stats.

(** ** JSON

    [JSON.stringify(_, null, 2)] and [JSON.parse] on snapshots, with
    [toISOString] and its inverse, written out: the codec of the worlds
    that the program is run in below.  Strings are sequences of bytes;
    the file is UTF-8, so a byte above 127 is written as it is. *)

Module Codec.

(** *** Instants as ISO-8601 text *)

(** Days since the epoch to year, month and day, and back. *)
Definition civil_of_days (days : Z) : Z * Z * Z :=
  let z := days + 719468 in
  let era := z / 146097 in
  let doe := z mod 146097 in
  let yoe := (doe - doe / 1460 + doe / 36524 - doe / 146096) / 365 in
  let doy := doe - (365 * yoe + yoe / 4 - yoe / 100) in
  let mp := (5 * doy + 2) / 153 in
  let d := doy - (153 * mp + 2) / 5 + 1 in
  let m := if mp <? 10 then mp + 3 else mp - 9 in
  (yoe + era * 400 + (if m <=? 2 then 1 else 0), m, d).

Definition days_of_civil (y m d : Z) : Z :=
  let y := if m <=? 2 then y - 1 else y in
  let era := y / 400 in
  let yoe := y mod 400 in
  let doy := (153 * (if 2 <? m then m - 3 else m + 9) + 2) / 5 + d - 1 in
  era * 146097 + (yoe * 365 + yoe / 4 - yoe / 100 + doy) - 719468.

(** The last [width] decimal digits of [n]. *)
Fixpoint pad (width : nat) (n : Z) : string :=
  match width with
  | O => ""
  | S width' => pad width' (n / 10) +:+ String (digit (Z.to_N (n mod 10))) ""
  end.

(** Reads [width] decimal digits. *)
Fixpoint take_number (width : nat) (s : string) (acc : Z) : option (Z * string) :=
  match width with
  | O => Some (acc, s)
  | S width' =>
      match s with
      | String c s' =>
          match digit_value c with
          | Some d =>
              if (d <? 10)%N then take_number width' s' (10 * acc + Z.of_N d)
              else None
          | None => None
          end
      | EmptyString => None
      end
  end.

Definition expect (c : ascii) (s : string) : option string :=
  match s with
  | String c' s' => if Ascii.eqb c' c then Some s' else None
  | EmptyString => None
  end.

(** The fields of an ISO-8601 text after the sign of the year. *)
Definition parse_fields (sign : Z) (width : nat) (s : string) : option Z :=
  '(y, s) ← take_number width s 0;
  s ← expect "-" s;
  '(m, s) ← take_number 2 s 0;
  s ← expect "-" s;
  '(d, s) ← take_number 2 s 0;
  s ← expect "T" s;
  '(hh, s) ← take_number 2 s 0;
  s ← expect ":" s;
  '(mm, s) ← take_number 2 s 0;
  s ← expect ":" s;
  '(ss, s) ← take_number 2 s 0;
  s ← expect "." s;
  '(ms, s) ← take_number 3 s 0;
  s ← expect "Z" s;
  if String.eqb s "" then
    Some (days_of_civil (sign * y) m d * 86400000
          + hh * 3600000 + mm * 60000 + ss * 1000 + ms)
  else None.

(** [Date.parse] on the texts that [toISOString] writes: a year of four
    digits, or of six digits after a sign. *)
Definition Date_parse_text (s : string) : option Z :=
  match expect "-" s, expect "+" s with
  | Some s', _ => parse_fields (-1) 6 s'
  | None, Some s' => parse_fields 1 6 s'
  | None, None => parse_fields 1 4 s
  end.

(** The rest of the text of an instant, after the year. *)
Definition fields_text (m d ms : Z) : string :=
  "-" +:+ pad 2 m +:+ "-" +:+ pad 2 d
  +:+ "T" +:+ pad 2 (ms / 3600000)
  +:+ ":" +:+ pad 2 (ms / 60000 mod 60)
  +:+ ":" +:+ pad 2 (ms / 1000 mod 60)
  +:+ "." +:+ pad 3 (ms mod 1000) +:+ "Z".

Definition toISOString (t : Z) : string :=
  let '(y, m, d) := civil_of_days (t / 86400000) in
  (if (0 <=? y) && (y <=? 9999) then pad 4 y
   else if y <? 0 then "-" +:+ pad 6 (- y)
   else "+" +:+ pad 6 y)
  +:+ fields_text m d (t mod 86400000).

(** *** JSON text *)

Definition quote_mark : ascii := "034".
Definition backslash : ascii := "092".
Definition newline : ascii := "010".

Definition hex4 (n : N) : string :=
  String (digit (n / 4096 mod 16)) (String (digit (n / 256 mod 16))
    (String (digit (n / 16 mod 16)) (String (digit (n mod 16)) ""))).

Definition escape (c : ascii) : string :=
  let n := N_of_ascii c in
  if (n =? 34)%N then String backslash (String quote_mark "")
  else if (n =? 92)%N then String backslash (String backslash "")
  else if (n =? 8)%N then String backslash "b"
  else if (n =? 12)%N then String backslash "f"
  else if (n =? 10)%N then String backslash "n"
  else if (n =? 13)%N then String backslash "r"
  else if (n =? 9)%N then String backslash "t"
  else if (n <? 32)%N then String backslash (String "u" (hex4 n))
  else String c "".

Fixpoint escape_all (s : string) : string :=
  match s with
  | EmptyString => ""
  | String c s' => escape c +:+ escape_all s'
  end.

Definition quote (s : string) : string :=
  String quote_mark (escape_all s +:+ String quote_mark "").

Fixpoint join (sep : string) (parts : list string) : string :=
  match parts with
  | [] => ""
  | [p] => p
  | p :: parts' => p +:+ sep +:+ join sep parts'
  end.

(** An array or object: empty, or one entry per line, two spaces deeper. *)
Definition block (open close : ascii) (indent : string) (lines : list string) : string :=
  match lines with
  | [] => String open (String close "")
  | _ =>
      let inner := String newline (indent +:+ "  ") in
      String open (inner +:+ join (String "," inner) lines
                   +:+ String newline (indent +:+ String close ""))
  end.

Fixpoint stringify_value (indent : string) (j : JSON) : string :=
  match j with
  | JNull => "null"
  | JBool true => "true"
  | JBool false => "false"
  | JNumber literal => literal
  | JString s => quote s
  | JArray items =>
      block "[" "]" indent (List.map (stringify_value (indent +:+ "  ")) items)
  | JObject members =>
      block "{" "}" indent
        (List.map (fun kv => quote (fst kv) +:+ ": "
                             +:+ stringify_value (indent +:+ "  ") (snd kv))
           members)
  end.

Definition is_ws (c : ascii) : bool :=
  let n := N_of_ascii c in ((n =? 32) || (n =? 9) || (n =? 10) || (n =? 13))%N.

Fixpoint skip_ws (s : string) : string :=
  match s with
  | String c s' => if is_ws c then skip_ws s' else s
  | EmptyString => ""
  end.

Definition is_number_char (c : ascii) : bool :=
  let n := N_of_ascii c in
  ((48 <=? n) && (n <=? 57) || (n =? 45) || (n =? 43) || (n =? 46)
   || (n =? 101) || (n =? 69))%N.

Definition starts_a_number (c : ascii) : bool :=
  let n := N_of_ascii c in ((n =? 45) || (48 <=? n) && (n <=? 57))%N.

Definition unescape (c : ascii) : option ascii :=
  let n := N_of_ascii c in
  if ((n =? 34) || (n =? 92) || (n =? 47))%N then Some c
  else if (n =? 98)%N then Some "008"%char
  else if (n =? 102)%N then Some "012"%char
  else if (n =? 110)%N then Some "010"%char
  else if (n =? 114)%N then Some "013"%char
  else if (n =? 116)%N then Some "009"%char
  else None.

Definition hex_value (c : ascii) : option N :=
  match digit_value c with
  | Some d => if (d <? 16)%N then Some d else None
  | None => None
  end.

(** The characters of a string up to its closing quote, and what follows. *)
Fixpoint scan_string (s : string) : option (string * string) :=
  match s with
  | EmptyString => None
  | String c s' =>
      if Ascii.eqb c quote_mark then Some ("", s')
      else if Ascii.eqb c backslash then
        match s' with
        | String "u" (String h1 (String h2 (String h3 (String h4 s''))))  =>
            a ← hex_value h1; b ← hex_value h2; c ← hex_value h3; d ← hex_value h4;
            let code := (4096 * a + 256 * b + 16 * c + d)%N in
            if (code <? 128)%N then
              '(str, rest) ← scan_string s'';
              Some (String (ascii_of_N code) str, rest)
            else None
        | String e s'' =>
            plain ← unescape e;
            '(str, rest) ← scan_string s'';
            Some (String plain str, rest)
        | EmptyString => None
        end
      else if (N_of_ascii c <? 32)%N then None
      else '(str, rest) ← scan_string s'; Some (String c str, rest)
  end.

(** The longest run of number characters, and what follows. *)
Fixpoint scan_number (s : string) : string * string :=
  match s with
  | String c s' =>
      if is_number_char c then
        let '(literal, rest) := scan_number s' in (String c literal, rest)
      else ("", s)
  | EmptyString => ("", "")
  end.

(** What follows the word, when the string begins with it. *)
Fixpoint strip (word s : string) : option string :=
  match word with
  | EmptyString => Some s
  | String c word' =>
      match s with
      | String c' s' => if Ascii.eqb c' c then strip word' s' else None
      | EmptyString => None
      end
  end.

Fixpoint parse_value (fuel : nat) (s : string) : option (JSON * string) :=
  match fuel with
  | O => None
  | S fuel' =>
      match skip_ws s with
      | EmptyString => None
      | String c rest =>
          if Ascii.eqb c "[" then
            match expect "]" (skip_ws rest) with
            | Some rest' => Some (JArray [], rest')
            | None => '(items, rest') ← parse_items fuel' rest; Some (JArray items, rest')
            end
          else if Ascii.eqb c "{" then
            match expect "}" (skip_ws rest) with
            | Some rest' => Some (JObject [], rest')
            | None => '(members, rest') ← parse_members fuel' rest; Some (JObject members, rest')
            end
          else if Ascii.eqb c quote_mark then
            '(str, rest') ← scan_string rest; Some (JString str, rest')
          else if Ascii.eqb c "n" then rest' ← strip "ull" rest; Some (JNull, rest')
          else if Ascii.eqb c "t" then rest' ← strip "rue" rest; Some (JBool true, rest')
          else if Ascii.eqb c "f" then rest' ← strip "alse" rest; Some (JBool false, rest')
          else if starts_a_number c then
            let '(literal, rest') := scan_number (String c rest) in
            Some (JNumber literal, rest')
          else None
      end
  end
with parse_items (fuel : nat) (s : string) : option (list JSON * string) :=
  match fuel with
  | O => None
  | S fuel' =>
      '(item, rest) ← parse_value fuel' s;
      match skip_ws rest with
      | String c rest' =>
          if Ascii.eqb c "," then
            '(items, rest'') ← parse_items fuel' rest'; Some (item :: items, rest'')
          else if Ascii.eqb c "]" then Some ([item], rest')
          else None
      | EmptyString => None
      end
  end
with parse_members (fuel : nat) (s : string) : option (list (string * JSON) * string) :=
  match fuel with
  | O => None
  | S fuel' =>
      s ← expect quote_mark (skip_ws s);
      '(key, s) ← scan_string s;
      s ← expect ":" (skip_ws s);
      '(value, s) ← parse_value fuel' s;
      match skip_ws s with
      | String c rest =>
          if Ascii.eqb c "," then
            '(members, rest') ← parse_members fuel' rest; Some ((key, value) :: members, rest')
          else if Ascii.eqb c "}" then Some ([(key, value)], rest)
          else None
      | EmptyString => None
      end
  end.

Fixpoint all_chars (p : ascii -> bool) (s : string) : bool :=
  match s with
  | String c s' => p c && all_chars p s'
  | EmptyString => true
  end.

(** The literal of a number: a minus sign or a digit, then number
    characters. *)
Definition number_literal (s : string) : bool :=
  match s with
  | String c s' => starts_a_number c && all_chars is_number_char s'
  | EmptyString => false
  end.

(** What may follow a number: nothing, or a character that no number
    holds. *)
Definition number_ends (rest : string) : bool :=
  match rest with
  | String c _ => negb (is_number_char c)
  | EmptyString => true
  end.

(** A value that can be written down: its numbers have literals. *)
Fixpoint well_formed (j : JSON) : bool :=
  match j with
  | JNumber literal => number_literal literal
  | JArray items => forallb well_formed items
  | JObject members => forallb (fun kv => well_formed (snd kv)) members
  | _ => true
  end.

(** The fuel that reading a value takes. *)
Fixpoint need (j : JSON) : nat :=
  match j with
  | JArray items => S (fold_right (fun x acc => S (Nat.max (need x) acc)) 0%nat items)
  | JObject members =>
      S (fold_right (fun kv acc => S (Nat.max (need (snd kv)) acc)) 0%nat members)
  | _ => 1
  end.

Definition parse_text (text : string) : option JSON :=
  '(j, rest) ← parse_value (String.length text) text;
  if String.eqb (skip_ws rest) "" then Some j else None.

(** *** Snapshots *)

Definition of_pageView (pv : PageView.t) : JSON :=
  JObject [("id", JString (PageView.id pv));
           ("timestamp", JString (toISOString (PageView.timestamp pv)));
           ("page", JString (PageView.page pv));
           ("userId", JString (PageView.userId pv));
           ("sessionId", JString (PageView.sessionId pv));
           ("referrer", JString (PageView.referrer pv));
           ("userAgent", JString (PageView.userAgent pv))].

Definition of_event (ev : Event.t) : JSON :=
  JObject [("id", JString (Event.id ev));
           ("timestamp", JString (toISOString (Event.timestamp ev)));
           ("eventName", JString (Event.eventName ev));
           ("category", JString (Event.category ev));
           ("userId", JString (Event.userId ev));
           ("sessionId", JString (Event.sessionId ev));
           ("properties", JObject (Event.properties ev))].

Definition of_user (u : User.t) : JSON :=
  JObject [("userId", JString (User.userId u));
           ("email", JString (User.email u));
           ("name", JString (User.name u));
           ("registeredAt", JString (toISOString (User.registeredAt u)));
           ("lastSeen", JString (toISOString (User.lastSeen u)));
           ("metadata", JObject (User.metadata u))].

Definition of_store (s : Store) : JSON :=
  JObject [("pageViews", JArray (List.map of_pageView (pageViews s)));
           ("events", JArray (List.map of_event (events s)));
           ("users", JArray (List.map of_user (users s)));
           ("sessions", JArray (sessions s))].

Fixpoint member (key : string) (members : list (string * JSON)) : option JSON :=
  match members with
  | [] => None
  | (k, v) :: members' => if String.eqb k key then Some v else member key members'
  end.

Definition text_at (key : string) (j : JSON) : option string :=
  match j with
  | JObject members =>
      match member key members with
      | Some (JString s) => Some s
      | _ => None
      end
  | _ => None
  end.

Definition instant_at (key : string) (j : JSON) : option Z :=
  text_at key j ≫= Date_parse_text.

Definition mapping_at (key : string) (j : JSON) : option Mapping :=
  match j with
  | JObject members =>
      match member key members with
      | Some (JObject m) => Some m
      | _ => None
      end
  | _ => None
  end.

Definition list_at (key : string) (j : JSON) : option (list JSON) :=
  match j with
  | JObject members =>
      match member key members with
      | Some (JArray l) => Some l
      | _ => None
      end
  | _ => None
  end.

Definition to_pageView (j : JSON) : option PageView.t :=
  id ← text_at "id" j;
  timestamp ← instant_at "timestamp" j;
  page ← text_at "page" j;
  userId ← text_at "userId" j;
  sessionId ← text_at "sessionId" j;
  referrer ← text_at "referrer" j;
  userAgent ← text_at "userAgent" j;
  Some (PageView.mk id timestamp page userId sessionId referrer userAgent).

Definition to_event (j : JSON) : option Event.t :=
  id ← text_at "id" j;
  timestamp ← instant_at "timestamp" j;
  eventName ← text_at "eventName" j;
  category ← text_at "category" j;
  userId ← text_at "userId" j;
  sessionId ← text_at "sessionId" j;
  properties ← mapping_at "properties" j;
  Some (Event.mk id timestamp eventName category userId sessionId properties).

Definition to_user (j : JSON) : option User.t :=
  userId ← text_at "userId" j;
  email ← text_at "email" j;
  name ← text_at "name" j;
  registeredAt ← instant_at "registeredAt" j;
  lastSeen ← instant_at "lastSeen" j;
  metadata ← mapping_at "metadata" j;
  Some (User.mk userId email name registeredAt lastSeen metadata).

Definition to_store (j : JSON) : option Store :=
  pvs ← list_at "pageViews" j ≫= mapM to_pageView;
  evs ← list_at "events" j ≫= mapM to_event;
  us ← list_at "users" j ≫= mapM to_user;
  ss ← list_at "sessions" j;
  Some (mkStore pvs evs us ss).

(** The instants that a [Date] can hold. *)
Definition valid_instant (t : Z) : bool := Z.abs t <=? maxTime.

Definition well_formed_mapping (m : Mapping) : bool :=
  forallb (fun kv => well_formed (snd kv)) m.

(** A store that can be written down: its instants are valid dates and
    its numbers have literals. *)
Definition well_formed_store (s : Store) : bool :=
  forallb (fun pv => valid_instant (PageView.timestamp pv)) (pageViews s)
  && forallb (fun ev => valid_instant (Event.timestamp ev)
                        && well_formed_mapping (Event.properties ev)) (events s)
  && forallb (fun u => valid_instant (User.registeredAt u)
                       && valid_instant (User.lastSeen u)
                       && well_formed_mapping (User.metadata u)) (users s)
  && forallb well_formed (sessions s).

Definition stringify (s : Store) : string := stringify_value "" (of_store s).

Definition parse (text : string) : Error + Store :=
  match parse_text text ≫= to_store with
  | Some s => inr s
  | None => inl (SyntaxError "Unexpected token in JSON")
  end.

End Codec.

(** * The program *)

(** The argument of the ingest functions: what [JSON.parse(body)] gave.
    Reading a field of [null] throws; a value that is no object has no
    field, like the empty object. *)
Inductive Value :=
| null
| object (data : Data.t).

Definition field {A} (data : Value) (name : string) (get : Data.t -> option A) : M (option A) :=
  match data with
  | object d => mret (get d)
  | null =>
      throw (TypeError ("Cannot read properties of null (reading '" +:+ name +:+ "')"))
  end.

(** [a || b] on a string that may be missing: [undefined] and [""] are
    falsy. *)
Definition or_string (a : option string) (b : string) : string :=
  match a with
  | Some s => if String.eqb s "" then b else s
  | None => b
  end.

(** [a || {}] on a mapping that may be missing: every object is truthy. *)
Definition or_mapping (a : option Mapping) : Mapping :=
  match a with
  | Some m => m
  | None => []
  end.

(** [a || f()]: the call on the right is made only when [a] is falsy. *)
Definition or_else (a : option string) (b : M string) : M string :=
  match a with
  | Some s => if String.eqb s "" then b else mret s
  | None => b
  end.

Definition saveDataToFile : M unit :=
  try_catch
    (s ← get_analyticsData;
     text ← JSON_stringify s;
     fs_writeFileSync text;;
     console_log "Data saved successfully")
    (fun error => console_log ("Error saving data: " +:+ message error)).

Definition initializeDataStore : M unit :=
  exists_ ← fs_existsSync;
  if (exists_ : bool) then
    try_catch
      (fileContent ← fs_readFileSync;
       s ← JSON_parse fileContent;
       put_analyticsData s;;
       console_log "Data loaded from file successfully")
      (fun error =>
         console_log ("Error loading data file, using empty store: " +:+ message error))
  else
    console_log "No existing data file found, starting fresh".

Definition generateId : M string :=
  now ← Date_now;
  r ← Math_random;
  mret (Number_toString 36 now +:+ r).

Definition trackPageView (data : Value) : M PageView.t :=
  id ← generateId;
  timestamp ← Date_now;
  page ← field data "page" Data.page;
  userId ← field data "userId" Data.userId;
  sessionId ← field data "sessionId" Data.sessionId;
  sessionId ← or_else sessionId generateId;
  referrer ← field data "referrer" Data.referrer;
  userAgent ← field data "userAgent" Data.userAgent;
  let pageView :=
    PageView.mk id timestamp
      (or_string page "/")
      (or_string userId "anonymous")
      sessionId
      (or_string referrer "")
      (or_string userAgent "") in
  s ← get_analyticsData;
  put_analyticsData
    (mkStore (pageViews s ++ [pageView]) (events s) (users s) (sessions s));;
  saveDataToFile;;
  mret pageView.

Definition trackEvent (data : Value) : M Event.t :=
  id ← generateId;
  timestamp ← Date_now;
  eventName ← field data "eventName" Data.eventName;
  category ← field data "category" Data.category;
  userId ← field data "userId" Data.userId;
  sessionId ← field data "sessionId" Data.sessionId;
  sessionId ← or_else sessionId generateId;
  properties ← field data "properties" Data.properties;
  let event :=
    Event.mk id timestamp
      (or_string eventName "custom_event")
      (or_string category "general")
      (or_string userId "anonymous")
      sessionId
      (or_mapping properties) in
  s ← get_analyticsData;
  put_analyticsData
    (mkStore (pageViews s) (events s ++ [event]) (users s) (sessions s));;
  saveDataToFile;;
  mret event.

(** The loop of [registerUser]: the first index [i] with
    [users[i].userId === userId], together with [users[i]]; [None] is the
    source's [-1].  A missing [userId] is [undefined] and is [===] to no
    stored string. *)
Fixpoint findUser (userId : option string) (i : nat) (us : list User.t)
  : option (nat * User.t) :=
  match us with
  | [] => None
  | u :: us' =>
      if bool_decide (Some (User.userId u) = userId) then Some (i, u)
      else findUser userId (S i) us'
  end.

Definition registerUser (data : Value) : M User.t :=
  s ← get_analyticsData;
  wanted ← match users s with
           | [] => mret None
           | _ => field data "userId" Data.userId
           end;
  let existingUser := findUser wanted 0 (users s) in
  userId ← field data "userId" Data.userId;
  userId ← or_else userId generateId;
  email ← field data "email" Data.email;
  name ← field data "name" Data.name;
  registeredAt ← match existingUser with
                 | None => Date_now
                 | Some (_, u) => mret (User.registeredAt u)
                 end;
  lastSeen ← Date_now;
  metadata ← field data "metadata" Data.metadata;
  let user :=
    User.mk userId (or_string email "") (or_string name "")
      registeredAt lastSeen (or_mapping metadata) in
  s ← get_analyticsData;
  put_analyticsData
    (mkStore (pageViews s) (events s)
       match existingUser with
       | Some (i, _) => <[i := user]> (users s)
       | None => users s ++ [user]
       end
       (sessions s));;
  saveDataToFile;;
  mret user.

Module Stats.
Record t := mk {
  timeRange : string;
  totalPageViews : nat;
  totalEvents : nat;
  uniqueUsers : nat;
  topPages : gmap string Tally;
  topEvents : gmap string Tally;
  totalUsers : nat
}.
End Stats.

(** [timeRange || 24]: zero is falsy. *)
Definition or_24 (timeRange : Z) : Z :=
  if timeRange =? 0 then 24 else timeRange.

Definition startTime_of (now timeRange : Z) : Date :=
  new_Date (now - or_24 timeRange * 60 * 60 * 1000).

Definition filteredPageViews_of (startTime : Date) (s : Store) : list PageView.t :=
  List.filter (fun pv => Date_ge (Date_parse (PageView.timestamp pv)) startTime)
    (pageViews s).

Definition filteredEvents_of (startTime : Date) (s : Store) : list Event.t :=
  List.filter (fun ev => Date_ge (Date_parse (Event.timestamp ev)) startTime)
    (events s).

Definition getStatistics (timeRange : Z) : M Stats.t :=
  now ← Date_now;
  let startTime := startTime_of now timeRange in
  s ← get_analyticsData;
  let filteredPageViews := filteredPageViews_of startTime s in
  let filteredEvents := filteredEvents_of startTime s in
  let uniqueUsers :=
    foldl (fun obj pv => set_true (PageView.userId pv) obj) ∅ filteredPageViews in
  let pageStats :=
    foldl (fun obj pv => tally (PageView.page pv) obj) ∅ filteredPageViews in
  let eventStats :=
    foldl (fun obj ev => tally (Event.eventName ev) obj) ∅ filteredEvents in
  mret (Stats.mk
          (Number_toString 10 timeRange +:+ " hours")
          (length filteredPageViews)
          (length filteredEvents)
          (keys_length uniqueUsers)
          pageStats
          eventStats
          (length (users s))).

Module Journey.
Record t := mk {
  userId : string;
  pageViews : list PageView.t;
  events : list Event.t;
  totalActions : nat
}.
End Journey.

Definition getUserJourney (userId : string) : M Journey.t :=
  s ← get_analyticsData;
  let userPageViews :=
    Array_sort (fun a b => PageView.timestamp a - PageView.timestamp b)
      (List.filter (fun pv => String.eqb (PageView.userId pv) userId) (pageViews s)) in
  let userEvents :=
    Array_sort (fun a b => Event.timestamp a - Event.timestamp b)
      (List.filter (fun ev => String.eqb (Event.userId ev) userId) (events s)) in
  mret (Journey.mk userId userPageViews userEvents
          (length userPageViews + length userEvents)).

(** ** The dashboard *)

(** [generateDashboard] walks the two tables of the statistics with
    [for ... in], so that the order of their properties shows in the
    page.  The module [Ordered] has the plain object with that order and
    [getStatistics] over it. *)

Module Ordered.

(** The own properties of a plain object in the order in which
    [for ... in] visits them: the array indices in ascending order, then
    the other names in the order of their creation. *)
Definition Table : Type := list (string * Tally).

(** The array index that a property name is: the canonical text of an
    integer from 0 to 2^32 - 2. *)
Definition array_index (key : string) : option N :=
  match parse_digits 10 key None with
  | Some n =>
      if String.eqb (Number_toString 10 (Z.of_N n)) key && (n <? 4294967295)%N
      then Some n else None
  | None => None
  end.

(** [obj[key]] on an own property. *)
Fixpoint get (key : string) (obj : Table) : option Tally :=
  match obj with
  | [] => None
  | (k, v) :: obj' => if String.eqb k key then Some v else get key obj'
  end.

(** A property that exists keeps its place. *)
Fixpoint replace (key : string) (value : Tally) (obj : Table) : Table :=
  match obj with
  | [] => []
  | (k, v) :: obj' =>
      if String.eqb k key then (k, value) :: obj'
      else (k, v) :: replace key value obj'
  end.

(** A new property: an array index goes before the first property that
    is a greater index or no index, any other name to the end. *)
Fixpoint create (key : string) (value : Tally) (obj : Table) : Table :=
  match obj with
  | [] => [(key, value)]
  | (k, v) :: obj' =>
      match array_index key, array_index k with
      | Some n, Some m =>
          if (n <? m)%N then (key, value) :: obj
          else (k, v) :: create key value obj'
      | Some _, None => (key, value) :: obj
      | None, _ => (k, v) :: create key value obj'
      end
  end.

(** [obj[key] = value] for a key other than ["__proto__"]. *)
Definition set (key : string) (value : Tally) (obj : Table) : Table :=
  match get key obj with
  | Some _ => replace key value obj
  | None => create key value obj
  end.

(** [stats[key] = (stats[key] || 0) + 1] *)
Definition tally (key : string) (stats : Table) : Table :=
  let next :=
    match get key stats with
    | Some (Count n) => Count (n + 1)
    | Some (Text s) => if String.eqb s "" then Count 1 else Text (s +:+ "1")
    | None =>
        match inherited key with
        | Some s => Text (s +:+ "1")
        | None => Count 1
        end
    end in
  if String.eqb key proto_key then stats else set key next stats.

Record Stats := mkStats {
  timeRange : string;
  totalPageViews : nat;
  totalEvents : nat;
  uniqueUsers : nat;
  topPages : Table;
  topEvents : Table;
  totalUsers : nat
}.

Definition getStatistics (timeRange : Z) : M Stats :=
  now ← Date_now;
  let startTime := startTime_of now timeRange in
  s ← get_analyticsData;
  let filteredPageViews := filteredPageViews_of startTime s in
  let filteredEvents := filteredEvents_of startTime s in
  let uniqueUsers :=
    foldl (fun obj pv => set_true (PageView.userId pv) obj) ∅ filteredPageViews in
  let pageStats :=
    foldl (fun obj pv => tally (PageView.page pv) obj) [] filteredPageViews in
  let eventStats :=
    foldl (fun obj ev => tally (Event.eventName ev) obj) [] filteredEvents in
  mret (mkStats
          (Number_toString 10 timeRange +:+ " hours")
          (length filteredPageViews)
          (length filteredEvents)
          (keys_length uniqueUsers)
          pageStats
          eventStats
          (length (users s))).

End Ordered.

(** The text that [+] makes of a tally. *)
Definition Tally_toString (v : Tally) : string :=
  match v with
  | Count n => Number_toString 10 n
  | Text s => s
  end.

Definition nl : string := String Codec.newline "".

(** A text between double quotes, none of which it holds. *)
Definition quoted (s : string) : string :=
  String Codec.quote_mark (s +:+ String Codec.quote_mark "").

(** The chart of the heading: U+1F4CA, as its four bytes in UTF-8. *)
Definition chart : string :=
  String "240" (String "159" (String "147" (String "138" ""))).

(** The page up to the rows of the first table. *)
Definition page_head (stats : Ordered.Stats) : string :=
  let html := "<!DOCTYPE html>" +:+ nl in
  let html := html +:+ "<html lang=" +:+ quoted "en" +:+ ">" +:+ nl in
  let html := html +:+ "<head>" +:+ nl in
  let html := html +:+ "    <meta charset=" +:+ quoted "UTF-8" +:+ ">" +:+ nl in
  let html := html +:+ "    <meta name=" +:+ quoted "viewport" +:+ " content="
                   +:+ quoted "width=device-width, initial-scale=1.0" +:+ ">" +:+ nl in
  let html := html +:+ "    <title>Analytics Platform Dashboard</title>" +:+ nl in
  let html := html +:+ "    <style>" +:+ nl in
  let html := html +:+ "        body { font-family: Arial, sans-serif; margin: 0; padding: 20px; background: #f5f5f5; }" +:+ nl in
  let html := html +:+ "        .container { max-width: 1200px; margin: 0 auto; }" +:+ nl in
  let html := html +:+ "        h1 { color: #333; }" +:+ nl in
  let html := html +:+ "        .card { background: white; padding: 20px; margin: 20px 0; border-radius: 8px; box-shadow: 0 2px 4px rgba(0,0,0,0.1); }" +:+ nl in
  let html := html +:+ "        .stat { display: inline-block; margin: 10px 20px 10px 0; }" +:+ nl in
  let html := html +:+ "        .stat-value { font-size: 32px; font-weight: bold; color: #0066cc; }" +:+ nl in
  let html := html +:+ "        .stat-label { color: #666; margin-top: 5px; }" +:+ nl in
  let html := html +:+ "        table { width: 100%; border-collapse: collapse; margin-top: 10px; }" +:+ nl in
  let html := html +:+ "        th, td { padding: 10px; text-align: left; border-bottom: 1px solid #ddd; }" +:+ nl in
  let html := html +:+ "        th { background: #f0f0f0; font-weight: bold; }" +:+ nl in
  let html := html +:+ "        .nav { margin: 20px 0; }" +:+ nl in
  let html := html +:+ "        .nav a { margin-right: 15px; color: #0066cc; text-decoration: none; }" +:+ nl in
  let html := html +:+ "        .nav a:hover { text-decoration: underline; }" +:+ nl in
  let html := html +:+ "    </style>" +:+ nl in
  let html := html +:+ "</head>" +:+ nl in
  let html := html +:+ "<body>" +:+ nl in
  let html := html +:+ "    <div class=" +:+ quoted "container" +:+ ">" +:+ nl in
  let html := html +:+ "        <h1>" +:+ chart +:+ " Data Analytics Platform</h1>" +:+ nl in
  let html := html +:+ "        <div class=" +:+ quoted "nav" +:+ ">" +:+ nl in
  let html := html +:+ "            <a href=" +:+ quoted "/" +:+ ">Dashboard</a>" +:+ nl in
  let html := html +:+ "            <a href=" +:+ quoted "/stats?hours=1" +:+ ">Last Hour</a>" +:+ nl in
  let html := html +:+ "            <a href=" +:+ quoted "/stats?hours=24" +:+ ">Last 24 Hours</a>" +:+ nl in
  let html := html +:+ "            <a href=" +:+ quoted "/stats?hours=168" +:+ ">Last Week</a>" +:+ nl in
  let html := html +:+ "            <a href=" +:+ quoted "/api/data" +:+ ">View Raw Data</a>" +:+ nl in
  let html := html +:+ "        </div>" +:+ nl in
  let html := html +:+ "        <div class=" +:+ quoted "card" +:+ ">" +:+ nl in
  let html := html +:+ "            <h2>Overview (" +:+ Ordered.timeRange stats +:+ ")</h2>" +:+ nl in
  let html := html +:+ "            <div class=" +:+ quoted "stat" +:+ ">" +:+ nl in
  let html := html +:+ "                <div class=" +:+ quoted "stat-value" +:+ ">"
                   +:+ Number_toString 10 (Z.of_nat (Ordered.totalPageViews stats))
                   +:+ "</div>" +:+ nl in
  let html := html +:+ "                <div class=" +:+ quoted "stat-label" +:+ ">Page Views</div>" +:+ nl in
  let html := html +:+ "            </div>" +:+ nl in
  let html := html +:+ "            <div class=" +:+ quoted "stat" +:+ ">" +:+ nl in
  let html := html +:+ "                <div class=" +:+ quoted "stat-value" +:+ ">"
                   +:+ Number_toString 10 (Z.of_nat (Ordered.uniqueUsers stats))
                   +:+ "</div>" +:+ nl in
  let html := html +:+ "                <div class=" +:+ quoted "stat-label" +:+ ">Unique Users</div>" +:+ nl in
  let html := html +:+ "            </div>" +:+ nl in
  let html := html +:+ "            <div class=" +:+ quoted "stat" +:+ ">" +:+ nl in
  let html := html +:+ "                <div class=" +:+ quoted "stat-value" +:+ ">"
                   +:+ Number_toString 10 (Z.of_nat (Ordered.totalEvents stats))
                   +:+ "</div>" +:+ nl in
  let html := html +:+ "                <div class=" +:+ quoted "stat-label" +:+ ">Events</div>" +:+ nl in
  let html := html +:+ "            </div>" +:+ nl in
  let html := html +:+ "            <div class=" +:+ quoted "stat" +:+ ">" +:+ nl in
  let html := html +:+ "                <div class=" +:+ quoted "stat-value" +:+ ">"
                   +:+ Number_toString 10 (Z.of_nat (Ordered.totalUsers stats))
                   +:+ "</div>" +:+ nl in
  let html := html +:+ "                <div class=" +:+ quoted "stat-label" +:+ ">Total Users</div>" +:+ nl in
  let html := html +:+ "            </div>" +:+ nl in
  let html := html +:+ "        </div>" +:+ nl in
  let html := html +:+ "        <div class=" +:+ quoted "card" +:+ ">" +:+ nl in
  let html := html +:+ "            <h2>Top Pages</h2>" +:+ nl in
  let html := html +:+ "            <table>" +:+ nl in
  let html := html +:+ "                <tr><th>Page</th><th>Views</th></tr>" +:+ nl in
  html.

(** What lies between the rows of the two tables. *)
Definition page_middle : string :=
  let html := "            </table>" +:+ nl in
  let html := html +:+ "        </div>" +:+ nl in
  let html := html +:+ "        <div class=" +:+ quoted "card" +:+ ">" +:+ nl in
  let html := html +:+ "            <h2>Top Events</h2>" +:+ nl in
  let html := html +:+ "            <table>" +:+ nl in
  let html := html +:+ "                <tr><th>Event</th><th>Count</th></tr>" +:+ nl in
  html.

(** The page after the rows of the second table. *)
Definition page_foot : string :=
  let html := "            </table>" +:+ nl in
  let html := html +:+ "        </div>" +:+ nl in
  let html := html +:+ "    </div>" +:+ nl in
  let html := html +:+ "</body>" +:+ nl in
  let html := html +:+ "</html>" in
  html.

(** One pass of a [for ... in] loop of [generateDashboard]. *)
Definition row (html : string) (property : string * Tally) : string :=
  html +:+ "                <tr><td>" +:+ fst property +:+ "</td><td>"
       +:+ Tally_toString (snd property) +:+ "</td></tr>" +:+ nl.

Definition generateDashboard (stats : Ordered.Stats) : string :=
  let html := page_head stats in
  let html := foldl row html (Ordered.topPages stats) in
  let html := html +:+ page_middle in
  let html := foldl row html (Ordered.topEvents stats) in
  let html := html +:+ page_foot in
  html.

(** The page that [GET /] is answered with. *)
Definition dashboard (query_hours : option string) : M string :=
  stats ← Ordered.getStatistics (hours_of query_hours);
  mret (generateDashboard stats).

(** ** The request handler *)

Record Request := mkRequest {
  method : string;
  pathname : string;
  query_hours : option string;
  body : Error + Value
}.

(** What [res.end] is given.  The page of [generateDashboard] and the
    JSON texts are kept as the values they are rendered from.  The three
    CORS headers, the same on every response, are left out. *)
Inductive Payload :=
| Nothing
| Dashboard (stats : Stats.t)
| StatsJSON (stats : Stats.t)
| PageViewTracked (pageView : PageView.t)
| EventTracked (event : Event.t)
| UserRegistered (user : User.t)
| Failure (error : string)
| JourneyJSON (journey : Journey.t)
| DataJSON (s : Store)
| Cleared
| NotFound.

Record Response := mkResponse {
  status : nat;
  contentType : option string;
  payload : Payload
}.

Definition respond {A} (attempt : M A) (wrap : A -> Payload) : M Response :=
  try_catch
    (result ← attempt;
     mret (mkResponse 201 (Some "application/json") (wrap result)))
    (fun error =>
       mret (mkResponse 400 (Some "application/json") (Failure (message error)))).

(** [JSON.parse(body)] of a request. *)
Definition parse_body (req : Request) : M Value :=
  match body req with
  | inr data => mret data
  | inl error => throw error
  end.

Definition handleRequest (req : Request) : M Response :=
  console_log (method req +:+ " " +:+ pathname req);;
  if String.eqb (method req) "OPTIONS" then
    mret (mkResponse 200 None Nothing)
  else if String.eqb (pathname req) "/" && String.eqb (method req) "GET" then
    stats ← getStatistics (hours_of (query_hours req));
    mret (mkResponse 200 (Some "text/html") (Dashboard stats))
  else if String.eqb (pathname req) "/stats" && String.eqb (method req) "GET" then
    stats ← getStatistics (hours_of (query_hours req));
    mret (mkResponse 200 (Some "application/json") (StatsJSON stats))
  else if String.eqb (pathname req) "/api/track/pageview"
          && String.eqb (method req) "POST" then
    respond (data ← parse_body req; trackPageView data) PageViewTracked
  else if String.eqb (pathname req) "/api/track/event"
          && String.eqb (method req) "POST" then
    respond (data ← parse_body req; trackEvent data) EventTracked
  else if String.eqb (pathname req) "/api/users"
          && String.eqb (method req) "POST" then
    respond (data ← parse_body req; registerUser data) UserRegistered
  else if startsWith (pathname req) "/api/users/"
          && endsWith (pathname req) "/journey"
          && String.eqb (method req) "GET" then
    let userId := default "" (split "/" (pathname req) !! 3%nat) in
    journey ← getUserJourney userId;
    mret (mkResponse 200 (Some "application/json") (JourneyJSON journey))
  else if String.eqb (pathname req) "/api/data" && String.eqb (method req) "GET" then
    s ← get_analyticsData;
    mret (mkResponse 200 (Some "application/json") (DataJSON s))
  else if String.eqb (pathname req) "/api/clear" && String.eqb (method req) "POST" then
    put_analyticsData emptyStore;;
    saveDataToFile;;
    mret (mkResponse 200 (Some "application/json") Cleared)
  else
    mret (mkResponse 404 (Some "application/json") NotFound).

Definition startServer : M unit := initializeDataStore.

(** * The vocabulary of the properties *)

(** ** What a call leaves behind *)

(** The id that the next call of [generateId] returns. *)
Definition next_id (w : World) : string :=
  Number_toString 36 (clock w (ticks w)) +:+ entropy w (draws w).

(** What no function of the program changes: the clock, the source of
    randomness, the codec and the permissions of the file system. *)
Definition same_surroundings (w w' : World) : Prop :=
  clock w' = clock w ∧ entropy w' = entropy w ∧ stringify w' = stringify w
  ∧ parse w' = parse w ∧ readable w' = readable w ∧ writable w' = writable w.

(** ** Statistics *)

(** The number of distinct values in a list. *)
Definition distinct (l : list string) : nat := length (remove_dups l).

(** The keys that [set_true] enters into a table. *)
Definition is_table_key (key : string) : bool := negb (String.eqb key proto_key).

(** The start of the window as an instant: [now] minus [windowHours]
    hours. *)
Definition window_start (now windowHours : Z) : Z :=
  now - windowHours * 3600000.

(** ** Routing *)


(** Whether the character occurs in the string. *)
Fixpoint has_char (c : ascii) (s : string) : bool :=
  match s with
  | EmptyString => false
  | String c' s' => Ascii.eqb c' c || has_char c s'
  end.

(** ** Persistence *)

(** The store that the snapshot file holds, when the file exists, can be
    read and parses. *)
Definition snapshot_on_disk (w : World) : option Store :=
  match file w with
  | Some text =>
      if readable w then
        match parse w text with
        | inr s => Some s
        | inl _ => None
        end
      else None
  | None => None
  end.

(** ** Runs of ingest operations *)

(** The three operations that add to the store. *)
Inductive Ingest :=
| TrackPageView (data : Data.t)
| TrackEvent (data : Data.t)
| RegisterUser (data : Data.t).

(** One operation, run for its effect on the world. *)
Definition ingest (op : Ingest) : M unit :=
  match op with
  | TrackPageView data => trackPageView (object data) ≫= fun _ => mret tt
  | TrackEvent data => trackEvent (object data) ≫= fun _ => mret tt
  | RegisterUser data => registerUser (object data) ≫= fun _ => mret tt
  end.

(** The world after one operation, and after a run of them. *)
Definition after (op : Ingest) (w : World) : World := snd (ingest op w).

Definition ingested (ops : list Ingest) (w : World) : World :=
  foldl (fun w op => after op w) w ops.

Definition is_TrackPageView (op : Ingest) : bool :=
  match op with TrackPageView _ => true | _ => false end.

Definition is_TrackEvent (op : Ingest) : bool :=
  match op with TrackEvent _ => true | _ => false end.




(** ** Ids and the clock *)

(** The clock readings whose text in base 36 has eight digits: from
    June 1972 to May 2059. *)
Definition eight_digits (t : Z) : Prop := 36 ^ 7 <= t < 36 ^ 8.

(** Every operation of the run begins at a clock reading later than
    every reading made before it. *)
Fixpoint starts_later (ops : list Ingest) (w : World) : Prop :=
  match ops with
  | [] => True
  | op :: ops' =>
      (∀ k, (k < ticks w)%nat -> clock w k < clock w (ticks w))
      ∧ starts_later ops' (after op w)
  end.

(** The ids in the list were made from clock readings before the
    [n]-th. *)
Definition made_before (w : World) (n : nat) (ids : list string) : Prop :=
  Forall (fun id => ∃ k tail, (k < n)%nat ∧ id = Number_toString 36 (clock w k) +:+ tail) ids.


(** ** Requests *)

(** The world in which a request is handled, its line logged. *)
Definition logged (req : Request) (w : World) : World :=
  set_console (console w ++ [method req +:+ " " +:+ pathname req]) w.

(** The paths of the three ingest routes. *)
Definition ingest_paths : list string :=
  ["/api/track/pageview"; "/api/track/event"; "/api/users"].

(** The ingest operation that a request with this path and this parsed
    body asks for. *)
Definition ingest_of (path : string) (data : Data.t) : option Ingest :=
  if String.eqb path "/api/track/pageview" then Some (TrackPageView data)
  else if String.eqb path "/api/track/event" then Some (TrackEvent data)
  else if String.eqb path "/api/users" then Some (RegisterUser data)
  else None.

(** The requests that a route takes: every [OPTIONS], the [GET]s of the
    three pages and of the journeys, the [POST]s of the ingest routes and
    of the clearing. *)
Definition routed (req : Request) : bool :=
  let m := method req in
  let p := pathname req in
  String.eqb m "OPTIONS"
  || String.eqb m "GET"
     && (String.eqb p "/" || String.eqb p "/stats" || String.eqb p "/api/data"
         || startsWith p "/api/users/" && endsWith p "/journey")
  || String.eqb m "POST"
     && (String.eqb p "/api/track/pageview" || String.eqb p "/api/track/event"
         || String.eqb p "/api/users" || String.eqb p "/api/clear").

(** The world that a request leaves, and that a sequence of them
    leaves. *)
Definition serve (req : Request) (w : World) : World := snd (handleRequest req w).

Definition served (reqs : list Request) (w : World) : World :=
  foldl (fun w req => serve req w) w reqs.

(** The mappings in the body of a request can be written down. *)
Definition well_formed_body (req : Request) : bool :=
  match body req with
  | inr (object d) =>
      Codec.well_formed_mapping (or_mapping (Data.properties d))
      && Codec.well_formed_mapping (or_mapping (Data.metadata d))
  | _ => true
  end.

(** The snapshot file mirrors the store in memory; before the first
    write there is neither a file nor a record. *)
Definition mirrored (w : World) : Prop :=
  file w = Some (stringify w (analyticsData w))
  ∨ (file w = None ∧ analyticsData w = emptyStore).

(** ** Tallies *)

(** How often the key occurs in the list. *)
Definition occurrences (key : string) (keys : list string) : nat :=
  length (List.filter (String.eqb key) keys).

(** The text of [n] ones. *)
Fixpoint ones (n : nat) : string :=
  match n with
  | O => ""
  | S n' => String "1" (ones n')
  end.

(** The entry of a key that was tallied [n] times: none when it never
    was, the count for a key that [Object.prototype] does not know, and
    for one that it knows, other than ["__proto__"], the text of what it
    holds there followed by [n] ones. *)
Definition tallied (key : string) (n : nat) : option Tally :=
  match n with
  | O => None
  | S _ =>
      if String.eqb key proto_key then None
      else match inherited key with
           | None => Some (Count (Z.of_nat n))
           | Some s => Some (Text (s +:+ ones n))
           end
  end.

(** A page view that carries no [userId]. *)
Definition is_anonymous_view (op : Ingest) : bool :=
  match op with
  | TrackPageView d => String.eqb (or_string (Data.userId d) "") ""
  | _ => false
  end.

(** ** Writes that fail *)

(** The same world with a file system that accepts writes. *)
Definition accepting_writes (w : World) : World :=
  mkWorld (analyticsData w) (clock w) (ticks w) (entropy w) (draws w)
    (stringify w) (parse w) (file w) (readable w) true (console w).

(** ** The rows of the dashboard *)

(** The keys of a list, each once, in the order of their first
    occurrence. *)
Fixpoint first_seen (keys : list string) : list string :=
  match keys with
  | [] => []
  | k :: keys' => k :: List.filter (fun x => negb (String.eqb x k)) (first_seen keys')
  end.

(** A name that is no array index and that [Object.prototype] does not
    know. *)
Definition ordinary_name (key : string) : bool :=
  match Ordered.array_index key, inherited key with
  | None, None => true
  | _, _ => false
  end.

(** Whether a name is an array index. *)
Definition is_index (key : string) : bool :=
  match Ordered.array_index key with
  | Some _ => true
  | None => false
  end.

(** Both names are array indices, the first the smaller one. *)
Definition index_before (a b : string) : Prop :=
  match Ordered.array_index a, Ordered.array_index b with
  | Some n, Some m => (n < m)%N
  | _, _ => False
  end.

(** Array indices first, in ascending order, then the other names. *)
Definition indices_first (keys : list string) : Prop :=
  ∃ indexed others,
    keys = indexed ++ others
    ∧ Forall (fun k => is_index k = true) indexed
    ∧ Forall (fun k => is_index k = false) others
    ∧ StronglySorted index_before indexed.

(** ** Statements that the code does not meet *)


(** The totals are the numbers of records at or after [now] minus
    [windowHours] hours. *)
Definition counts_from_window_start (h : Z) (w : World) : Prop :=
  let now := clock w (ticks w) in
  ∃ stats w',
    getStatistics h w = (Return stats, w')
    ∧ Stats.totalPageViews stats =
        length (List.filter (fun pv => window_start now h <=? PageView.timestamp pv)
                  (pageViews (analyticsData w)))
    ∧ Stats.totalEvents stats =
        length (List.filter (fun ev => window_start now h <=? Event.timestamp ev)
                  (events (analyticsData w))).

(** A written value begins with a character that is no white space and
    closes nothing. *)
Definition opens (text : string) : Prop :=
  ∃ c tail, text = String c tail ∧ Codec.is_ws c = false
            ∧ Ascii.eqb c "]" = false ∧ Ascii.eqb c "}" = false.

(** Reading the text of a value, in any indentation and after any white
    space, gives the value and leaves what follows the text. *)
Definition reads_back (j : JSON) : Prop :=
  Codec.well_formed j = true ->
  ∀ indent ws rest fuel,
    Codec.all_chars Codec.is_ws indent = true ->
    Codec.all_chars Codec.is_ws ws = true ->
    Codec.number_ends rest = true ->
    (Codec.need j <= fuel)%nat ->
    Codec.parse_value fuel (ws +:+ Codec.stringify_value indent j +:+ rest) = Some (j, rest).

(** The mappings of a request can be written down. *)
Definition well_formed_request (op : Ingest) : bool :=
  match op with
  | TrackPageView _ => true
  | TrackEvent data => Codec.well_formed_mapping (or_mapping (Data.properties data))
  | RegisterUser data => Codec.well_formed_mapping (or_mapping (Data.metadata data))
  end.

(** * Sample worlds *)

Definition sample_clock (k : nat) : Z := 1790000000000 + 250 * Z.of_nat k.

Definition sample_entropy (k : nat) : string :=
  Number_toString 36 (104729 + 7919 * Z.of_nat k).

Definition sample_world (s : Store) : World :=
  mkWorld s sample_clock 0 sample_entropy 0 Codec.stringify Codec.parse
    None true true [].


Definition proto_view : PageView.t :=
  PageView.mk "mubbs7i8a1b2" 1789999990000 "/home" "__proto__" "s1" "" "".

Definition hour_old_view : PageView.t :=
  PageView.mk "mubbs7i8c3d4" (1790000000000 - 3600000) "/home" "u1" "s1" "" "".

Definition recent_event : Event.t :=
  Event.mk "mubbs7i8e5f6" 1789999995000 "purchase" "conversion" "u2" "s2"
    [("amount", JNumber "99.99"); ("currency", JString "USD")].

Definition john : User.t :=
  User.mk "user_001" "john@example.com" "John Doe" 1789990000000 1789990000000
    [("plan", JString "premium")].

Definition john_again : Data.t :=
  Data.mk None (Some "user_001") None None None None None None
    (Some "john@example.com") (Some "John") (Some [("plan", JString "free")]).

(** A clock that stands still after its thousandth reading, in a world
    that is otherwise a sample world. *)
Definition slowing_clock (k : nat) : Z := 1790000000000 + 250 * Z.of_nat (Nat.min k 1000).

Definition slowing_world (s : Store) : World :=
  mkWorld s slowing_clock 0 sample_entropy 0 Codec.stringify Codec.parse
    None true true [].

(** A sample world whose file system refuses every write. *)
Definition read_only_world (s : Store) : World :=
  mkWorld s sample_clock 0 sample_entropy 0 Codec.stringify Codec.parse
    None true false [].

Definition pricing_view : PageView.t :=
  PageView.mk "mubbs7i8g7h8" 1789999991000 "/pricing" "u2" "s2" "" "".

Definition method_view : PageView.t :=
  PageView.mk "mubbs7i8i9j0" 1789999992000 "toString" "u1" "s1" "" "".

Definition script_view : PageView.t :=
  PageView.mk "mubbs7i8k1l2" 1789999993000 "<script>alert(1)</script>" "u3" "s3" "" "".


Definition view_of_u1 : Data.t :=
  Data.mk (Some "/docs") (Some "u1") (Some "s1") None None None None None None None None.

(** * Properties *)

(** Unfolds one call of the program into the world it leaves behind. *)
Ltac run :=
  unfold trackPageView, trackEvent, registerUser, getStatistics, getUserJourney,
    initializeDataStore, generateId, saveDataToFile, field, or_else, try_catch,
    JSON_stringify, JSON_parse, fs_writeFileSync, fs_readFileSync, fs_existsSync,
    console_log, get_analyticsData, put_analyticsData, Date_now, Math_random,
    throw, mbind, M_bind, mret, M_ret;
  cbn.

Lemma same_surroundings_refl w : same_surroundings w w.
Proof. repeat split. Qed.

Lemma same_surroundings_trans w1 w2 w3 :
  same_surroundings w1 w2 -> same_surroundings w2 w3 -> same_surroundings w1 w3.
Proof.
  unfold same_surroundings. intros (?&?&?&?&?&?) (?&?&?&?&?&?).
  repeat split; congruence.
Qed.

Lemma generateId_run w :
  generateId w = (Return (next_id w), set_draws (S (draws w)) (set_ticks (S (ticks w)) w)).
Proof. reflexivity. Qed.

Lemma saveDataToFile_run w :
  ∃ w', saveDataToFile w = (Return tt, w')
        ∧ analyticsData w' = analyticsData w
        ∧ ticks w' = ticks w ∧ draws w' = draws w
        ∧ same_surroundings w w'
        ∧ file w' = (if writable w then Some (stringify w (analyticsData w)) else file w).
Proof.
  run. unfold same_surroundings.
  destruct (writable w) eqn:E; cbn; rewrite ?E; eauto 15.
Qed.

Lemma trackPageView_run d w :
  ∃ pv w',
    trackPageView (object d) w = (Return pv, w')
    ∧ analyticsData w' =
        mkStore (pageViews (analyticsData w) ++ [pv]) (events (analyticsData w))
          (users (analyticsData w)) (sessions (analyticsData w))
    ∧ PageView.id pv = next_id w
    ∧ PageView.timestamp pv = clock w (S (ticks w))
    ∧ PageView.page pv = or_string (Data.page d) "/"
    ∧ PageView.userId pv = or_string (Data.userId d) "anonymous"
    ∧ PageView.referrer pv = or_string (Data.referrer d) ""
    ∧ PageView.userAgent pv = or_string (Data.userAgent d) ""
    ∧ (S (S (ticks w)) <= ticks w')%nat
    ∧ same_surroundings w w'.
Proof.
  run. unfold same_surroundings, next_id.
  destruct (Data.sessionId d) as [s|]; [destruct (String.eqb s "")|]; cbn;
    destruct (writable w) eqn:E; cbn; rewrite ?E;
    do 2 eexists; (split; [reflexivity|]); cbn; repeat split;
    first [lia | congruence].
Qed.

Lemma trackEvent_run d w :
  ∃ ev w',
    trackEvent (object d) w = (Return ev, w')
    ∧ analyticsData w' =
        mkStore (pageViews (analyticsData w)) (events (analyticsData w) ++ [ev])
          (users (analyticsData w)) (sessions (analyticsData w))
    ∧ Event.id ev = next_id w
    ∧ Event.timestamp ev = clock w (S (ticks w))
    ∧ Event.eventName ev = or_string (Data.eventName d) "custom_event"
    ∧ Event.category ev = or_string (Data.category d) "general"
    ∧ Event.userId ev = or_string (Data.userId d) "anonymous"
    ∧ Event.properties ev = or_mapping (Data.properties d)
    ∧ (S (S (ticks w)) <= ticks w')%nat
    ∧ same_surroundings w w'.
Proof.
  run. unfold same_surroundings, next_id.
  destruct (Data.sessionId d) as [s|]; [destruct (String.eqb s "")|]; cbn;
    destruct (writable w) eqn:E; cbn; rewrite ?E;
    do 2 eexists; (split; [reflexivity|]); cbn; repeat split;
    first [lia | congruence].
Qed.

(** C10. When [data.page] is missing or the empty string, [trackPageView]
    stores and returns a page view whose [page] is ["/"]: the call
    returns a record [pv] with [page = "/"], and [pv] is the record
    appended at the end of the page views. *)
Theorem trackPageView_page_default (d : Data.t) (w : World) :
  Data.page d = None ∨ Data.page d = Some "" ->
  ∃ pv w',
    trackPageView (object d) w = (Return pv, w')
    ∧ PageView.page pv = "/"
    ∧ pageViews (analyticsData w') = pageViews (analyticsData w) ++ [pv].
Proof.
  intros Hpage.
  destruct (trackPageView_run d w) as (pv & w' & Hrun & Hstore & _ & _ & Hp & _).
  exists pv, w'. split; [exact Hrun|]. split.
  - rewrite Hp. destruct Hpage as [-> | ->]; reflexivity.
  - rewrite Hstore. reflexivity.
Qed.

(** ** The scan for an existing user *)

#[local] Arguments findUser : simpl never.

Lemma findUser_cons userId i x us :
  findUser userId i (x :: us) =
  if bool_decide (Some (User.userId x) = userId) then Some (i, x)
  else findUser userId (S i) us.
Proof. reflexivity. Qed.

Lemma findUser_Some userId i us j old :
  findUser userId i us = Some (j, old) ->
  ∃ k, j = (i + k)%nat ∧ us !! k = Some old ∧ Some (User.userId old) = userId
       ∧ ∀ k' x, (k' < k)%nat -> us !! k' = Some x -> Some (User.userId x) ≠ userId.
Proof.
  revert i. induction us as [|x us IH]; intros i H; [discriminate|].
  rewrite findUser_cons in H. case_bool_decide as E.
  - injection H as <- <-. exists 0%nat.
    repeat split; [lia | exact E | intros; lia].
  - destruct (IH _ H) as (k & -> & Hk & Hu & Hfirst).
    exists (S k). repeat split; [lia | exact Hk | exact Hu |].
    intros [|k'] y Hlt Hy; cbn in Hy.
    + injection Hy as <-. exact E.
    + eapply Hfirst; [|exact Hy]. lia.
Qed.

Lemma findUser_In u i us :
  In u (map User.userId us) -> ∃ j old, findUser (Some u) i us = Some (j, old).
Proof.
  revert i. induction us as [|x us IH]; intros i H; [destruct H|].
  rewrite findUser_cons. case_bool_decide as E; [eauto|].
  destruct H as [H|H]; [congruence|]. apply IH, H.
Qed.

Lemma findUser_None userId i us :
  findUser userId i us = None ->
  ∀ u, userId = Some u -> ¬ In u (map User.userId us).
Proof.
  revert i. induction us as [|x us IH]; intros i H u -> Hin; [destruct Hin|].
  rewrite findUser_cons in H. case_bool_decide as E; [discriminate|].
  destruct Hin as [Hin|Hin]; [congruence|]. eapply IH; eauto.
Qed.

(** One call of [registerUser], both branches. *)
Lemma registerUser_run d w :
  ∃ user w',
    registerUser (object d) w = (Return user, w')
    ∧ users (analyticsData w') =
        match findUser (Data.userId d) 0 (users (analyticsData w)) with
        | Some (i, _) => <[i := user]> (users (analyticsData w))
        | None => users (analyticsData w) ++ [user]
        end
    ∧ pageViews (analyticsData w') = pageViews (analyticsData w)
    ∧ events (analyticsData w') = events (analyticsData w)
    ∧ sessions (analyticsData w') = sessions (analyticsData w)
    ∧ User.userId user =
        match Data.userId d with
        | Some u => if String.eqb u "" then next_id w else u
        | None => next_id w
        end
    ∧ match findUser (Data.userId d) 0 (users (analyticsData w)) with
      | Some (_, old) => User.registeredAt user = User.registeredAt old
      | None => ∃ k, (ticks w <= k < pred (ticks w'))%nat
                     ∧ User.registeredAt user = clock w k
      end
    ∧ (ticks w < ticks w')%nat
    ∧ User.lastSeen user = clock w (pred (ticks w'))
    ∧ User.email user = or_string (Data.email d) ""
    ∧ User.name user = or_string (Data.name d) ""
    ∧ User.metadata user = or_mapping (Data.metadata d)
    ∧ draws w' = (if String.eqb (or_string (Data.userId d) "") "" then S (draws w) else draws w)
    ∧ same_surroundings w w'.
Proof.
  run. unfold same_surroundings, next_id.
  destruct (users (analyticsData w)) as [|x us] eqn:Hus; cbn.
  - unfold findUser.
    destruct (Data.userId d) as [u|]; [destruct (String.eqb u "") eqn:Eu|]; cbn;
      destruct (writable w) eqn:E; cbn; rewrite ?E, ?Hus, ?Eu;
      do 2 eexists; (split; [reflexivity|]); cbn;
      repeat split; first [lia | congruence | eexists; split; [|reflexivity]; lia].
  - destruct (findUser (Data.userId d) 0 (x :: us)) as [[i old]|] eqn:Hfind;
    (destruct (Data.userId d) as [u|]; [destruct (String.eqb u "") eqn:Eu|]); cbn;
      destruct (writable w) eqn:E; cbn; rewrite ?E, ?Hus, ?Hfind, ?Eu;
      do 2 eexists; (split; [reflexivity|]); cbn;
      repeat split; first [lia | congruence | eexists; split; [|reflexivity]; lia].
Qed.


(** Registering the same non-empty [userId] twice in a row: the second
    record keeps the first call's [registeredAt], carries the second
    call's metadata, and, when the clock does not run backwards, its
    [lastSeen] is not before the first call's. *)
Corollary registerUser_twice (d1 d2 : Data.t) (w : World) (u : string) :
  u ≠ "" ->
  Data.userId d1 = Some u ->
  Data.userId d2 = Some u ->
  ∃ user1 w1 user2 w2,
    registerUser (object d1) w = (Return user1, w1)
    ∧ registerUser (object d2) w1 = (Return user2, w2)
    ∧ User.registeredAt user2 = User.registeredAt user1
    ∧ User.metadata user2 = or_mapping (Data.metadata d2)
    ∧ ((∀ j k, (j <= k)%nat -> clock w j <= clock w k) ->
       User.lastSeen user1 <= User.lastSeen user2)
    ∧ length (users (analyticsData w2)) = length (users (analyticsData w1)).
Proof.
  intros Hne Hu1 Hu2.
  destruct (registerUser_run d1 w)
    as (user1 & w1 & Hrun1 & Husers1 & _ & _ & _ & Hid1 & _ & Hticks1 & Hseen1 & _ & _ & _ & _ & Hsame).
  assert (Eu : String.eqb u "" = false) by (apply String.eqb_neq; exact Hne).
  rewrite Hu1, Eu in Hid1.
  assert (Hat : ∃ i, users (analyticsData w1) !! i = Some user1
                     ∧ ∀ j x, (j < i)%nat -> users (analyticsData w1) !! j = Some x
                              -> User.userId x ≠ u).
  { destruct (findUser (Data.userId d1) 0 (users (analyticsData w))) as [[i old]|] eqn:Hf.
    - destruct (findUser_Some _ _ _ _ _ Hf) as (k & -> & Hk & Hold & Hfirst).
      exists k. rewrite Husers1. split.
      + apply list_lookup_insert_eq. eapply lookup_lt_Some, Hk.
      + intros j x Hj Hx. rewrite list_lookup_insert_ne in Hx by lia.
        intros E. apply (Hfirst j x Hj Hx). congruence.
    - exists (length (users (analyticsData w))). rewrite Husers1. split.
      + rewrite lookup_app_r by lia. rewrite Nat.sub_diag. reflexivity.
      + intros j x Hj Hx. rewrite lookup_app_l in Hx by lia.
        intros E. eapply (findUser_None _ _ _ Hf u Hu1).
        apply in_map_iff. exists x. split; [exact E|].
        apply list_elem_of_In. eapply list_elem_of_lookup_2, Hx. }
  destruct Hat as (i & Hi & Hfirst).
  assert (Hin : In u (map User.userId (users (analyticsData w1)))).
  { apply in_map_iff. exists user1. split; [exact Hid1|].
    apply list_elem_of_In. eapply list_elem_of_lookup_2, Hi. }
  destruct (findUser_In u 0 _ Hin) as (i0 & old & Hfind).
  destruct (findUser_Some _ _ _ _ _ Hfind) as (i' & -> & Hold & Holdid & Hfirst').
  destruct (registerUser_run d2 w1)
    as (user2 & w2 & Hrun2 & Husers2 & _ & _ & _ & _ & Hreg & Hticks2 & Hseen2 & _ & _ & Hmeta & _).
  rewrite Hu2, Hfind in Husers2. rewrite Hu2, Hfind in Hreg. cbn in Husers2.
  assert (Hlen : length (users (analyticsData w2)) = length (users (analyticsData w1)))
    by (rewrite Husers2; apply length_insert).
  assert (i' = i) as ->.
  { destruct (Nat.lt_trichotomy i' i) as [Hlt|[Heq|Hgt]]; [|exact Heq|].
    - exfalso. apply (Hfirst i' old Hlt Hold). congruence.
    - exfalso. apply (Hfirst' i user1 Hgt Hi). congruence. }
  assert (old = user1) as -> by congruence.
  exists user1, w1, user2, w2.
  split; [exact Hrun1|]. split; [exact Hrun2|]. split; [exact Hreg|].
  split; [exact Hmeta|]. split; [|exact Hlen].
  intros Hmono. rewrite Hseen1, Hseen2.
  destruct Hsame as (-> & _). apply Hmono. lia.
Qed.

(** ** Statistics *)

#[local] Set Warnings "-clear-no-such-hyp".

Lemma getStatistics_run h w :
  let now := clock w (ticks w) in
  let s := analyticsData w in
  let startTime := startTime_of now h in
  getStatistics h w =
  (Return
     (Stats.mk (Number_toString 10 h +:+ " hours")
        (length (filteredPageViews_of startTime s))
        (length (filteredEvents_of startTime s))
        (keys_length (foldl (fun obj pv => set_true (PageView.userId pv) obj) ∅
                        (filteredPageViews_of startTime s)))
        (foldl (fun obj pv => tally (PageView.page pv) obj) ∅
           (filteredPageViews_of startTime s))
        (foldl (fun obj ev => tally (Event.eventName ev) obj) ∅
           (filteredEvents_of startTime s))
        (length (users s))),
   set_ticks (S (ticks w)) w).
Proof. reflexivity. Qed.

Lemma set_true_fold (l : list PageView.t) (obj : gset string) :
  foldl (fun obj pv => set_true (PageView.userId pv) obj) obj l =
  obj ∪ list_to_set (List.filter is_table_key (map PageView.userId l)).
Proof.
  revert obj. induction l as [|pv l IH]; intros obj; cbn.
  - set_solver.
  - rewrite IH. unfold set_true, is_table_key.
    destruct (String.eqb (PageView.userId pv) proto_key); cbn; set_solver.
Qed.

Lemma size_list_to_set_distinct (l : list string) :
  size (list_to_set (C := gset string) l) = distinct l.
Proof.
  unfold distinct.
  rewrite <- (size_list_to_set (C := gset string) (remove_dups l))
    by apply NoDup_remove_dups.
  f_equal. apply set_eq. intros x.
  rewrite !elem_of_list_to_set, elem_of_remove_dups. reflexivity.
Qed.

(** What [uniqueUsers] counts: the distinct [userId]s of the page views
    in the window, the key ["__proto__"] left out.  Events play no part,
    and [totalUsers] is the length of the whole users list. *)
Theorem uniqueUsers_counts_table_keys (h : Z) (w : World) :
  ∃ stats w',
    getStatistics h w = (Return stats, w')
    ∧ Stats.uniqueUsers stats =
        distinct (List.filter is_table_key
                    (map PageView.userId
                       (filteredPageViews_of
                          (startTime_of (clock w (ticks w)) h) (analyticsData w))))
    ∧ Stats.totalUsers stats = length (users (analyticsData w)).
Proof.
  do 2 eexists. split; [apply getStatistics_run|]. cbn. split; [|reflexivity].
  unfold keys_length. rewrite set_true_fold, union_empty_l_L.
  apply size_list_to_set_distinct.
Qed.

(** Without a page view of user ["__proto__"] in the window, [uniqueUsers]
    is the number of distinct [userId]s among the page views in the
    window. *)
Corollary uniqueUsers_distinct (h : Z) (w : World) :
  let window :=
    filteredPageViews_of (startTime_of (clock w (ticks w)) h) (analyticsData w) in
  Forall (fun pv => PageView.userId pv ≠ proto_key) window ->
  ∃ stats w',
    getStatistics h w = (Return stats, w')
    ∧ Stats.uniqueUsers stats = distinct (map PageView.userId window).
Proof.
  intros window Hno.
  destruct (uniqueUsers_counts_table_keys h w) as (stats & w' & Hrun & Hu & _).
  exists stats, w'. split; [exact Hrun|]. rewrite Hu. fold window. f_equal.
  induction Hno as [|pv l Hpv _ IH]; [reflexivity|]. cbn.
  unfold is_table_key at 1. apply String.eqb_neq in Hpv. rewrite Hpv. cbn.
  f_equal. exact IH.
Qed.

(** [uniqueUsers] does not look at the events: two stores with the same
    page views give the same count, whatever their events are. *)
Lemma uniqueUsers_ignores_events (h : Z) (w : World) (evs : list Event.t) :
  let s := analyticsData w in
  let w2 := set_analyticsData (mkStore (pageViews s) evs (users s) (sessions s)) w in
  ∃ stats stats2 w' w2',
    getStatistics h w = (Return stats, w')
    ∧ getStatistics h w2 = (Return stats2, w2')
    ∧ Stats.uniqueUsers stats2 = Stats.uniqueUsers stats
    ∧ Stats.totalEvents stats2 =
        length (filteredEvents_of (startTime_of (clock w (ticks w)) h) (mkStore [] evs [] [])).
Proof.
  intros s w2. do 4 eexists.
  split; [apply getStatistics_run|]. split; [apply getStatistics_run|].
  split; reflexivity.
Qed.

Lemma or_24_nonzero h : h ≠ 0 -> or_24 h = h.
Proof. unfold or_24. intros H. destruct (Z.eqb_spec h 0); [contradiction|reflexivity]. Qed.

Lemma startTime_of_valid now h :
  h ≠ 0 -> Z.abs (window_start now h) <= maxTime ->
  startTime_of now h = Some (window_start now h).
Proof.
  intros Hh Hrange. unfold startTime_of, new_Date, window_start in *.
  rewrite (or_24_nonzero h Hh).
  replace (now - h * 60 * 60 * 1000) with (now - h * 3600000) by lia.
  destruct (Z.leb_spec (Z.abs (now - h * 3600000)) maxTime); [reflexivity|lia].
Qed.


Lemma filteredPageViews_from startTime s st :
  startTime = Some st ->
  filteredPageViews_of startTime s =
  List.filter (fun pv => st <=? PageView.timestamp pv) (pageViews s).
Proof. intros ->. reflexivity. Qed.

Lemma filteredEvents_from startTime s st :
  startTime = Some st ->
  filteredEvents_of startTime s =
  List.filter (fun ev => st <=? Event.timestamp ev) (events s).
Proof. intros ->. reflexivity. Qed.



Lemma filter_all {A} (f : A -> bool) (l : list A) :
  Forall (fun x => f x = true) l -> List.filter f l = l.
Proof.
  induction 1 as [|x l Hx _ IH]; [reflexivity|]. cbn. rewrite Hx, IH. reflexivity.
Qed.

Lemma getStatistics_window (h : Z) (w : World) :
  let now := clock w (ticks w) in
  let s := analyticsData w in
  h ≠ 0 ->
  Z.abs (window_start now h) <= maxTime ->
  ∃ stats,
    getStatistics h w = (Return stats, set_ticks (S (ticks w)) w)
    ∧ Stats.totalPageViews stats =
        length (List.filter (fun pv => window_start now h <=? PageView.timestamp pv)
                  (pageViews s))
    ∧ Stats.totalEvents stats =
        length (List.filter (fun ev => window_start now h <=? Event.timestamp ev)
                  (events s)).
Proof.
  intros now s Hh Hrange.
  pose proof (startTime_of_valid now h Hh Hrange) as Hstart.
  eexists. split; [apply getStatistics_run|]. cbn. fold now s.
  rewrite (filteredPageViews_from _ s _ Hstart), (filteredEvents_from _ s _ Hstart).
  split; reflexivity.
Qed.

(** C4, as the code has it.  For a positive [windowHours] whose window
    start [now - windowHours] hours is an instant a [Date] can hold (at
    most 8.64e15 ms from the epoch), [getStatistics] reads the clock
    once, leaves the store alone, and returns as [totalPageViews] and
    [totalEvents] the numbers of page views and of events whose timestamp
    is at or after the window start, with no upper bound; when every
    stored page view and event is that recent, the totals are the lengths
    of the two lists. *)
Theorem getStatistics_counts (h : Z) (w : World) :
  let now := clock w (ticks w) in
  let s := analyticsData w in
  0 < h ->
  Z.abs (window_start now h) <= maxTime ->
  ∃ stats w',
    getStatistics h w = (Return stats, w')
    ∧ ticks w' = S (ticks w)
    ∧ analyticsData w' = s
    ∧ startTime_of now h = Some (window_start now h)
    ∧ Stats.totalPageViews stats =
        length (List.filter (fun pv => window_start now h <=? PageView.timestamp pv)
                  (pageViews s))
    ∧ Stats.totalEvents stats =
        length (List.filter (fun ev => window_start now h <=? Event.timestamp ev)
                  (events s))
    ∧ (Forall (fun pv => window_start now h <= PageView.timestamp pv) (pageViews s) ->
       Stats.totalPageViews stats = length (pageViews s))
    ∧ (Forall (fun ev => window_start now h <= Event.timestamp ev) (events s) ->
       Stats.totalEvents stats = length (events s)).
Proof.
  intros now s Hpos Hrange.
  assert (Hh : h ≠ 0) by lia.
  destruct (getStatistics_window h w Hh Hrange) as (stats & Hrun & Hpv & Hev).
  exists stats, (set_ticks (S (ticks w)) w).
  split; [exact Hrun|]. split; [reflexivity|]. split; [reflexivity|].
  split; [apply startTime_of_valid; assumption|].
  split; [exact Hpv|]. split; [exact Hev|]. split.
  - intros Hall. rewrite Hpv. f_equal. apply filter_all.
    eapply Forall_impl; [exact Hall|]. cbn. intros pv H. apply Z.leb_le, H.
  - intros Hall. rewrite Hev. f_equal. apply filter_all.
    eapply Forall_impl; [exact Hall|]. cbn. intros ev H. apply Z.leb_le, H.
Qed.




(** A window text of letters, for one. *)
Example hours_of_letters : hours_of (Some "abc") = 24 ∧ hours_of (Some "0") = 24.
Proof. split; reflexivity. Qed.

(** ** The journey of a user *)

Section Sorting.
Context {A : Type} (key : A -> Z).

Let compareFn (a b : A) : Z := key a - key b.

Lemma sort_insert_perm x l : Permutation (sort_insert compareFn x l) (x :: l).
Proof.
  induction l as [|y l IH]; cbn; [reflexivity|].
  destruct (compareFn x y <=? 0); [reflexivity|].
  rewrite IH. apply perm_swap.
Qed.

Lemma Array_sort_perm l : Permutation (Array_sort compareFn l) l.
Proof.
  induction l as [|x l IH]; cbn; [reflexivity|].
  rewrite sort_insert_perm. constructor. exact IH.
Qed.

Lemma sort_insert_sorted x l :
  StronglySorted (fun a b => key a <= key b) l ->
  StronglySorted (fun a b => key a <= key b) (sort_insert compareFn x l).
Proof.
  induction 1 as [|y l Hl IH Hy]; cbn; [repeat constructor|].
  unfold compareFn at 1. destruct (Z.leb_spec (key x - key y) 0) as [Hle|Hgt].
  - constructor; [constructor; assumption|].
    constructor; [lia|]. eapply Forall_impl; [exact Hy|]. cbn. intros; lia.
  - constructor; [exact IH|].
    apply List.Forall_forall. intros z Hz.
    apply (Permutation_in _ (sort_insert_perm x l)) in Hz.
    destruct Hz as [<-|Hz]; [lia|].
    rewrite List.Forall_forall in Hy. apply Hy, Hz.
Qed.

Lemma Array_sort_sorted l :
  StronglySorted (fun a b => key a <= key b) (Array_sort compareFn l).
Proof.
  induction l as [|x l IH]; cbn; [constructor|].
  apply sort_insert_sorted, IH.
Qed.

(** Stability: the records that share a key keep their order. *)
Lemma sort_insert_stable t x l :
  List.filter (fun a => key a =? t) (sort_insert compareFn x l) =
  List.filter (fun a => key a =? t) (x :: l).
Proof.
  induction l as [|y l IH]; [reflexivity|].
  cbn [sort_insert]. unfold compareFn at 1.
  destruct (Z.leb_spec (key x - key y) 0) as [Hle|Hgt]; [reflexivity|].
  cbn [List.filter] in *. rewrite IH.
  destruct (Z.eqb_spec (key x) t), (Z.eqb_spec (key y) t); try reflexivity. lia.
Qed.

Lemma Array_sort_stable t l :
  List.filter (fun a => key a =? t) (Array_sort compareFn l) =
  List.filter (fun a => key a =? t) l.
Proof.
  induction l as [|x l IH]; [reflexivity|].
  cbn [Array_sort foldr]. fold (Array_sort compareFn l).
  rewrite sort_insert_stable. cbn [List.filter]. rewrite IH. reflexivity.
Qed.

(** A list that is already in order is left as it is. *)
Lemma Array_sort_sorted_id l :
  StronglySorted (fun a b => key a <= key b) l -> Array_sort compareFn l = l.
Proof.
  induction 1 as [|x l Hl IH Hx]; [reflexivity|].
  cbn [Array_sort foldr]. fold (Array_sort compareFn l). rewrite IH.
  destruct l as [|y l]; [reflexivity|]. cbn. unfold compareFn.
  inversion Hx as [|? ? Hxy _]; subst.
  destruct (Z.leb_spec (key x - key y) 0); [reflexivity|lia].
Qed.
End Sorting.

Lemma getUserJourney_run userId w :
  let s := analyticsData w in
  let userPageViews :=
    Array_sort (fun a b => PageView.timestamp a - PageView.timestamp b)
      (List.filter (fun pv => String.eqb (PageView.userId pv) userId) (pageViews s)) in
  let userEvents :=
    Array_sort (fun a b => Event.timestamp a - Event.timestamp b)
      (List.filter (fun ev => String.eqb (Event.userId ev) userId) (events s)) in
  getUserJourney userId w =
  (Return (Journey.mk userId userPageViews userEvents
             (length userPageViews + length userEvents)), w).
Proof. reflexivity. Qed.

(** C5. [getUserJourney(u)] never fails and does not touch the world.
    Its [pageViews] are exactly the stored page views whose [userId] is
    [u], each as often as it is stored; they are in non-decreasing order
    of timestamp, and those that share a timestamp are in the order in
    which they are stored.  The same holds for its [events], and
    [totalActions] is the sum of the two lengths. *)
Theorem getUserJourney_sorted (u : string) (w : World) :
  let mine_pv := List.filter (fun pv => String.eqb (PageView.userId pv) u)
                   (pageViews (analyticsData w)) in
  let mine_ev := List.filter (fun ev => String.eqb (Event.userId ev) u)
                   (events (analyticsData w)) in
  ∃ j,
    getUserJourney u w = (Return j, w)
    ∧ Journey.userId j = u
    ∧ Permutation (Journey.pageViews j) mine_pv
    ∧ (∀ pv, In pv (Journey.pageViews j)
             ↔ In pv (pageViews (analyticsData w)) ∧ PageView.userId pv = u)
    ∧ StronglySorted (fun a b => PageView.timestamp a <= PageView.timestamp b)
        (Journey.pageViews j)
    ∧ (∀ t, List.filter (fun pv => PageView.timestamp pv =? t) (Journey.pageViews j)
            = List.filter (fun pv => PageView.timestamp pv =? t) mine_pv)
    ∧ Permutation (Journey.events j) mine_ev
    ∧ (∀ ev, In ev (Journey.events j)
             ↔ In ev (events (analyticsData w)) ∧ Event.userId ev = u)
    ∧ StronglySorted (fun a b => Event.timestamp a <= Event.timestamp b)
        (Journey.events j)
    ∧ (∀ t, List.filter (fun ev => Event.timestamp ev =? t) (Journey.events j)
            = List.filter (fun ev => Event.timestamp ev =? t) mine_ev)
    ∧ Journey.totalActions j
      = (length (Journey.pageViews j) + length (Journey.events j))%nat.
Proof.
  intros mine_pv mine_ev. eexists. split; [apply getUserJourney_run|]. cbn.
  fold mine_pv mine_ev.
  split; [reflexivity|].
  split; [apply (Array_sort_perm PageView.timestamp)|].
  split.
  { intros pv. split.
    - intros H. apply (Permutation_in _ (Array_sort_perm PageView.timestamp mine_pv)) in H.
      apply List.filter_In in H. destruct H as [H E]. split; [exact H|].
      apply String.eqb_eq, E.
    - intros [H E].
      apply (Permutation_in _ (Permutation_sym (Array_sort_perm PageView.timestamp mine_pv))).
      apply List.filter_In. split; [exact H|]. apply String.eqb_eq, E. }
  split; [apply (Array_sort_sorted PageView.timestamp)|].
  split; [intros t; apply (Array_sort_stable PageView.timestamp)|].
  split; [apply (Array_sort_perm Event.timestamp)|].
  split.
  { intros ev. split.
    - intros H. apply (Permutation_in _ (Array_sort_perm Event.timestamp mine_ev)) in H.
      apply List.filter_In in H. destruct H as [H E]. split; [exact H|].
      apply String.eqb_eq, E.
    - intros [H E].
      apply (Permutation_in _ (Permutation_sym (Array_sort_perm Event.timestamp mine_ev))).
      apply List.filter_In. split; [exact H|]. apply String.eqb_eq, E. }
  split; [apply (Array_sort_sorted Event.timestamp)|].
  split; [intros t; apply (Array_sort_stable Event.timestamp)|].
  reflexivity.
Qed.

(** ** Routing *)

Lemma append_nil s : "" +:+ s = s.
Proof. reflexivity. Qed.

Lemma append_cons c s t : String c s +:+ t = String c (s +:+ t).
Proof. reflexivity. Qed.

Lemma append_assoc s t r : (s +:+ t) +:+ r = s +:+ (t +:+ r).
Proof.
  induction s as [|c s IH]; [reflexivity|].
  rewrite !append_cons, IH. reflexivity.
Qed.

Lemma split_segment sep u rest :
  has_char sep u = false ->
  split sep (u +:+ String sep rest) = u :: split sep rest.
Proof.
  induction u as [|c u IH]; cbn -[Ascii.eqb]; intros H.
  - rewrite append_nil. cbn -[Ascii.eqb]. rewrite Ascii.eqb_refl. reflexivity.
  - apply orb_false_iff in H. destruct H as [Hc Hu].
    rewrite append_cons. cbn -[Ascii.eqb]. rewrite Hc, (IH Hu). reflexivity.
Qed.

Lemma split_last sep u :
  has_char sep u = false -> split sep u = [u].
Proof.
  induction u as [|c u IH]; cbn -[Ascii.eqb]; intros H; [reflexivity|].
  apply orb_false_iff in H. destruct H as [Hc Hu].
  rewrite Hc, (IH Hu). reflexivity.
Qed.

Lemma length_append x y : String.length (x +:+ y) = (String.length x + String.length y)%nat.
Proof. induction x; rewrite ?append_nil, ?append_cons; cbn; congruence. Qed.

Lemma substring_append x y m :
  String.substring (String.length x) m (x +:+ y) = String.substring 0 m y.
Proof. induction x as [|c x IH]; [reflexivity|]. rewrite append_cons. exact IH. Qed.

Lemma substring_all y : String.substring 0 (String.length y) y = y.
Proof. induction y as [|c y IH]; cbn; congruence. Qed.

Lemma endsWith_append x suf : endsWith (x +:+ suf) suf = true.
Proof.
  unfold endsWith. rewrite length_append.
  replace (String.length x + String.length suf - String.length suf)%nat
    with (String.length x) by lia.
  rewrite substring_append, substring_all, String.eqb_refl, andb_true_r.
  apply Nat.leb_le. lia.
Qed.

Lemma startsWith_append pre s : startsWith (pre +:+ s) pre = true.
Proof.
  unfold startsWith. induction pre as [|c pre IH].
  - rewrite append_nil. destruct s; reflexivity.
  - rewrite append_cons. cbn. destruct (ascii_dec c c); [exact IH|contradiction].
Qed.

Lemma filter_none {A} (f : A -> bool) (l : list A) :
  (∀ x, In x l -> f x = false) -> List.filter f l = [].
Proof.
  induction l as [|x l IH]; intros H; [reflexivity|]. cbn.
  rewrite (H x (or_introl eq_refl)). apply IH. intros y Hy. apply H. right. exact Hy.
Qed.

(** C8. For a [userId] that no stored page view and no stored event
    carries, [getUserJourney] returns the journey with no page views, no
    events and [totalActions] zero, without an exception; and a [GET] of
    [/api/users/<userId>/journey] is answered with status 200 and that
    empty journey, the store left as it is. *)
Theorem getUserJourney_unknown (u : string) (w : World) :
  (∀ pv, In pv (pageViews (analyticsData w)) -> PageView.userId pv ≠ u) ->
  (∀ ev, In ev (events (analyticsData w)) -> Event.userId ev ≠ u) ->
  getUserJourney u w = (Return (Journey.mk u [] [] 0), w)
  ∧ ∀ req,
      method req = "GET" ->
      pathname req = "/api/users/" +:+ u +:+ "/journey" ->
      has_char "/" u = false ->
      ∃ w',
        handleRequest req w =
          (Return (mkResponse 200 (Some "application/json")
                     (JourneyJSON (Journey.mk u [] [] 0))), w')
        ∧ analyticsData w' = analyticsData w.
Proof.
  intros Hpv Hev.
  assert (Hrun : ∀ w0, analyticsData w0 = analyticsData w -> getUserJourney u w0 = (Return (Journey.mk u [] [] 0), w0)).
  { intros w0 E. rewrite getUserJourney_run. cbn. rewrite E.
    rewrite !filter_none; [reflexivity| |].
    - intros ev H. apply String.eqb_neq, Hev, H.
    - intros pv H. apply String.eqb_neq, Hpv, H. }
  split; [apply Hrun; reflexivity|].
  intros [m p q b] Hm Hp Hu. cbn in Hm, Hp. subst m.
  assert (Hsplit : split "/" p !! 3%nat = Some u).
  { subst p.
    change ("/api/users/" +:+ u +:+ "/journey")
      with ("" +:+ String "/" ("api" +:+ String "/" ("users" +:+ String "/" (u +:+ String "/" "journey")))).
    rewrite !split_segment by (reflexivity || exact Hu). reflexivity. }
  assert (Hends : endsWith p "/journey" = true) by (subst p; rewrite <- append_assoc; apply endsWith_append).
  assert (Hshape : (∃ rest, p = String "/" (String "a" rest))
                   ∧ startsWith p "/api/users/" = true).
  { subst p. split; [|apply startsWith_append].
    eexists. rewrite !append_cons, append_nil. reflexivity. }
  destruct Hshape as ((rest & Hshape) & Hstarts).
  unfold handleRequest. cbn [method pathname query_hours body].
  assert (E1 : String.eqb p "/" = false) by (rewrite Hshape; reflexivity).
  assert (E2 : String.eqb p "/stats" = false) by (rewrite Hshape; reflexivity).
  rewrite E1, E2, Hstarts, Hends, Hsplit.
  replace (String.eqb "GET" "POST") with false by reflexivity.
  rewrite !andb_false_r. cbn.
  unfold mbind, M_bind, console_log. rewrite Hrun by reflexivity.
  eexists. split; reflexivity.
Qed.

(** ** The codec reads back what it writes *)

Lemma small_N (d : N) :
  (d < 10)%N ->
  (d = 0 ∨ d = 1 ∨ d = 2 ∨ d = 3 ∨ d = 4 ∨ d = 5 ∨ d = 6 ∨ d = 7 ∨ d = 8 ∨ d = 9)%N.
Proof. lia. Qed.

Lemma digit_value_digit (d : N) :
  (d < 10)%N ->
  digit_value (digit d) = Some d
  ∧ Ascii.eqb (digit d) "-" = false ∧ Ascii.eqb (digit d) "+" = false.
Proof.
  intros H. destruct (small_N d H) as [->|[->|[->|[->|[->|[->|[->|[->|[->| ->]]]]]]]]];
    repeat split; reflexivity.
Qed.

Lemma take_number_pad width k n rest acc :
  0 <= n < 10 ^ Z.of_nat width ->
  Codec.take_number (width + k) (Codec.pad width n +:+ rest) acc =
  Codec.take_number k rest (acc * 10 ^ Z.of_nat width + n).
Proof.
  revert k n rest acc. induction width as [|width IH]; intros k n rest acc Hn.
  - cbn [Codec.pad]. rewrite append_nil. cbn. f_equal. cbn in Hn. lia.
  - rewrite Nat2Z.inj_succ, Z.pow_succ_r in * by lia.
    cbn [Codec.pad]. rewrite append_assoc, append_cons, append_nil.
    replace (S width + k)%nat with (width + S k)%nat by lia.
    rewrite IH by (Z.to_euclidean_division_equations; nia).
    cbn [Codec.take_number].
    assert (Hd : (Z.to_N (n mod 10) < 10)%N) by (Z.to_euclidean_division_equations; lia).
    destruct (digit_value_digit _ Hd) as (-> & _).
    apply N.ltb_lt in Hd. rewrite Hd. f_equal.
    rewrite Z2N.id by (Z.to_euclidean_division_equations; lia).
    Z.to_euclidean_division_equations; nia.
Qed.

Lemma take_number_pad_all width n rest :
  0 <= n < 10 ^ Z.of_nat width ->
  Codec.take_number width (Codec.pad width n +:+ rest) 0 = Some (n, rest).
Proof.
  intros Hn. replace width with (width + 0)%nat at 1 by lia.
  rewrite take_number_pad by exact Hn. reflexivity.
Qed.

Lemma expect_pad c width n rest :
  0 <= n -> (Ascii.eqb c "-" || Ascii.eqb c "+") = true ->
  Codec.expect c (Codec.pad (S width) n +:+ rest) = None.
Proof.
  intros Hn Hc. revert n rest Hn. induction width as [|width IH]; intros n rest Hn.
  - cbn [Codec.pad]. rewrite append_nil, append_cons. cbn [Codec.expect].
    assert (Hd : (Z.to_N (n mod 10) < 10)%N) by (Z.to_euclidean_division_equations; lia).
    destruct (digit_value_digit _ Hd) as (_ & Hm & Hp).
    apply orb_true_iff in Hc. destruct Hc as [Hc|Hc]; apply Ascii.eqb_eq in Hc; subst c;
      [rewrite Hm|rewrite Hp]; reflexivity.
  - cbn [Codec.pad] in *. rewrite append_assoc. apply IH.
    Z.to_euclidean_division_equations; lia.
Qed.

Lemma yoe_bounds doe :
  0 <= doe < 146097 ->
  let yoe := (doe - doe / 1460 + doe / 36524 - doe / 146096) / 365 in
  0 <= yoe < 400 ∧ 0 <= doe - (365 * yoe + yoe / 4 - yoe / 100) < 366.
Proof. intros H yoe. subst yoe. Z.to_euclidean_division_equations; lia. Qed.

Lemma civil_of_days_spec z :
  let '(y, m, d) := Codec.civil_of_days z in
  Codec.days_of_civil y m d = z ∧ 1 <= m <= 12 ∧ 1 <= d <= 31
  ∧ (z + 719468) / 146097 * 400 <= y <= (z + 719468) / 146097 * 400 + 400.
Proof.
  unfold Codec.civil_of_days, Codec.days_of_civil.
  set (zz := z + 719468).
  set (era := zz / 146097).
  set (doe := zz mod 146097).
  set (yoe := (doe - doe / 1460 + doe / 36524 - doe / 146096) / 365).
  set (doy := doe - (365 * yoe + yoe / 4 - yoe / 100)).
  set (mp := (5 * doy + 2) / 153).
  assert (Hdoe : 0 <= doe < 146097) by (apply Z.mod_pos_bound; lia).
  destruct (yoe_bounds doe Hdoe) as [Hyoe Hdoy]. fold yoe in Hyoe, Hdoy. fold doy in Hdoy.
  assert (Hmp : 0 <= mp < 12) by (subst mp; Z.to_euclidean_division_equations; lia).
  assert (Hd : 1 <= doy - (153 * mp + 2) / 5 + 1 <= 31)
    by (subst mp; Z.to_euclidean_division_equations; lia).
  destruct (Z.ltb_spec mp 10) as [Hlt|Hge].
  - destruct (Z.leb_spec (mp + 3) 2); [lia|].
    destruct (Z.ltb_spec 2 (mp + 3)); [|lia].
    replace (mp + 3 - 3) with mp by lia.
    replace ((yoe + era * 400 + 0) / 400) with era by (Z.to_euclidean_division_equations; lia).
    replace ((yoe + era * 400 + 0) mod 400) with yoe by (Z.to_euclidean_division_equations; lia).
    assert (E : (153 * mp + 2) / 5 + (doy - (153 * mp + 2) / 5 + 1) - 1 = doy) by lia.
    rewrite E. repeat split; try lia.
    subst doy zz era doe. Z.to_euclidean_division_equations; lia.
  - destruct (Z.leb_spec (mp - 9) 2); [|lia].
    destruct (Z.ltb_spec 2 (mp - 9)); [lia|].
    replace (mp - 9 + 9) with mp by lia.
    replace ((yoe + era * 400 + 1 - 1) / 400) with era by (Z.to_euclidean_division_equations; lia).
    replace ((yoe + era * 400 + 1 - 1) mod 400) with yoe by (Z.to_euclidean_division_equations; lia).
    assert (E : (153 * mp + 2) / 5 + (doy - (153 * mp + 2) / 5 + 1) - 1 = doy) by lia.
    rewrite E. repeat split; try lia.
    subst doy zz era doe. Z.to_euclidean_division_equations; lia.
Qed.

Lemma expect_literal c rest : Codec.expect c (String c "" +:+ rest) = Some rest.
Proof. rewrite append_cons, append_nil. cbn. rewrite Ascii.eqb_refl. reflexivity. Qed.

Ltac field_step :=
  first [ rewrite take_number_pad_all
            by (cbn; first [lia | Z.to_euclidean_division_equations; lia])
        | rewrite expect_literal ];
  cbn -[Codec.take_number Codec.pad Codec.expect String.append Z.mul Z.add
        Codec.days_of_civil Z.div Z.modulo].

Lemma parse_fields_text sign width y m d ms :
  0 <= y < 10 ^ Z.of_nat width ->
  1 <= m <= 12 -> 1 <= d <= 31 -> 0 <= ms < 86400000 ->
  Codec.parse_fields sign width (Codec.pad width y +:+ Codec.fields_text m d ms) =
  Some (Codec.days_of_civil (sign * y) m d * 86400000 + ms).
Proof.
  intros Hy Hm Hd Hms. unfold Codec.parse_fields, Codec.fields_text.
  rewrite take_number_pad_all by exact Hy.
  cbn -[Codec.take_number Codec.pad Codec.expect String.append Z.mul Z.add
        Codec.days_of_civil Z.div Z.modulo].
  repeat field_step.
  change (Codec.expect "Z" "Z") with (Some ""). cbn -[Codec.days_of_civil Z.mul Z.add Z.div Z.modulo].
  f_equal. Z.to_euclidean_division_equations; lia.
Qed.

Lemma Date_parse_toISOString t :
  Z.abs t <= maxTime -> Codec.Date_parse_text (Codec.toISOString t) = Some t.
Proof.
  intros Ht. unfold Codec.toISOString.
  pose proof (civil_of_days_spec (t / 86400000)) as Hspec.
  destruct (Codec.civil_of_days (t / 86400000)) as [[y m] d].
  destruct Hspec as (Hdays & Hm & Hd & Hy).
  assert (Hms : 0 <= t mod 86400000 < 86400000) by (apply Z.mod_pos_bound; lia).
  assert (Hyear : -1000000 < y < 1000000)
    by (unfold maxTime in Ht; Z.to_euclidean_division_equations; lia).
  assert (Hback : ∀ sign yabs, sign * yabs = y ->
            Codec.days_of_civil (sign * yabs) m d * 86400000 + t mod 86400000 = t).
  { intros sign yabs ->. rewrite Hdays. Z.to_euclidean_division_equations; lia. }
  unfold Codec.Date_parse_text.
  destruct ((0 <=? y) && (y <=? 9999)) eqn:E4.
  - apply andb_true_iff in E4. destruct E4 as [H0 H9].
    apply Z.leb_le in H0. apply Z.leb_le in H9.
    rewrite !(expect_pad _ 3) by (reflexivity || lia).
    cbv iota.
    rewrite parse_fields_text by (cbn; lia). f_equal. apply Hback. lia.
  - destruct (Z.ltb_spec y 0) as [Hneg|Hpos].
    + rewrite append_assoc, append_cons, append_nil.
      cbn -[Codec.pad Codec.parse_fields Codec.fields_text String.append].
      rewrite parse_fields_text by (cbn; lia). f_equal. apply Hback. lia.
    + rewrite append_assoc, append_cons, append_nil.
      cbn -[Codec.pad Codec.parse_fields Codec.fields_text String.append].
      rewrite parse_fields_text by (cbn; lia). f_equal. apply Hback. lia.
Qed.

Lemma append_nil_r s : s +:+ "" = s.
Proof. induction s as [|c s IH]; [reflexivity|]. rewrite append_cons, IH. reflexivity. Qed.

Lemma JSON_induction (P : JSON -> Prop) :
  P JNull ->
  (∀ b, P (JBool b)) ->
  (∀ literal, P (JNumber literal)) ->
  (∀ s, P (JString s)) ->
  (∀ items, Forall P items -> P (JArray items)) ->
  (∀ members, Forall (fun kv => P (snd kv)) members -> P (JObject members)) ->
  ∀ j, P j.
Proof.
  intros Hnull Hbool Hnum Hstr Harr Hobj.
  fix IH 1. intros [|b|literal|s|items|members].
  - exact Hnull.
  - apply Hbool.
  - apply Hnum.
  - apply Hstr.
  - apply Harr.
    exact ((fix go (l : list JSON) : Forall P l :=
              match l with
              | [] => @List.Forall_nil _ P
              | x :: xs => @List.Forall_cons _ P x xs (IH x) (go xs)
              end) items).
  - apply Hobj.
    exact ((fix go (l : list (string * JSON)) : Forall (fun kv => P (snd kv)) l :=
              match l with
              | [] => @List.Forall_nil _ _
              | kv :: kvs => @List.Forall_cons _ (fun kv => P (snd kv)) kv kvs (IH (snd kv)) (go kvs)
              end) members).
Qed.

Lemma scan_escape c tail :
  Codec.scan_string (Codec.escape c +:+ tail) =
  Codec.scan_string tail ≫= fun '(str, rest) => Some (String c str, rest).
Proof.
  destruct c as [[] [] [] [] [] [] [] []]; reflexivity.
Qed.

Lemma scan_string_quote s rest :
  Codec.scan_string (Codec.escape_all s +:+ String Codec.quote_mark rest) = Some (s, rest).
Proof.
  induction s as [|c s IH].
  - reflexivity.
  - cbn [Codec.escape_all]. rewrite append_assoc, scan_escape, IH. reflexivity.
Qed.

Lemma skip_ws_append ws s :
  Codec.all_chars Codec.is_ws ws = true -> Codec.skip_ws (ws +:+ s) = Codec.skip_ws s.
Proof.
  induction ws as [|c ws IH]; intros H; [reflexivity|].
  cbn in H. apply andb_true_iff in H. destruct H as [Hc Hws].
  rewrite append_cons. cbn [Codec.skip_ws]. rewrite Hc. apply IH, Hws.
Qed.

Lemma skip_ws_head c s : Codec.is_ws c = false -> Codec.skip_ws (String c s) = String c s.
Proof. intros H. cbn [Codec.skip_ws]. rewrite H. reflexivity. Qed.

Lemma all_chars_append p s t :
  Codec.all_chars p (s +:+ t) = Codec.all_chars p s && Codec.all_chars p t.
Proof.
  induction s as [|c s IH]; [reflexivity|].
  rewrite append_cons. cbn [Codec.all_chars]. rewrite IH, andb_assoc. reflexivity.
Qed.

Lemma scan_number_literal literal rest :
  Codec.all_chars Codec.is_number_char literal = true ->
  Codec.number_ends rest = true ->
  Codec.scan_number (literal +:+ rest) = (literal, rest).
Proof.
  intros Hlit Hrest. induction literal as [|c literal IH].
  - rewrite append_nil. destruct rest as [|c rest]; [reflexivity|].
    cbn in Hrest. cbn [Codec.scan_number].
    destruct (Codec.is_number_char c); [discriminate|reflexivity].
  - cbn in Hlit. apply andb_true_iff in Hlit. destruct Hlit as [Hc Hlit].
    rewrite append_cons. cbn [Codec.scan_number]. rewrite Hc, (IH Hlit). reflexivity.
Qed.

(** The first character of a number tells it from everything else. *)
Lemma starts_a_number_spec c :
  Codec.starts_a_number c = true ->
  Codec.is_ws c = false ∧ Codec.is_number_char c = true
  ∧ Ascii.eqb c "[" = false ∧ Ascii.eqb c "{" = false
  ∧ Ascii.eqb c "]" = false ∧ Ascii.eqb c "}" = false
  ∧ Ascii.eqb c Codec.quote_mark = false ∧ Ascii.eqb c "n" = false
  ∧ Ascii.eqb c "t" = false ∧ Ascii.eqb c "f" = false.
Proof.
  destruct c as [[] [] [] [] [] [] [] []]; intros H; try discriminate H;
    repeat split; reflexivity.
Qed.

Lemma stringify_value_opens indent j :
  Codec.well_formed j = true -> opens (Codec.stringify_value indent j).
Proof.
  intros Hwf. destruct j as [|[]|literal|s|items|members]; cbn [Codec.stringify_value].
  - exists "n"%char, "ull". repeat split.
  - exists "t"%char, "rue". repeat split.
  - exists "f"%char, "alse". repeat split.
  - cbn in Hwf. destruct literal as [|c literal]; [discriminate|].
    apply andb_true_iff in Hwf. destruct Hwf as [Hc _].
    destruct (starts_a_number_spec c Hc) as (? & _ & _ & _ & ? & ? & _).
    exists c, literal. repeat split; assumption.
  - eexists _, _. split; [reflexivity|]. repeat split.
  - unfold Codec.block. destruct (List.map _ items); eexists _, _; (split; [reflexivity|]); repeat split.
  - unfold Codec.block. destruct (List.map _ members); eexists _, _; (split; [reflexivity|]); repeat split.
Qed.

Lemma skip_ws_opens ws text rest :
  Codec.all_chars Codec.is_ws ws = true -> opens text ->
  Codec.skip_ws (ws +:+ text +:+ rest) = text +:+ rest
  ∧ Codec.expect "]" (text +:+ rest) = None
  ∧ Codec.expect "}" (text +:+ rest) = None.
Proof.
  intros Hws (c & tail & -> & Hc & Hb & Hk).
  rewrite skip_ws_append by exact Hws. rewrite append_cons.
  rewrite (skip_ws_head _ _ Hc). cbn [Codec.expect]. rewrite Hb, Hk. auto.
Qed.

Lemma parse_value_S fuel s :
  Codec.parse_value (S fuel) s =
  match Codec.skip_ws s with
  | EmptyString => None
  | String c rest =>
      if Ascii.eqb c "[" then
        match Codec.expect "]" (Codec.skip_ws rest) with
        | Some rest' => Some (JArray [], rest')
        | None => Codec.parse_items fuel rest ≫= fun '(items, rest') => Some (JArray items, rest')
        end
      else if Ascii.eqb c "{" then
        match Codec.expect "}" (Codec.skip_ws rest) with
        | Some rest' => Some (JObject [], rest')
        | None => Codec.parse_members fuel rest ≫= fun '(members, rest') => Some (JObject members, rest')
        end
      else if Ascii.eqb c Codec.quote_mark then
        Codec.scan_string rest ≫= fun '(str, rest') => Some (JString str, rest')
      else if Ascii.eqb c "n" then Codec.strip "ull" rest ≫= fun rest' => Some (JNull, rest')
      else if Ascii.eqb c "t" then Codec.strip "rue" rest ≫= fun rest' => Some (JBool true, rest')
      else if Ascii.eqb c "f" then Codec.strip "alse" rest ≫= fun rest' => Some (JBool false, rest')
      else if Codec.starts_a_number c then
        let '(literal, rest') := Codec.scan_number (String c rest) in
        Some (JNumber literal, rest')
      else None
  end.
Proof. reflexivity. Qed.

Lemma parse_items_S fuel s :
  Codec.parse_items (S fuel) s =
  Codec.parse_value fuel s ≫= fun '(item, rest) =>
    match Codec.skip_ws rest with
    | String c rest' =>
        if Ascii.eqb c "," then
          Codec.parse_items fuel rest' ≫= fun '(items, rest'') => Some (item :: items, rest'')
        else if Ascii.eqb c "]" then Some ([item], rest')
        else None
    | EmptyString => None
    end.
Proof. reflexivity. Qed.

Lemma parse_members_S fuel s :
  Codec.parse_members (S fuel) s =
  Codec.expect Codec.quote_mark (Codec.skip_ws s) ≫= fun s =>
  Codec.scan_string s ≫= fun '(key, s) =>
  Codec.expect ":" (Codec.skip_ws s) ≫= fun s =>
  Codec.parse_value fuel s ≫= fun '(value, s) =>
    match Codec.skip_ws s with
    | String c rest =>
        if Ascii.eqb c "," then
          Codec.parse_members fuel rest ≫= fun '(members, rest') =>
            Some ((key, value) :: members, rest')
        else if Ascii.eqb c "}" then Some ([(key, value)], rest)
        else None
    | EmptyString => None
    end.
Proof. reflexivity. Qed.

Lemma is_ws_not_number c : Codec.is_ws c = true -> Codec.is_number_char c = false.
Proof. destruct c as [[] [] [] [] [] [] [] []]; intros H; try discriminate H; reflexivity. Qed.

Lemma number_ends_closing ws (close : ascii) rest :
  Codec.all_chars Codec.is_ws ws = true ->
  Codec.is_number_char close = false ->
  Codec.number_ends (ws +:+ String close rest) = true.
Proof.
  intros Hws Hclose. destruct ws as [|c ws].
  - rewrite append_nil. cbn. rewrite Hclose. reflexivity.
  - cbn in Hws. apply andb_true_iff in Hws. destruct Hws as [Hc _].
    rewrite append_cons. cbn. rewrite (is_ws_not_number c Hc). reflexivity.
Qed.

Lemma skip_ws_closing ws (close : ascii) rest :
  Codec.all_chars Codec.is_ws ws = true ->
  Codec.is_ws close = false ->
  Codec.skip_ws (ws +:+ String close rest) = String close rest.
Proof.
  intros Hws Hclose. rewrite skip_ws_append by exact Hws. apply skip_ws_head, Hclose.
Qed.

Lemma join_cons sep p q ps :
  Codec.join sep (p :: q :: ps) = p +:+ sep +:+ Codec.join sep (q :: ps).
Proof. reflexivity. Qed.

Lemma items_read_back items :
  Forall reads_back items ->
  forallb Codec.well_formed items = true ->
  items ≠ [] ->
  ∀ deeper sepws closews ws rest fuel,
    Codec.all_chars Codec.is_ws deeper = true ->
    Codec.all_chars Codec.is_ws sepws = true ->
    Codec.all_chars Codec.is_ws closews = true ->
    Codec.all_chars Codec.is_ws ws = true ->
    (fold_right (fun x acc => S (Nat.max (Codec.need x) acc)) 0 items <= fuel)%nat ->
    Codec.parse_items fuel
      (ws +:+ Codec.join (String "," sepws)
                (List.map (Codec.stringify_value deeper) items)
       +:+ closews +:+ String "]" rest)
    = Some (items, rest).
Proof.
  induction 1 as [|x items Hx Hitems IH]; intros Hwf Hne; [contradiction|].
  intros deeper sepws closews ws rest fuel Hdeeper Hsep Hclose Hws Hfuel.
  cbn in Hwf. apply andb_true_iff in Hwf. destruct Hwf as [Hwfx Hwfs].
  cbn [fold_right] in Hfuel. destruct fuel as [|fuel]; [lia|].
  rewrite parse_items_S.
  destruct items as [|y more].
  - cbn [List.map Codec.join].
    rewrite (Hx Hwfx deeper ws _ fuel Hdeeper Hws) by
      (first [apply number_ends_closing; [assumption|reflexivity] | lia]).
    cbn [mbind option_bind]. rewrite skip_ws_closing by (assumption || reflexivity).
    reflexivity.
  - cbn [List.map]. cbn [List.map] in IH. rewrite join_cons.
    rewrite !append_assoc, (append_cons "," sepws).
    rewrite (Hx Hwfx deeper ws _ fuel Hdeeper Hws) by (reflexivity || lia).
    cbn [mbind option_bind]. rewrite skip_ws_head by reflexivity.
    cbn [Ascii.eqb Bool.eqb]. 
    rewrite (IH Hwfs); [reflexivity|discriminate|assumption..|lia].
Qed.

Lemma quote_append s rest :
  Codec.quote s +:+ rest = String Codec.quote_mark (Codec.escape_all s +:+ String Codec.quote_mark rest).
Proof.
  unfold Codec.quote. rewrite append_cons, append_assoc, append_cons, append_nil. reflexivity.
Qed.

Lemma expect_head c rest : Codec.expect c (String c rest) = Some rest.
Proof. cbn. rewrite Ascii.eqb_refl. reflexivity. Qed.

Lemma members_read_back members :
  Forall (fun kv => reads_back (snd kv)) members ->
  forallb (fun kv => Codec.well_formed (snd kv)) members = true ->
  members ≠ [] ->
  ∀ deeper sepws closews ws rest fuel,
    Codec.all_chars Codec.is_ws deeper = true ->
    Codec.all_chars Codec.is_ws sepws = true ->
    Codec.all_chars Codec.is_ws closews = true ->
    Codec.all_chars Codec.is_ws ws = true ->
    (fold_right (fun kv acc => S (Nat.max (Codec.need (snd kv)) acc)) 0 members <= fuel)%nat ->
    Codec.parse_members fuel
      (ws +:+ Codec.join (String "," sepws)
                (List.map (fun kv => Codec.quote (fst kv) +:+ ": "
                                     +:+ Codec.stringify_value deeper (snd kv))
                   members)
       +:+ closews +:+ String "}" rest)
    = Some (members, rest).
Proof.
  induction 1 as [|[key value] members Hx Hmembers IH]; intros Hwf Hne; [contradiction|].
  intros deeper sepws closews ws rest fuel Hdeeper Hsep Hclose Hws Hfuel.
  cbn in Hwf. apply andb_true_iff in Hwf. destruct Hwf as [Hwfx Hwfs].
  cbn [fold_right snd] in Hfuel. cbn [snd] in Hx. destruct fuel as [|fuel]; [lia|].
  rewrite parse_members_S.
  assert (Hstep : ∀ tail,
    Codec.number_ends tail = true ->
    Codec.expect Codec.quote_mark
      (Codec.skip_ws (ws +:+ (Codec.quote key +:+ ": "
                              +:+ Codec.stringify_value deeper value) +:+ tail))
    ≫= (fun s => Codec.scan_string s ≫= fun '(key, s) =>
          Codec.expect ":" (Codec.skip_ws s) ≫= fun s =>
          Codec.parse_value fuel s ≫= fun '(value, s) =>
            match Codec.skip_ws s with
            | String c rest =>
                if Ascii.eqb c "," then
                  Codec.parse_members fuel rest ≫= fun '(members, rest') =>
                    Some ((key, value) :: members, rest')
                else if Ascii.eqb c "}" then Some ([(key, value)], rest)
                else None
            | EmptyString => None
            end)
    = match Codec.skip_ws tail with
      | String c rest =>
          if Ascii.eqb c "," then
            Codec.parse_members fuel rest ≫= fun '(members, rest') =>
              Some ((key, value) :: members, rest')
          else if Ascii.eqb c "}" then Some ([(key, value)], rest)
          else None
      | EmptyString => None
      end).
  { intros tail Htail.
    rewrite skip_ws_append by exact Hws.
    rewrite !append_assoc, quote_append.
    rewrite skip_ws_head by reflexivity. rewrite expect_head. cbn [mbind option_bind].
    rewrite scan_string_quote. cbn [mbind option_bind].
    rewrite (append_cons ":" " "), skip_ws_head by reflexivity.
    rewrite expect_head. cbn [mbind option_bind].
    rewrite (Hx Hwfx deeper " " tail fuel Hdeeper eq_refl Htail) by lia.
    reflexivity. }
  destruct members as [|y more].
  - cbn [List.map Codec.join fst snd].
    rewrite Hstep by (apply number_ends_closing; [assumption|reflexivity]).
    rewrite skip_ws_closing by (assumption || reflexivity). reflexivity.
  - cbn [List.map fst snd]. cbn [List.map] in IH. rewrite join_cons.
    rewrite (append_assoc _ (String "," sepws +:+ _)), (append_assoc (String "," sepws)).
    rewrite (append_cons "," sepws).
    rewrite Hstep by reflexivity.
    rewrite skip_ws_head by reflexivity. cbn [Ascii.eqb Bool.eqb].
    rewrite (IH Hwfs); [reflexivity|discriminate|assumption..|lia].
Qed.

Lemma opens_append text rest : opens text -> opens (text +:+ rest).
Proof.
  intros (c & tail & -> & H). exists c, (tail +:+ rest). rewrite append_cons. auto.
Qed.

Lemma opens_join sep p ps : opens p -> opens (Codec.join sep (p :: ps)).
Proof.
  intros H. destruct ps as [|q ps]; [exact H|]. rewrite join_cons. apply opens_append, H.
Qed.

Lemma all_ws_deeper indent :
  Codec.all_chars Codec.is_ws indent = true ->
  Codec.all_chars Codec.is_ws (indent +:+ "  ") = true
  ∧ Codec.all_chars Codec.is_ws (String Codec.newline (indent +:+ "  ")) = true
  ∧ Codec.all_chars Codec.is_ws (String Codec.newline indent) = true.
Proof.
  intros H. cbn [Codec.all_chars]. rewrite !all_chars_append, H. repeat split.
Qed.

Lemma close_block indent (close : ascii) rest :
  String Codec.newline (indent +:+ String close "") +:+ rest =
  String Codec.newline indent +:+ String close rest.
Proof. rewrite !append_cons, append_assoc, append_cons, append_nil. reflexivity. Qed.

Lemma stringify_value_reads_back j : reads_back j.
Proof.
  induction j as [|b|literal|s|items IH|members IH] using JSON_induction;
    intros Hwf indent ws rest fuel Hindent Hws Hrest Hfuel;
    (destruct fuel as [|fuel]; [cbn in Hfuel; lia|]);
    rewrite parse_value_S, skip_ws_append by exact Hws.
  - reflexivity.
  - destruct b; reflexivity.
  - cbn [Codec.stringify_value]. cbn in Hwf.
    destruct literal as [|c literal]; [discriminate|].
    apply andb_true_iff in Hwf. destruct Hwf as [Hc Hlit].
    destruct (starts_a_number_spec c Hc) as (Hw & Hn & H1 & H2 & _ & _ & H3 & H4 & H5 & H6).
    rewrite append_cons, skip_ws_head by exact Hw.
    rewrite H1, H2, H3, H4, H5, H6, Hc.
    rewrite <- append_cons, scan_number_literal; [reflexivity| |exact Hrest].
    cbn. rewrite Hn, Hlit. reflexivity.
  - cbn [Codec.stringify_value]. rewrite quote_append.
    rewrite skip_ws_head by reflexivity. cbn [Ascii.eqb Bool.eqb].
    change (Ascii.eqb Codec.quote_mark Codec.quote_mark) with true. cbv iota.
    rewrite scan_string_quote. reflexivity.
  - cbn [Codec.stringify_value]. cbn in Hwf, Hfuel.
    destruct (all_ws_deeper indent Hindent) as (Hdeeper & Hinner & Hclose).
    destruct items as [|x items]; [reflexivity|].
    unfold Codec.block. cbn [List.map].
    set (lines := Codec.stringify_value (indent +:+ "  ") x
                  :: List.map (Codec.stringify_value (indent +:+ "  ")) items).
    assert (Hopen : opens (Codec.join (String "," (String Codec.newline (indent +:+ "  "))) lines)).
    { apply opens_join, stringify_value_opens. cbn in Hwf.
      apply andb_true_iff in Hwf. apply Hwf. }
    rewrite append_cons, !append_assoc, close_block.
    rewrite skip_ws_head by reflexivity. cbn [Ascii.eqb Bool.eqb].
    destruct (skip_ws_opens _ _
                (String Codec.newline indent +:+ String "]" rest) Hinner Hopen)
      as (-> & -> & _).
    subst lines.
    rewrite (items_read_back (x :: items) IH Hwf ltac:(discriminate)
               (indent +:+ "  ") _ (String Codec.newline indent) _ rest fuel)
      by (assumption || lia).
    reflexivity.
  - cbn [Codec.stringify_value]. cbn in Hwf, Hfuel.
    destruct (all_ws_deeper indent Hindent) as (Hdeeper & Hinner & Hclose).
    destruct members as [|x members]; [reflexivity|].
    unfold Codec.block. cbn [List.map].
    set (lines := (Codec.quote (fst x) +:+ ": " +:+ Codec.stringify_value (indent +:+ "  ") (snd x))
                  :: List.map (fun kv => Codec.quote (fst kv) +:+ ": "
                                         +:+ Codec.stringify_value (indent +:+ "  ") (snd kv))
                       members).
    assert (Hopen : opens (Codec.join (String "," (String Codec.newline (indent +:+ "  "))) lines)).
    { apply opens_join. rewrite quote_append. eexists _, _. split; [reflexivity|]. repeat split. }
    rewrite append_cons, !append_assoc, close_block.
    rewrite skip_ws_head by reflexivity. cbn [Ascii.eqb Bool.eqb].
    destruct (skip_ws_opens _ _
                (String Codec.newline indent +:+ String "}" rest) Hinner Hopen)
      as (-> & _ & ->).
    subst lines.
    rewrite (members_read_back (x :: members) IH Hwf ltac:(discriminate)
               (indent +:+ "  ") _ (String Codec.newline indent) _ rest fuel)
      by (assumption || lia).
    reflexivity.
Qed.

Lemma need_lines {A} (need_of : A -> nat) (line_of : A -> string) sep (l : list A) :
  Forall (fun x => (need_of x <= String.length (line_of x))%nat) l ->
  (1 <= String.length sep)%nat ->
  (fold_right (fun x acc => S (Nat.max (need_of x) acc)) 0 l
   <= String.length (Codec.join sep (List.map line_of l)) + 1)%nat.
Proof.
  intros Hall Hsep. induction Hall as [|x l Hx Hl IH]; [cbn; lia|].
  cbn [fold_right List.map]. destruct l as [|y l].
  - cbn. lia.
  - cbn [List.map] in *. rewrite join_cons, !length_append. lia.
Qed.

Lemma need_le_length j :
  Codec.well_formed j = true ->
  ∀ indent, (Codec.need j <= String.length (Codec.stringify_value indent j))%nat.
Proof.
  induction j as [|b|literal|s|items IH|members IH] using JSON_induction;
    intros Hwf indent; cbn [Codec.need Codec.stringify_value].
  - cbn. lia.
  - destruct b; cbn; lia.
  - destruct literal; [discriminate|cbn; lia].
  - unfold Codec.quote. cbn. lia.
  - cbn in Hwf. unfold Codec.block.
    pose proof (need_lines Codec.need (Codec.stringify_value (indent +:+ "  "))
                  (String "," (String Codec.newline (indent +:+ "  "))) items) as Hlines.
    destruct (List.map _ items) eqn:E.
    + destruct items; [cbn; lia|discriminate].
    + cbn [String.length]. rewrite !length_append. cbn [String.length].
      enough (fold_right (fun x acc => S (Nat.max (Codec.need x) acc)) 0 items
              <= String.length (Codec.join (String "," (String Codec.newline (indent +:+ "  "))) (s :: l)) + 1)%nat
        by lia.
      apply Hlines; [|cbn; lia].
      rewrite List.forallb_forall in Hwf. rewrite List.Forall_forall in IH |- *.
      intros x Hx. apply IH; [exact Hx|]. apply Hwf, Hx.
  - cbn in Hwf. unfold Codec.block.
    pose proof (need_lines (fun kv => Codec.need (snd kv))
                  (fun kv => Codec.quote (fst kv) +:+ ": "
                             +:+ Codec.stringify_value (indent +:+ "  ") (snd kv))
                  (String "," (String Codec.newline (indent +:+ "  "))) members) as Hlines.
    destruct (List.map _ members) eqn:E.
    + destruct members; [cbn; lia|discriminate].
    + cbn [String.length]. rewrite !length_append. cbn [String.length].
      enough (fold_right (fun kv acc => S (Nat.max (Codec.need (snd kv)) acc)) 0 members
              <= String.length (Codec.join (String "," (String Codec.newline (indent +:+ "  "))) (s :: l)) + 1)%nat
        by lia.
      apply Hlines; [|cbn; lia].
      rewrite List.forallb_forall in Hwf. rewrite List.Forall_forall in IH |- *.
      intros x Hx. rewrite !length_append.
      specialize (IH x Hx (Hwf x Hx) (indent +:+ "  ")). lia.
Qed.

(** A well-formed value is read back from its text. *)
Lemma parse_text_stringify_value j :
  Codec.well_formed j = true ->
  Codec.parse_text (Codec.stringify_value "" j) = Some j.
Proof.
  intros Hwf. unfold Codec.parse_text.
  pose proof (stringify_value_reads_back j Hwf "" "" ""
                (String.length (Codec.stringify_value "" j)) eq_refl eq_refl eq_refl
                (need_le_length j Hwf "")) as H.
  rewrite append_nil, append_nil_r in H. rewrite H. reflexivity.
Qed.

Lemma mapM_map {A B} (f : B -> option A) (g : A -> B) (l : list A) :
  Forall (fun x => f (g x) = Some x) l -> mapM f (List.map g l) = Some l.
Proof.
  induction 1 as [|x l Hx _ IH]; [reflexivity|].
  cbn. rewrite Hx. cbn. rewrite IH. reflexivity.
Qed.

Ltac read_fields :=
  unfold Codec.to_pageView, Codec.of_pageView, Codec.to_event, Codec.of_event,
    Codec.to_user, Codec.of_user, Codec.instant_at, Codec.text_at, Codec.mapping_at;
  cbn -[Codec.toISOString Codec.Date_parse_text];
  repeat (rewrite Date_parse_toISOString by (apply Z.leb_le; assumption);
          cbn -[Codec.toISOString Codec.Date_parse_text]);
  reflexivity.

Lemma to_pageView_of_pageView pv :
  Codec.valid_instant (PageView.timestamp pv) = true ->
  Codec.to_pageView (Codec.of_pageView pv) = Some pv.
Proof. intros Ht. destruct pv. cbn in Ht. read_fields. Qed.

Lemma to_event_of_event ev :
  Codec.valid_instant (Event.timestamp ev) = true ->
  Codec.to_event (Codec.of_event ev) = Some ev.
Proof. intros Ht. destruct ev. cbn in Ht. read_fields. Qed.

Lemma to_user_of_user u :
  Codec.valid_instant (User.registeredAt u) = true ->
  Codec.valid_instant (User.lastSeen u) = true ->
  Codec.to_user (Codec.of_user u) = Some u.
Proof. intros Hr Hl. destruct u. cbn in Hr, Hl. read_fields. Qed.

Lemma forallb_map_true {A B} (p : B -> bool) (g : A -> B) (l : list A) :
  (∀ x, In x l -> p (g x) = true) -> forallb p (List.map g l) = true.
Proof.
  intros H. apply List.forallb_forall. intros y Hy. apply List.in_map_iff in Hy.
  destruct Hy as (x & <- & Hx). apply H, Hx.
Qed.

Lemma to_store_of_store s :
  Codec.well_formed_store s = true ->
  Codec.to_store (Codec.of_store s) = Some s
  ∧ Codec.well_formed (Codec.of_store s) = true.
Proof.
  unfold Codec.well_formed_store. rewrite !andb_true_iff.
  intros (((Hpv & Hev) & Hus) & Hss).
  rewrite List.forallb_forall in Hpv, Hev, Hus. split.
  - destruct s as [pvs evs us ss]. unfold Codec.to_store, Codec.of_store. cbn in *.
    rewrite (mapM_map Codec.to_pageView Codec.of_pageView pvs)
      by (apply List.Forall_forall; intros x Hx; apply to_pageView_of_pageView, Hpv, Hx).
    cbn.
    rewrite (mapM_map Codec.to_event Codec.of_event evs).
    2:{ apply List.Forall_forall. intros x Hx. specialize (Hev x Hx).
        apply andb_true_iff in Hev. apply to_event_of_event, Hev. }
    cbn.
    rewrite (mapM_map Codec.to_user Codec.of_user us).
    2:{ apply List.Forall_forall. intros x Hx. specialize (Hus x Hx).
        rewrite !andb_true_iff in Hus. apply to_user_of_user; apply Hus. }
    reflexivity.
  - cbn. rewrite Hss, !andb_true_r. rewrite !andb_true_iff. repeat split.
    + apply forallb_map_true. intros pv _. reflexivity.
    + apply forallb_map_true. intros ev Hx. specialize (Hev ev Hx).
      apply andb_true_iff in Hev. cbn. rewrite !andb_true_r. apply Hev.
    + apply forallb_map_true. intros u Hx. specialize (Hus u Hx).
      rewrite !andb_true_iff in Hus. cbn. rewrite !andb_true_r. apply Hus.
Qed.

(** The codec reads a well-formed store back from its snapshot. *)
Theorem parse_stringify (s : Store) :
  Codec.well_formed_store s = true -> Codec.parse (Codec.stringify s) = inr s.
Proof.
  intros Hwf. destruct (to_store_of_store s Hwf) as [Hstore Hjson].
  unfold Codec.parse, Codec.stringify.
  rewrite (parse_text_stringify_value _ Hjson). cbn [mbind option_bind].
  rewrite Hstore. reflexivity.
Qed.

(** ** Persistence *)

Lemma initializeDataStore_run (w : World) :
  ∃ w' line,
    initializeDataStore w = (Return tt, w')
    ∧ match snapshot_on_disk w with
      | Some s => analyticsData w' = s
      | None => analyticsData w' = analyticsData w
      end
    ∧ console w' = console w ++ [line]
    ∧ file w' = file w
    ∧ ticks w' = ticks w ∧ draws w' = draws w
    ∧ same_surroundings w w'.
Proof.
  run. unfold snapshot_on_disk, same_surroundings.
  destruct (file w) as [text|] eqn:Hfile; cbn.
  - destruct (readable w) eqn:Hr; cbn.
    + destruct (parse w text) as [e|s] eqn:Hparse; cbn;
        rewrite ?Hfile, ?Hr; cbn; rewrite ?Hparse; cbn;
        do 2 eexists; (split; [reflexivity|]); cbn; rewrite ?Hfile, ?Hr; repeat split.
    + rewrite ?Hfile, ?Hr; cbn.
      do 2 eexists; (split; [reflexivity|]); cbn; rewrite ?Hfile, ?Hr; repeat split.
  - do 2 eexists; (split; [reflexivity|]); cbn; rewrite ?Hfile; repeat split.
Qed.


(** At start-up the store in memory is [emptyStore]; without a snapshot
    to load it is still [emptyStore] when the server starts to listen. *)
Corollary startServer_default (w : World) :
  analyticsData w = emptyStore ->
  snapshot_on_disk w = None ->
  ∃ w', startServer w = (Return tt, w') ∧ analyticsData w' = emptyStore.
Proof.
  intros Hempty Hnone.
  destruct (initializeDataStore_run w) as (w' & line & Hrun & Hstore & _).
  rewrite Hnone in Hstore. exists w'. split; [exact Hrun|congruence].
Qed.

Lemma load_after_save (w : World) (s0 : Store) :
  writable w = true ->
  readable w = true ->
  parse w (stringify w (analyticsData w)) = inr (analyticsData w) ->
  ∃ w1 w2,
    saveDataToFile w = (Return tt, w1)
    ∧ file w1 = Some (stringify w (analyticsData w))
    ∧ initializeDataStore (set_analyticsData s0 w1) = (Return tt, w2)
    ∧ analyticsData w2 = analyticsData w.
Proof.
  intros Hw Hr Hcodec.
  destruct (saveDataToFile_run w)
    as (w1 & Hsave & Hstore & _ & _ & (_ & _ & Hstr & Hparse & Hread & _) & Hfile).
  rewrite Hw in Hfile.
  destruct (initializeDataStore_run (set_analyticsData s0 w1))
    as (w2 & line & Hload & Hsnap & _).
  unfold snapshot_on_disk in Hsnap. cbn in Hsnap.
  rewrite Hfile, Hread, Hr, Hparse, Hcodec in Hsnap.
  exists w1, w2. repeat split; assumption.
Qed.

(** C6. Saving and then loading gives back the store that was saved.
    In a world whose JSON codec is [Codec] and whose file system accepts
    the write and the read, for every store that can be written down
    (its instants are valid dates, its numbers have literals): after
    [saveDataToFile], a process that starts with any store [s0] in memory
    and runs [initializeDataStore] holds the saved store, the same four
    lists, record for record, in the same order. *)
Theorem save_then_load (w : World) (s0 : Store) :
  stringify w = Codec.stringify ->
  parse w = Codec.parse ->
  writable w = true ->
  readable w = true ->
  Codec.well_formed_store (analyticsData w) = true ->
  ∃ w1 w2,
    saveDataToFile w = (Return tt, w1)
    ∧ file w1 = Some (Codec.stringify (analyticsData w))
    ∧ initializeDataStore (set_analyticsData s0 w1) = (Return tt, w2)
    ∧ analyticsData w2 = analyticsData w
    ∧ pageViews (analyticsData w2) = pageViews (analyticsData w)
    ∧ events (analyticsData w2) = events (analyticsData w)
    ∧ users (analyticsData w2) = users (analyticsData w)
    ∧ sessions (analyticsData w2) = sessions (analyticsData w).
Proof.
  intros Hstr Hparse Hw Hr Hwf.
  destruct (load_after_save w s0 Hw Hr) as (w1 & w2 & Hsave & Hfile & Hload & Hstore).
  - rewrite Hstr, Hparse. apply parse_stringify, Hwf.
  - exists w1, w2. rewrite Hstore, <- Hstr. repeat split; assumption.
Qed.

(** ** Runs of ingest operations *)

Lemma NoDup_snoc {A} (l : list A) (x : A) :
  NoDup l -> x ∉ l -> NoDup (l ++ [x]).
Proof.
  intros Hl Hx. apply NoDup_app. split; [exact Hl|]. split.
  - intros y Hy Hy'. apply list_elem_of_singleton in Hy'. subst. contradiction.
  - apply NoDup_singleton.
Qed.



Lemma after_trackPageView d w :
  ∃ pv,
    analyticsData (after (TrackPageView d) w) =
      mkStore (pageViews (analyticsData w) ++ [pv]) (events (analyticsData w))
        (users (analyticsData w)) (sessions (analyticsData w))
    ∧ PageView.id pv = next_id w
    ∧ PageView.timestamp pv = clock w (S (ticks w))
    ∧ (S (S (ticks w)) <= ticks (after (TrackPageView d) w))%nat
    ∧ same_surroundings w (after (TrackPageView d) w).
Proof.
  destruct (trackPageView_run d w) as (pv & w' & Hrun & Hs & Hid & Hts & _ & _ & _ & _ & Ht & Hsame).
  exists pv. unfold after, ingest, mbind, M_bind. rewrite Hrun. cbn. auto.
Qed.

Lemma after_trackEvent d w :
  ∃ ev,
    analyticsData (after (TrackEvent d) w) =
      mkStore (pageViews (analyticsData w)) (events (analyticsData w) ++ [ev])
        (users (analyticsData w)) (sessions (analyticsData w))
    ∧ Event.id ev = next_id w
    ∧ Event.timestamp ev = clock w (S (ticks w))
    ∧ (S (S (ticks w)) <= ticks (after (TrackEvent d) w))%nat
    ∧ same_surroundings w (after (TrackEvent d) w).
Proof.
  destruct (trackEvent_run d w) as (ev & w' & Hrun & Hs & Hid & Hts & _ & _ & _ & _ & Ht & Hsame).
  exists ev. unfold after, ingest, mbind, M_bind. rewrite Hrun. cbn. auto.
Qed.



Lemma after_registerUser d w :
  pageViews (analyticsData (after (RegisterUser d) w)) = pageViews (analyticsData w)
  ∧ events (analyticsData (after (RegisterUser d) w)) = events (analyticsData w)
  ∧ (ticks w < ticks (after (RegisterUser d) w))%nat
  ∧ same_surroundings w (after (RegisterUser d) w).
Proof.
  destruct (registerUser_run d w)
    as (user & w' & Hrun & _ & Hpvs & Hevs & _ & _ & _ & Ht & _ & _ & _ & _ & _ & Hsame).
  unfold after, ingest, mbind, M_bind. rewrite Hrun. cbn. auto.
Qed.

(** The records that a run appends carry clock readings made during the
    run. *)
Lemma ingested_appends ops w :
  let w' := ingested ops w in
  same_surroundings w w'
  ∧ (ticks w <= ticks w')%nat
  ∧ ∃ pvs evs,
      pageViews (analyticsData w') = pageViews (analyticsData w) ++ pvs
      ∧ events (analyticsData w') = events (analyticsData w) ++ evs
      ∧ length pvs = length (List.filter is_TrackPageView ops)
      ∧ length evs = length (List.filter is_TrackEvent ops)
      ∧ Forall (fun pv => ∃ k, (ticks w <= k < ticks w')%nat
                               ∧ PageView.timestamp pv = clock w k) pvs
      ∧ Forall (fun ev => ∃ k, (ticks w <= k < ticks w')%nat
                               ∧ Event.timestamp ev = clock w k) evs.
Proof.
  revert w. induction ops as [|op ops IH]; intros w; cbn.
  - split; [apply same_surroundings_refl|]. split; [lia|].
    exists [], []. rewrite !app_nil_r. repeat split; constructor.
  - destruct (IH (after op w)) as (Hsame & Hticks & pvs & evs & Hpv & Hev & Hlp & Hle & Hfp & Hfe).
    fold (ingested ops (after op w)) in *.
    set (w' := ingested ops (after op w)) in *.
    assert (Hweak : ∀ {A} (ts : A -> Z) (l : list A) w1,
               same_surroundings w w1 -> (ticks w <= ticks w1)%nat ->
               Forall (fun x => ∃ k, (ticks w1 <= k < ticks w')%nat ∧ ts x = clock w1 k) l ->
               Forall (fun x => ∃ k, (ticks w <= k < ticks w')%nat ∧ ts x = clock w k) l).
    { intros A ts l w1 (Hc & _) Ht Hl. eapply Forall_impl; [exact Hl|]. cbn.
      intros x (k & Hk & Hx). exists k. split; [lia|congruence]. }
    destruct op as [d|d|d].
    + destruct (after_trackPageView d w) as (pv & Hs & _ & Hts & Ht & Hsame1).
      split; [eapply same_surroundings_trans; eassumption|]. split; [lia|].
      exists (pv :: pvs), evs. rewrite Hpv, Hev, Hs. cbn. rewrite <- app_assoc. cbn.
      repeat split; try congruence.
      * constructor; [exists (S (ticks w)); split; [lia|exact Hts]|].
        eapply Hweak; [exact Hsame1|lia|exact Hfp].
      * eapply Hweak; [exact Hsame1|lia|exact Hfe].
    + destruct (after_trackEvent d w) as (ev & Hs & _ & Hts & Ht & Hsame1).
      split; [eapply same_surroundings_trans; eassumption|]. split; [lia|].
      exists pvs, (ev :: evs). rewrite Hpv, Hev, Hs. cbn. rewrite <- app_assoc. cbn.
      repeat split; try congruence.
      * eapply Hweak; [exact Hsame1|lia|exact Hfp].
      * constructor; [exists (S (ticks w)); split; [lia|exact Hts]|].
        eapply Hweak; [exact Hsame1|lia|exact Hfe].
    + destruct (after_registerUser d w) as (Hp & He & Ht & Hsame1).
      split; [eapply same_surroundings_trans; eassumption|]. split; [lia|].
      exists pvs, evs. rewrite Hpv, Hev, Hp, He. cbn.
      repeat split; try congruence.
      * eapply Hweak; [exact Hsame1|lia|exact Hfp].
      * eapply Hweak; [exact Hsame1|lia|exact Hfe].
Qed.

(** The scenario of C4: from a store without page views and events,
    track some page views and events, then ask for the statistics of a
    window that reaches back behind every clock reading of the run.  The
    totals are the numbers of tracked page views and of tracked events. *)
Corollary tracked_then_counted (ops : list Ingest) (h : Z) (w : World) :
  let w1 := ingested ops w in
  let now := clock w (ticks w1) in
  pageViews (analyticsData w) = [] ->
  events (analyticsData w) = [] ->
  0 < h ->
  Z.abs (window_start now h) <= maxTime ->
  (∀ k, (ticks w <= k < ticks w1)%nat -> window_start now h <= clock w k) ->
  ∃ stats w2,
    getStatistics h w1 = (Return stats, w2)
    ∧ Stats.totalPageViews stats = length (List.filter is_TrackPageView ops)
    ∧ Stats.totalEvents stats = length (List.filter is_TrackEvent ops).
Proof.
  intros w1 now Hnopv Hnoev Hpos Hrange Hrecent.
  destruct (ingested_appends ops w)
    as ((Hclock & _) & Hticks & pvs & evs & Hpv & Hev & Hlp & Hle & Hfp & Hfe).
  fold w1 in Hclock, Hticks, Hpv, Hev, Hfp, Hfe.
  rewrite Hnopv in Hpv. rewrite Hnoev in Hev. cbn in Hpv, Hev.
  assert (Hnow : clock w1 (ticks w1) = now) by (unfold now; congruence).
  assert (Hh : h ≠ 0) by lia.
  destruct (getStatistics_window h w1 Hh) as (stats & Hrun & Hcp & Hce);
    [rewrite Hnow; exact Hrange|].
  rewrite Hnow in Hcp, Hce.
  exists stats, (set_ticks (S (ticks w1)) w1). split; [exact Hrun|]. split.
  - rewrite Hcp, Hpv, <- Hlp. f_equal. apply filter_all.
    eapply Forall_impl; [exact Hfp|]. cbn. intros pv (k & Hk & ->).
    apply Z.leb_le, Hrecent, Hk.
  - rewrite Hce, Hev, <- Hle. f_equal. apply filter_all.
    eapply Forall_impl; [exact Hfe|]. cbn. intros ev (k & Hk & ->).
    apply Z.leb_le, Hrecent, Hk.
Qed.

(** ** Snapshots of runs *)

Lemma forallb_snoc {A} (p : A -> bool) (l : list A) (x : A) :
  forallb p l = true -> p x = true -> forallb p (l ++ [x]) = true.
Proof. intros Hl Hx. rewrite forallb_app, Hl. cbn. rewrite Hx. reflexivity. Qed.

Lemma forallb_insert {A} (p : A -> bool) (l : list A) (i : nat) (x : A) :
  forallb p l = true -> p x = true -> forallb p (<[i := x]> l) = true.
Proof.
  revert i. induction l as [|y l IH]; intros i Hl Hx; [reflexivity|].
  cbn in Hl. apply andb_true_iff in Hl. destruct Hl as [Hy Hl].
  destruct i as [|i]; cbn; [rewrite Hx|rewrite Hy, IH]; auto.
Qed.

(** An operation keeps the store one that can be written down, when the
    clock shows valid instants and the request's mappings are well
    formed. *)
Lemma well_formed_step op w :
  (∀ k, Codec.valid_instant (clock w k) = true) ->
  well_formed_request op = true ->
  Codec.well_formed_store (analyticsData w) = true ->
  Codec.well_formed_store (analyticsData (after op w)) = true.
Proof.
  intros Hclock Hreq. unfold Codec.well_formed_store. rewrite !andb_true_iff.
  intros (((Hpv & Hev) & Hus) & Hss). destruct op as [d|d|d].
  - destruct (after_trackPageView d w) as (pv & -> & _ & Hts & _). cbn.
    repeat split; try assumption. apply forallb_snoc; [exact Hpv|].
    rewrite Hts. apply Hclock.
  - destruct (trackEvent_run d w) as (ev & w' & Hrun & Hs & _ & Hts & _ & _ & _ & Hprops & _).
    unfold after, ingest, mbind, M_bind. rewrite Hrun. cbn. rewrite Hs. cbn.
    repeat split; try assumption. apply forallb_snoc; [exact Hev|].
    rewrite Hts, Hprops, Hclock. exact Hreq.
  - destruct (registerUser_run d w)
      as (user & w' & Hrun & Husers & Hpvs & Hevs & Hsess & _ & Hreg & _ & Hseen & _ & _ & Hmeta & _).
    unfold after, ingest, mbind, M_bind. rewrite Hrun. cbn.
    rewrite Hpvs, Hevs, Hsess, Husers.
    repeat split; try assumption.
    assert (Huser : Codec.valid_instant (User.registeredAt user)
                    && Codec.valid_instant (User.lastSeen user)
                    && Codec.well_formed_mapping (User.metadata user) = true).
    { rewrite Hseen, Hmeta, Hclock, andb_true_r. cbn in Hreq. rewrite Hreq, andb_true_r.
      destruct (findUser (Data.userId d) 0 (users (analyticsData w))) as [[i old]|] eqn:Hfind.
      - rewrite Hreg. destruct (findUser_Some _ _ _ _ _ Hfind) as (k & _ & Hk & _).
        rewrite List.forallb_forall in Hus.
        assert (Hold := Hus old (proj1 (list_elem_of_In _ _) (list_elem_of_lookup_2 _ _ _ Hk))).
        rewrite !andb_true_iff in Hold. apply Hold.
      - destruct Hreg as (k & _ & ->). apply Hclock. }
    destruct (findUser (Data.userId d) 0 (users (analyticsData w))) as [[i old]|].
    + apply forallb_insert; assumption.
    + apply forallb_snoc; assumption.
Qed.

Lemma after_same_surroundings op w : same_surroundings w (after op w).
Proof.
  destruct op as [d|d|d].
  - destruct (after_trackPageView d w) as (pv & _ & _ & _ & _ & H). exact H.
  - destruct (after_trackEvent d w) as (ev & _ & _ & _ & _ & H). exact H.
  - apply after_registerUser.
Qed.

Lemma well_formed_run ops w :
  (∀ k, Codec.valid_instant (clock w k) = true) ->
  forallb well_formed_request ops = true ->
  Codec.well_formed_store (analyticsData w) = true ->
  Codec.well_formed_store (analyticsData (ingested ops w)) = true
  ∧ same_surroundings w (ingested ops w).
Proof.
  revert w. induction ops as [|op ops IH]; intros w Hclock Hreqs Hwf.
  - split; [exact Hwf|apply same_surroundings_refl].
  - cbn in Hreqs. apply andb_true_iff in Hreqs. destruct Hreqs as [Hreq Hreqs].
    pose proof (after_same_surroundings op w) as Hsame.
    destruct (IH (after op w)) as [Hwf' Hsame'].
    + intros k. destruct Hsame as (-> & _). apply Hclock.
    + exact Hreqs.
    + apply well_formed_step; assumption.
    + split; [exact Hwf'|]. eapply same_surroundings_trans; eassumption.
Qed.

(** An operation ends with the snapshot of the store on disk, when the
    file system accepts the write. *)
Lemma after_file op w :
  writable w = true ->
  file (after op w) = Some (stringify w (analyticsData (after op w))).
Proof.
  intros Hw. destruct op as [d|d|d]; unfold after, ingest.
  - run. destruct (Data.sessionId d) as [s|]; [destruct (String.eqb s "")|]; cbn;
      rewrite Hw; reflexivity.
  - run. destruct (Data.sessionId d) as [s|]; [destruct (String.eqb s "")|]; cbn;
      rewrite Hw; reflexivity.
  - run. destruct (users (analyticsData w)) as [|x us]; cbn;
      (destruct (Data.userId d) as [u|]; [destruct (String.eqb u "")|]); cbn;
      repeat match goal with
             | |- context [match ?o with Some _ => _ | None => _ end] => destruct o as [[? ?]|]
             end; cbn; rewrite Hw; reflexivity.
Qed.

(** The snapshot of a run.  Take a world with the codec [Codec], a clock
    that shows valid instants and a file system that accepts writes and
    reads, holding a store that can be written down; ingest any requests
    whose mappings are well formed, at least one.  A process that then
    starts and loads the snapshot holds the store that the run has
    built. *)
Corollary load_after_run (ops : list Ingest) (w : World) :
  ops ≠ [] ->
  stringify w = Codec.stringify ->
  parse w = Codec.parse ->
  writable w = true ->
  readable w = true ->
  (∀ k, Codec.valid_instant (clock w k) = true) ->
  forallb well_formed_request ops = true ->
  Codec.well_formed_store (analyticsData w) = true ->
  let w1 := ingested ops w in
  ∃ w2,
    initializeDataStore (set_analyticsData emptyStore w1) = (Return tt, w2)
    ∧ analyticsData w2 = analyticsData w1.
Proof.
  intros Hne Hstr Hparse Hw Hr Hclock Hreqs Hwf w1.
  destruct (well_formed_run ops w Hclock Hreqs Hwf) as [Hwf1 Hsame1]. fold w1 in Hwf1, Hsame1.
  assert (Hfile : file w1 = Some (Codec.stringify (analyticsData w1))).
  { subst w1. destruct ops as [|op ops _] using rev_ind; [contradiction|].
    unfold ingested. rewrite foldl_app. cbn. fold (ingested ops w).
    rewrite List.forallb_app in Hreqs. apply andb_true_iff in Hreqs.
    destruct (well_formed_run ops w Hclock (proj1 Hreqs) Hwf) as [_ (_ & _ & Hs & _ & _ & Hwr)].
    rewrite after_file by (rewrite Hwr; exact Hw). rewrite Hs, Hstr. reflexivity. }
  destruct (initializeDataStore_run (set_analyticsData emptyStore w1))
    as (w2 & line & Hrun & Hsnap & _).
  exists w2. split; [exact Hrun|].
  destruct Hsame1 as (_ & _ & _ & Hp & Hrd & _).
  unfold snapshot_on_disk in Hsnap. cbn in Hsnap.
  rewrite Hfile, Hrd, Hr, Hp, Hparse, (parse_stringify _ Hwf1) in Hsnap. exact Hsnap.
Qed.

(** ** Ids and the clock *)

Lemma below_size n : (n < 2 ^ N.of_nat (N.size_nat n))%N.
Proof.
  destruct n as [|p]; [reflexivity|]. cbn [N.size_nat].
  induction p as [p IH|p IH|]; cbn [Pos.size_nat];
    rewrite ?Nat2N.inj_succ, ?N.pow_succ_r'; lia.
Qed.

Lemma digit_value_of_digit (d : N) : (d < 36)%N -> digit_value (digit d) = Some d.
Proof.
  intros H.
  assert (Hd : ∃ k, (k < 36)%nat ∧ d = N.of_nat k) by (exists (N.to_nat d); lia).
  destruct Hd as (k & Hk & ->).
  do 36 (destruct k as [|k]; [reflexivity|]). lia.
Qed.

Lemma digits_acc fuel r n acc : digits fuel r n acc = digits fuel r n "" +:+ acc.
Proof.
  revert n acc. induction fuel as [|f IH]; intros n acc; [reflexivity|]. cbn.
  destruct (n / r =? 0)%N; [reflexivity|].
  rewrite (IH _ (String _ acc)), (IH _ (String _ "")), append_assoc. reflexivity.
Qed.

(** Reading back the digits that were written gives the number. *)
Lemma parse_digits_digits r fuel n acc :
  (2 <= r <= 36)%N -> (0 < n < 2 ^ N.of_nat fuel)%N ->
  parse_digits r (digits fuel r n acc) None = parse_digits r acc (Some n).
Proof.
  intros Hr. revert n acc. induction fuel as [|f IH]; intros n acc Hn; [cbn in Hn; lia|].
  assert (Hr0 : r ≠ 0%N) by lia.
  assert (Hmod : (n mod r < r)%N) by (apply N.mod_lt; lia).
  assert (Hstep : ∀ a, parse_digits r (String (digit (n mod r)) acc) a
                       = parse_digits r acc (Some (r * default 0%N a + n mod r)%N)).
  { intros a. cbn [parse_digits]. rewrite digit_value_of_digit by lia.
    destruct (N.ltb_spec (n mod r) r); [reflexivity|lia]. }
  cbn [digits]. cbv zeta. destruct (N.eqb_spec (n / r) 0) as [Hz|Hz].
  - rewrite Hstep. cbn [default]. f_equal. f_equal.
    pose proof (N.div_mod n r Hr0) as E. rewrite Hz in E. lia.
  - rewrite IH.
    + rewrite Hstep. cbn [default]. f_equal. f_equal.
      unfold id. pose proof (N.div_mod n r Hr0) as E. lia.
    + rewrite Nat2N.inj_succ, N.pow_succ_r' in Hn. split; [apply N.neq_0_lt_0; exact Hz|].
      apply N.Div0.div_lt_upper_bound. destruct Hn as [_ Hn]. nia.
Qed.

Lemma digits_length r k :
  (2 <= r)%N ->
  ∀ fuel n acc,
    (r ^ N.of_nat k <= n < r ^ N.of_nat (S k))%N -> (k < fuel)%nat ->
    String.length (digits fuel r n acc) = (S k + String.length acc)%nat.
Proof.
  intros Hr. induction k as [|k IH]; intros fuel n acc Hn Hf.
  - destruct fuel as [|f]; [lia|]. cbn [digits]. cbv zeta.
    assert (n / r = 0)%N as -> by (apply N.div_small; cbn in Hn; lia).
    reflexivity.
  - destruct fuel as [|f]; [lia|]. cbn [digits]. cbv zeta.
    rewrite !Nat2N.inj_succ, !N.pow_succ_r' in Hn.
    rewrite Nat2N.inj_succ, N.pow_succ_r' in IH.
    assert (Hq : (r ^ N.of_nat k <= n / r < r * r ^ N.of_nat k)%N).
    { split.
      - apply N.div_le_lower_bound; lia.
      - apply N.Div0.div_lt_upper_bound. lia. }
    assert (Hpos : (0 < r ^ N.of_nat k)%N) by (apply N.neq_0_lt_0, N.pow_nonzero; lia).
    destruct (N.eqb_spec (n / r) 0) as [Hz|Hz]; [lia|].
    rewrite IH by (try lia; exact Hq). cbn. lia.
Qed.


Lemma parse_digits_Number_toString r p tail :
  (2 <= r <= 36)%N ->
  parse_digits r (Number_toString r (Zpos p) +:+ tail) None
  = parse_digits r tail (Some (Npos p)).
Proof.
  intros Hr. cbn [Number_toString]. rewrite <- digits_acc.
  apply parse_digits_digits; [exact Hr|]. split; [lia|apply below_size].
Qed.

Lemma Number_toString_inj r a b :
  (2 <= r <= 36)%N -> 0 < a -> 0 < b ->
  Number_toString r a = Number_toString r b -> a = b.
Proof.
  intros Hr Ha Hb E. destruct a as [|p|p]; try lia. destruct b as [|q|q]; try lia.
  pose proof (parse_digits_Number_toString r p "" Hr) as Hp.
  pose proof (parse_digits_Number_toString r q "" Hr) as Hq.
  rewrite !append_nil_r in Hp, Hq. rewrite E, Hq in Hp. cbn in Hp. congruence.
Qed.

Lemma Number_toString_eight t :
  eight_digits t -> String.length (Number_toString 36 t) = 8%nat.
Proof.
  unfold eight_digits. intros Ht. destruct t as [|p|p]; try lia.
  cbn [Number_toString].
  rewrite (digits_length 36 7); [reflexivity|lia| |].
  - change (N.of_nat 7) with 7%N. change (N.of_nat 8) with 8%N. lia.
  - pose proof (below_size (Npos p)) as Hs.
    destruct (Nat.lt_ge_cases 7 (N.size_nat (Npos p))) as [H|H]; [exact H|].
    exfalso.
    assert (2 ^ N.of_nat (N.size_nat (Npos p)) <= 2 ^ 7)%N
      by (apply N.pow_le_mono_r; lia).
    change (2 ^ 7)%N with 128%N in *. lia.
Qed.

Lemma append_inj_length s1 s2 t1 t2 :
  String.length s1 = String.length s2 -> s1 +:+ t1 = s2 +:+ t2 -> s1 = s2.
Proof.
  revert s2. induction s1 as [|c s1 IH]; intros [|c2 s2] Hl E; try discriminate; [reflexivity|].
  rewrite !append_cons in E. injection E as -> E. f_equal. apply IH; [|exact E].
  cbn in Hl. lia.
Qed.

Lemma ids_differ a b r1 r2 :
  eight_digits a -> eight_digits b -> a ≠ b ->
  Number_toString 36 a +:+ r1 ≠ Number_toString 36 b +:+ r2.
Proof.
  intros Ha Hb Hne E. apply Hne.
  apply (Number_toString_inj 36); [lia|unfold eight_digits in *; lia..|].
  eapply append_inj_length; [|exact E]. rewrite !Number_toString_eight; auto.
Qed.

(** X1. Two ids that [generateId] makes from different clock readings
    are different, whatever [Math.random] returns, as long as both
    readings have eight digits in base 36 (June 1972 to May 2059). *)
Theorem generateId_distinct_readings (w1 w2 : World) :
  eight_digits (clock w1 (ticks w1)) ->
  eight_digits (clock w2 (ticks w2)) ->
  clock w1 (ticks w1) ≠ clock w2 (ticks w2) ->
  ∃ id1 id2 w1' w2',
    generateId w1 = (Return id1, w1')
    ∧ generateId w2 = (Return id2, w2')
    ∧ id1 ≠ id2.
Proof.
  intros H1 H2 Hne. do 4 eexists.
  split; [apply generateId_run|]. split; [apply generateId_run|].
  apply ids_differ; assumption.
Qed.

Lemma made_before_weaken w n m ids :
  (n <= m)%nat -> made_before w n ids -> made_before w m ids.
Proof.
  intros Hnm H. eapply Forall_impl; [exact H|]. cbn.
  intros id (k & tail & Hk & ->). exists k, tail. split; [lia|reflexivity].
Qed.

Lemma made_before_clock w w' n ids :
  clock w' = clock w -> made_before w n ids -> made_before w' n ids.
Proof. unfold made_before. intros ->. auto. Qed.

Lemma next_id_new w ids :
  (∀ k, eight_digits (clock w k)) ->
  (∀ k, (k < ticks w)%nat -> clock w k < clock w (ticks w)) ->
  made_before w (ticks w) ids ->
  next_id w ∉ ids.
Proof.
  intros Hrange Hlater Hmade Hin.
  unfold made_before in Hmade. rewrite Forall_forall in Hmade.
  destruct (Hmade _ Hin) as (k & tail & Hk & E).
  unfold next_id in E. revert E. apply ids_differ; [apply Hrange..|].
  specialize (Hlater k Hk). lia.
Qed.

Lemma made_before_snoc w w' ids :
  clock w' = clock w -> (ticks w < ticks w')%nat ->
  made_before w (ticks w) ids ->
  made_before w' (ticks w') (ids ++ [next_id w]).
Proof.
  intros Hc Ht H. apply Forall_app. split.
  - apply (made_before_clock w); [exact Hc|]. eapply made_before_weaken; [|exact H]. lia.
  - constructor; [|constructor]. exists (ticks w), (entropy w (draws w)).
    split; [exact Ht|]. rewrite Hc. reflexivity.
Qed.

Lemma ticking_step op w :
  (∀ k, eight_digits (clock w k)) ->
  (∀ k, (k < ticks w)%nat -> clock w k < clock w (ticks w)) ->
  let pv_ids w := map PageView.id (pageViews (analyticsData w)) in
  let ev_ids w := map Event.id (events (analyticsData w)) in
  NoDup (pv_ids w) ∧ made_before w (ticks w) (pv_ids w)
  ∧ NoDup (ev_ids w) ∧ made_before w (ticks w) (ev_ids w) ->
  let w' := after op w in
  NoDup (pv_ids w') ∧ made_before w' (ticks w') (pv_ids w')
  ∧ NoDup (ev_ids w') ∧ made_before w' (ticks w') (ev_ids w').
Proof.
  intros Hrange Hlater pv_ids ev_ids (Hpn & Hpm & Hen & Hem) w'.
  subst pv_ids ev_ids w'. cbv beta in *. destruct op as [d|d|d].
  - destruct (after_trackPageView d w) as (pv & Hs & Hid & _ & Ht & (Hc & _)).
    rewrite Hs. cbn. rewrite map_app. cbn. rewrite Hid.
    split; [apply NoDup_snoc; [exact Hpn|apply next_id_new; assumption]|].
    split; [apply made_before_snoc; [exact Hc|lia|exact Hpm]|].
    split; [exact Hen|].
    apply (made_before_clock w); [exact Hc|]. eapply made_before_weaken; [|exact Hem]. lia.
  - destruct (after_trackEvent d w) as (ev & Hs & Hid & _ & Ht & (Hc & _)).
    rewrite Hs. cbn. rewrite map_app. cbn. rewrite Hid.
    split; [exact Hpn|].
    split; [apply (made_before_clock w); [exact Hc|]; eapply made_before_weaken; [|exact Hpm]; lia|].
    split; [apply NoDup_snoc; [exact Hen|apply next_id_new; assumption]|].
    apply made_before_snoc; [exact Hc|lia|exact Hem].
  - destruct (after_registerUser d w) as (Hp & He & Ht & (Hc & _)).
    rewrite Hp, He.
    split; [exact Hpn|].
    split; [apply (made_before_clock w); [exact Hc|]; eapply made_before_weaken; [|exact Hpm]; lia|].
    split; [exact Hen|].
    apply (made_before_clock w); [exact Hc|]; eapply made_before_weaken; [|exact Hem]; lia.
Qed.

(** X2. From a store without page views and events, a run of ingest
    operations each of which begins at a clock reading later than every
    reading before it gives the page views pairwise distinct ids and the
    events pairwise distinct ids, whatever [Math.random] returns, as long
    as the clock readings have eight digits in base 36. *)
Theorem later_starts_unique_ids (ops : list Ingest) (w : World) :
  pageViews (analyticsData w) = [] ->
  events (analyticsData w) = [] ->
  (∀ k, eight_digits (clock w k)) ->
  starts_later ops w ->
  NoDup (map PageView.id (pageViews (analyticsData (ingested ops w))))
  ∧ NoDup (map Event.id (events (analyticsData (ingested ops w)))).
Proof.
  intros Hpv Hev Hrange Hlater.
  assert (Hinv : NoDup (map PageView.id (pageViews (analyticsData w)))
                 ∧ made_before w (ticks w) (map PageView.id (pageViews (analyticsData w)))
                 ∧ NoDup (map Event.id (events (analyticsData w)))
                 ∧ made_before w (ticks w) (map Event.id (events (analyticsData w)))).
  { rewrite Hpv, Hev. cbn. repeat split; constructor. }
  clear Hpv Hev. revert w Hrange Hlater Hinv.
  induction ops as [|op ops IH]; intros w Hrange Hlater Hinv.
  - cbn. tauto.
  - destruct Hlater as [Hnow Hrest]. cbn. apply IH.
    + intros k. destruct (after_same_surroundings op w) as (-> & _). apply Hrange.
    + exact Hrest.
    + apply (ticking_step op w Hrange Hnow Hinv).
Qed.

(** ** Requests *)

Lemma handleRequest_logs req w :
  handleRequest req w =
  (if String.eqb (method req) "OPTIONS" then
    mret (mkResponse 200 None Nothing)
  else if String.eqb (pathname req) "/" && String.eqb (method req) "GET" then
    stats ← getStatistics (hours_of (query_hours req));
    mret (mkResponse 200 (Some "text/html") (Dashboard stats))
  else if String.eqb (pathname req) "/stats" && String.eqb (method req) "GET" then
    stats ← getStatistics (hours_of (query_hours req));
    mret (mkResponse 200 (Some "application/json") (StatsJSON stats))
  else if String.eqb (pathname req) "/api/track/pageview"
          && String.eqb (method req) "POST" then
    respond (data ← parse_body req; trackPageView data) PageViewTracked
  else if String.eqb (pathname req) "/api/track/event"
          && String.eqb (method req) "POST" then
    respond (data ← parse_body req; trackEvent data) EventTracked
  else if String.eqb (pathname req) "/api/users"
          && String.eqb (method req) "POST" then
    respond (data ← parse_body req; registerUser data) UserRegistered
  else if startsWith (pathname req) "/api/users/"
          && endsWith (pathname req) "/journey"
          && String.eqb (method req) "GET" then
    let userId := default "" (split "/" (pathname req) !! 3%nat) in
    journey ← getUserJourney userId;
    mret (mkResponse 200 (Some "application/json") (JourneyJSON journey))
  else if String.eqb (pathname req) "/api/data" && String.eqb (method req) "GET" then
    s ← get_analyticsData;
    mret (mkResponse 200 (Some "application/json") (DataJSON s))
  else if String.eqb (pathname req) "/api/clear" && String.eqb (method req) "POST" then
    put_analyticsData emptyStore;;
    saveDataToFile;;
    mret (mkResponse 200 (Some "application/json") Cleared)
  else
    mret (mkResponse 404 (Some "application/json") NotFound))
  (set_console (console w ++ [method req +:+ " " +:+ pathname req]) w).
Proof. reflexivity. Qed.

Lemma ingest_route {A} (f : Value -> M A) (wrap : A -> Payload) req w :
  respond (data ← parse_body req; f data) wrap w =
  match body req with
  | inl e => (Return (mkResponse 400 (Some "application/json") (Failure (message e))), w)
  | inr v =>
      match f v w with
      | (Return a, w') => (Return (mkResponse 201 (Some "application/json") (wrap a)), w')
      | (Throw e, w') =>
          (Return (mkResponse 400 (Some "application/json") (Failure (message e))), w')
      end
  end.
Proof.
  unfold respond, try_catch, parse_body, mbind, M_bind, mret, M_ret, throw.
  destruct (body req) as [e|v]; [reflexivity|].
  destruct (f v w) as [[a|e] w']; reflexivity.
Qed.

Lemma trackPageView_null w :
  ∃ e w', trackPageView null w = (Throw e, w')
          ∧ analyticsData w' = analyticsData w ∧ file w' = file w
          ∧ same_surroundings w w'.
Proof. do 2 eexists. split; [reflexivity|]. cbn. repeat split. Qed.

Lemma trackEvent_null w :
  ∃ e w', trackEvent null w = (Throw e, w')
          ∧ analyticsData w' = analyticsData w ∧ file w' = file w
          ∧ same_surroundings w w'.
Proof. do 2 eexists. split; [reflexivity|]. cbn. repeat split. Qed.

Lemma registerUser_null w :
  ∃ e w', registerUser null w = (Throw e, w')
          ∧ analyticsData w' = analyticsData w ∧ file w' = file w
          ∧ same_surroundings w w'.
Proof.
  run. destruct (users (analyticsData w)); cbn;
    do 2 eexists; (split; [reflexivity|]); repeat split.
Qed.

Lemma ingest_Return op w : ingest op w = (Return tt, after op w).
Proof.
  unfold after. destruct op as [d|d|d]; unfold ingest, mbind, M_bind, mret, M_ret.
  - destruct (trackPageView_run d w) as (pv & w' & -> & _). reflexivity.
  - destruct (trackEvent_run d w) as (ev & w' & -> & _). reflexivity.
  - destruct (registerUser_run d w) as (u & w' & -> & _). reflexivity.
Qed.

(** What an ingest route does with a request, by the shape of the body. *)
Lemma ingest_route_run path req w :
  method req = "POST" ->
  pathname req = path ->
  In path ingest_paths ->
  match body req with
  | inr (object d) =>
      ∃ op payload,
        ingest_of path d = Some op
        ∧ handleRequest req w =
            (Return (mkResponse 201 (Some "application/json") payload),
             after op (logged req w))
  | _ =>
      ∃ error w',
        handleRequest req w =
          (Return (mkResponse 400 (Some "application/json") (Failure error)), w')
        ∧ analyticsData w' = analyticsData w ∧ file w' = file w
        ∧ same_surroundings w w'
  end.
Proof.
  intros Hm Hp Hin. rewrite handleRequest_logs. fold (logged req w).
  rewrite Hm, Hp. cbn in Hin.
  destruct Hin as [<-|[<-|[<-|[]]]]; cbn -[respond trackPageView trackEvent registerUser];
    rewrite ingest_route; destruct (body req) as [e|[|d]].
  - do 2 eexists. split; [reflexivity|]. repeat split.
  - destruct (trackPageView_null (logged req w)) as (e & w' & -> & Hs & Hf & Hsame).
    do 2 eexists. split; [reflexivity|]. split; [exact Hs|]. split; [exact Hf|]. exact Hsame.
  - destruct (trackPageView_run d (logged req w)) as (pv & w' & Hrun & _).
    exists (TrackPageView d), (PageViewTracked pv). split; [reflexivity|].
    unfold after, ingest, mbind, M_bind. rewrite Hrun. reflexivity.
  - do 2 eexists. split; [reflexivity|]. repeat split.
  - destruct (trackEvent_null (logged req w)) as (e & w' & -> & Hs & Hf & Hsame).
    do 2 eexists. split; [reflexivity|]. split; [exact Hs|]. split; [exact Hf|]. exact Hsame.
  - destruct (trackEvent_run d (logged req w)) as (ev & w' & Hrun & _).
    exists (TrackEvent d), (EventTracked ev). split; [reflexivity|].
    unfold after, ingest, mbind, M_bind. rewrite Hrun. reflexivity.
  - do 2 eexists. split; [reflexivity|]. repeat split.
  - destruct (registerUser_null (logged req w)) as (e & w' & -> & Hs & Hf & Hsame).
    do 2 eexists. split; [reflexivity|]. split; [exact Hs|]. split; [exact Hf|]. exact Hsame.
  - destruct (registerUser_run d (logged req w)) as (u & w' & Hrun & _).
    exists (RegisterUser d), (UserRegistered u). split; [reflexivity|].
    unfold after, ingest, mbind, M_bind. rewrite Hrun. reflexivity.
Qed.

Lemma saveDataToFile_console w :
  ∃ w', saveDataToFile w = (Return tt, w')
        ∧ analyticsData w' = analyticsData w
        ∧ same_surroundings w w'
        ∧ file w' = (if writable w then Some (stringify w (analyticsData w)) else file w).
Proof.
  destruct (saveDataToFile_run w) as (w' & H1 & H2 & _ & _ & H3 & H4). eauto.
Qed.

(** X3. A request that no route takes is answered 404 and changes
    nothing but the console, and no other request is answered 404. *)
Theorem not_found_iff_unrouted (req : Request) (w : World) :
  ∃ resp w',
    handleRequest req w = (Return resp, w')
    ∧ (status resp = 404%nat ↔ routed req = false)
    ∧ (routed req = false ->
       resp = mkResponse 404 (Some "application/json") NotFound ∧ w' = logged req w).
Proof.
  rewrite handleRequest_logs. fold (logged req w). unfold routed.
  destruct req as [m p q b]. cbn [method pathname query_hours body].
  destruct (String.eqb m "OPTIONS") eqn:Hopt.
  { do 2 eexists. split; [reflexivity|]. cbn. split; [split|]; discriminate. }
  destruct (String.eqb m "GET") eqn:Hget; destruct (String.eqb m "POST") eqn:Hpost;
    rewrite ?andb_true_r, ?andb_false_r, ?orb_false_r; cbn [orb andb].
  - apply String.eqb_eq in Hget, Hpost. congruence.
  - destruct (String.eqb p "/") eqn:H1.
    { unfold mbind, M_bind. rewrite getStatistics_run. do 2 eexists. split; [reflexivity|]. cbn. split; [split|]; discriminate. }
    destruct (String.eqb p "/stats") eqn:H2.
    { unfold mbind, M_bind. rewrite getStatistics_run. do 2 eexists. split; [reflexivity|]. cbn. split; [split|]; discriminate. }
    destruct (startsWith p "/api/users/" && endsWith p "/journey") eqn:H3.
    { do 2 eexists. split; [reflexivity|]. cbn. rewrite orb_true_r. split; [split|]; discriminate. }
    destruct (String.eqb p "/api/data") eqn:H4.
    { do 2 eexists. split; [reflexivity|]. cbn. split; [split|]; discriminate. }
    do 2 eexists. split; [reflexivity|]. cbn. split; [split|]; auto.
  - destruct (String.eqb p "/api/track/pageview") eqn:H1.
    { rewrite ingest_route. cbn [body]. destruct b as [e|v]; [|lazymatch goal with |- context [trackPageView v ?x] => destruct (trackPageView v x) as [[a|e] w'] end];
        do 2 eexists; (split; [reflexivity|]); cbn; (split; [split|]); discriminate. }
    destruct (String.eqb p "/api/track/event") eqn:H2.
    { rewrite ingest_route. cbn [body]. destruct b as [e|v]; [|lazymatch goal with |- context [trackEvent v ?x] => destruct (trackEvent v x) as [[a|e] w'] end];
        do 2 eexists; (split; [reflexivity|]); cbn; (split; [split|]); discriminate. }
    destruct (String.eqb p "/api/users") eqn:H3.
    { rewrite ingest_route. cbn [body]. destruct b as [e|v]; [|lazymatch goal with |- context [registerUser v ?x] => destruct (registerUser v x) as [[a|e] w'] end];
        do 2 eexists; (split; [reflexivity|]); cbn; (split; [split|]); discriminate. }
    destruct (String.eqb p "/api/clear") eqn:H4.
    { unfold mbind, M_bind, put_analyticsData, mret, M_ret.
      destruct (saveDataToFile_console (set_analyticsData emptyStore (logged (mkRequest m p q b) w)))
        as (w' & -> & _).
      do 2 eexists. split; [reflexivity|]. cbn. split; [split|]; discriminate. }
    do 2 eexists. split; [reflexivity|]. cbn. split; [split|]; auto.
  - do 2 eexists. split; [reflexivity|]. cbn. split; [split|]; auto.
Qed.

Lemma logged_same req w : same_surroundings w (logged req w).
Proof. repeat split. Qed.

(** The three kinds of effect that a request has: none on the store and
    the file, one ingest operation, or the clearing. *)
Lemma handleRequest_effect req w :
  ∃ resp w',
    handleRequest req w = (Return resp, w')
    ∧ same_surroundings w w'
    ∧ ((analyticsData w' = analyticsData w ∧ file w' = file w
        ∧ In (status resp) [200; 400; 404]%nat)
       ∨ (method req = "POST" ∧ status resp = 201%nat
          ∧ ∃ d op, body req = inr (object d)
                    ∧ ingest_of (pathname req) d = Some op
                    ∧ w' = after op (logged req w))
       ∨ (method req = "POST" ∧ pathname req = "/api/clear" ∧ status resp = 200%nat
          ∧ analyticsData w' = emptyStore
          ∧ file w' = (if writable w then Some (stringify w emptyStore) else file w))).
Proof.
  assert (Hingest : ∀ path, method req = "POST" -> pathname req = path -> In path ingest_paths ->
            ∃ resp w',
              handleRequest req w = (Return resp, w')
              ∧ same_surroundings w w'
              ∧ ((analyticsData w' = analyticsData w ∧ file w' = file w
                  ∧ In (status resp) [200; 400; 404]%nat)
                 ∨ (method req = "POST" ∧ status resp = 201%nat
                    ∧ ∃ d op, body req = inr (object d)
                              ∧ ingest_of (pathname req) d = Some op
                              ∧ w' = after op (logged req w))
                 ∨ (method req = "POST" ∧ pathname req = "/api/clear" ∧ status resp = 200%nat
                    ∧ analyticsData w' = emptyStore
                    ∧ file w' = (if writable w then Some (stringify w emptyStore) else file w)))).
  { intros path Hm Hp Hin. pose proof (ingest_route_run path req w Hm Hp Hin) as H.
    destruct (body req) as [e|[|d]] eqn:Hb.
    - destruct H as (error & w' & -> & Hs & Hf & Hsame).
      do 2 eexists. split; [reflexivity|]. split; [exact Hsame|]. left. cbn. auto 10.
    - destruct H as (error & w' & -> & Hs & Hf & Hsame).
      do 2 eexists. split; [reflexivity|]. split; [exact Hsame|]. left. cbn. auto 10.
    - destruct H as (op & payload & Hop & ->).
      do 2 eexists. split; [reflexivity|].
      split; [eapply same_surroundings_trans; [apply (logged_same req)|apply after_same_surroundings]|].
      right. left. split; [exact Hm|]. split; [reflexivity|].
      exists d, op. rewrite Hp. auto. }
  destruct (String.eqb (method req) "POST") eqn:Hpost.
  - apply String.eqb_eq in Hpost.
    destruct (String.eqb (pathname req) "/api/track/pageview") eqn:H1.
    { apply String.eqb_eq in H1. apply (Hingest _ Hpost H1). cbn. auto. }
    destruct (String.eqb (pathname req) "/api/track/event") eqn:H2.
    { apply String.eqb_eq in H2. apply (Hingest _ Hpost H2). cbn. auto. }
    destruct (String.eqb (pathname req) "/api/users") eqn:H3.
    { apply String.eqb_eq in H3. apply (Hingest _ Hpost H3). cbn. auto. }
    clear Hingest. rewrite handleRequest_logs. fold (logged req w).
    rewrite Hpost, H1, H2, H3. cbn [String.eqb Ascii.eqb Bool.eqb andb orb].
    rewrite !andb_false_r.
    rewrite ?andb_true_r.
    destruct (String.eqb (pathname req) "/api/clear") eqn:H4.
    + unfold mbind, M_bind, put_analyticsData, mret, M_ret.
      destruct (saveDataToFile_console (set_analyticsData emptyStore (logged req w)))
        as (w' & -> & Hs & Hsame & Hf).
      do 2 eexists. split; [reflexivity|]. split; [exact Hsame|].
      right. right. apply String.eqb_eq in H4. cbn in Hs, Hf. auto.
    + do 2 eexists. split; [reflexivity|]. split; [apply logged_same|]. left. cbn. auto 10.
  - clear Hingest. rewrite handleRequest_logs. fold (logged req w).
    rewrite Hpost, !andb_false_r.
    destruct (String.eqb (method req) "OPTIONS").
    { do 2 eexists. split; [reflexivity|]. split; [apply logged_same|]. left. cbn. auto 10. }
    destruct (String.eqb (pathname req) "/" && String.eqb (method req) "GET").
    { unfold mbind, M_bind. rewrite getStatistics_run.
      do 2 eexists. split; [reflexivity|]. split; [repeat split|]. left. cbn. auto 10. }
    destruct (String.eqb (pathname req) "/stats" && String.eqb (method req) "GET").
    { unfold mbind, M_bind. rewrite getStatistics_run.
      do 2 eexists. split; [reflexivity|]. split; [repeat split|]. left. cbn. auto 10. }
    destruct (startsWith (pathname req) "/api/users/" && endsWith (pathname req) "/journey"
              && String.eqb (method req) "GET").
    { cbv zeta. unfold mbind, M_bind. rewrite getUserJourney_run. do 2 eexists. split; [reflexivity|]. split; [repeat split|]. left. cbn. auto 10. }
    destruct (String.eqb (pathname req) "/api/data" && String.eqb (method req) "GET").
    { do 2 eexists. split; [reflexivity|]. split; [repeat split|]. left. cbn. auto 10. }
    do 2 eexists. split; [reflexivity|]. split; [apply logged_same|]. left. cbn. auto 10.
Qed.


(** X5. Only a [POST] changes the store or the snapshot file: a request
    with any other method leaves both as they are. *)
Theorem only_POST_writes (req : Request) (w : World) :
  method req ≠ "POST" ->
  ∃ resp w',
    handleRequest req w = (Return resp, w')
    ∧ analyticsData w' = analyticsData w
    ∧ file w' = file w.
Proof.
  intros Hm.
  destruct (handleRequest_effect req w) as (resp & w' & Hrun & _ & Heff).
  exists resp, w'. split; [exact Hrun|].
  destruct Heff as [(Hs & Hf & _)|[(Hp & _)|(Hp & _)]]; [auto|contradiction..].
Qed.

(** X6. A [POST] to an ingest route whose body does not parse, or parses
    to [null], is answered 400 with the message of the error, and neither
    the store nor the snapshot file changes. *)
Theorem bad_body_is_refused (req : Request) (w : World) :
  method req = "POST" ->
  In (pathname req) ingest_paths ->
  body req = inr null ∨ (∃ e, body req = inl e) ->
  ∃ error w',
    handleRequest req w =
      (Return (mkResponse 400 (Some "application/json") (Failure error)), w')
    ∧ analyticsData w' = analyticsData w
    ∧ file w' = file w.
Proof.
  intros Hm Hin Hbody.
  pose proof (ingest_route_run (pathname req) req w Hm eq_refl Hin) as H.
  destruct Hbody as [Hb|(e & Hb)]; rewrite Hb in H;
    destruct H as (error & w' & Hrun & Hs & Hf & _); eauto.
Qed.

(** X7. A [POST] to an ingest route whose body parses to anything but
    [null] is accepted with status 201, whichever fields of the data
    model it carries: none is required.  The world it leaves is the one
    that the ingest operation of the route leaves, with one record more
    in the store or, for a user that is registered already, as many as
    before. *)
Theorem any_object_is_accepted (req : Request) (d : Data.t) (w : World) :
  method req = "POST" ->
  In (pathname req) ingest_paths ->
  body req = inr (object d) ->
  let records s := (length (pageViews s) + length (events s) + length (users s))%nat in
  ∃ op payload,
    ingest_of (pathname req) d = Some op
    ∧ handleRequest req w =
        (Return (mkResponse 201 (Some "application/json") payload), after op (logged req w))
    ∧ (records (analyticsData w) <= records (analyticsData (after op (logged req w)))
       <= S (records (analyticsData w)))%nat.
Proof.
  intros Hm Hin Hbody records.
  pose proof (ingest_route_run (pathname req) req w Hm eq_refl Hin) as H.
  rewrite Hbody in H. destruct H as (op & payload & Hop & Hrun).
  exists op, payload. split; [exact Hop|]. split; [exact Hrun|].
  change (analyticsData w) with (analyticsData (logged req w)).
  generalize (logged req w). intros w0. subst records. cbv beta. destruct op as [d0|d0|d0].
  - destruct (after_trackPageView d0 w0) as (pv & -> & _). cbn. rewrite length_app. cbn. lia.
  - destruct (after_trackEvent d0 w0) as (ev & -> & _). cbn. rewrite length_app. cbn. lia.
  - destruct (after_registerUser d0 w0) as (-> & -> & _).
    destruct (registerUser_run d0 w0) as (u & w' & Hr & Hus & _).
    unfold after, ingest, mbind, M_bind. rewrite Hr. cbn. rewrite Hus.
    destruct (findUser _ _ _) as [[i old]|]; [rewrite length_insert|rewrite length_app; cbn]; lia.
Qed.

(** X8. The journey route reads the user from the fourth segment of the
    path and from nothing else: every [GET] whose path begins with
    [/api/users/] and ends with [/journey] is answered with the journey of
    the user named between the third slash and the next one (or the end
    of the path), whatever lies between that and the end. *)
Theorem journey_route_takes_fourth_segment (u rest : string) (req : Request) (w : World) :
  method req = "GET" ->
  pathname req = "/api/users/" +:+ u +:+ rest ->
  has_char "/" u = false ->
  rest = "" ∨ (∃ r, rest = String "/" r) ->
  endsWith (pathname req) "/journey" = true ->
  ∃ journey,
    getUserJourney u (logged req w) = (Return journey, logged req w)
    ∧ handleRequest req w =
        (Return (mkResponse 200 (Some "application/json") (JourneyJSON journey)),
         logged req w).
Proof.
  intros Hm Hp Hu Hrest Hends.
  rewrite handleRequest_logs. fold (logged req w). generalize (logged req w). intros w0.
  destruct req as [m p q b]. cbn [method pathname query_hours body] in *. subst m.
  assert (Hsplit : split "/" p !! 3%nat = Some u).
  { subst p. destruct Hrest as [->|(r & ->)].
    - rewrite append_nil_r.
      change ("/api/users/" +:+ u)
        with ("" +:+ String "/" ("api" +:+ String "/" ("users" +:+ String "/" u))).
      rewrite !split_segment by reflexivity. rewrite split_last by exact Hu. reflexivity.
    - change ("/api/users/" +:+ u +:+ String "/" r)
        with ("" +:+ String "/" ("api" +:+ String "/" ("users" +:+ String "/" (u +:+ String "/" r)))).
      rewrite !split_segment by (reflexivity || exact Hu). reflexivity. }
  assert (Hshape : (∃ tail, p = String "/" (String "a" tail))
                   ∧ startsWith p "/api/users/" = true).
  { subst p. split; [|apply startsWith_append].
    eexists. rewrite !append_cons, append_nil. reflexivity. }
  destruct Hshape as ((tail & Hshape) & Hstarts).
  assert (E1 : String.eqb p "/" = false) by (rewrite Hshape; reflexivity).
  assert (E2 : String.eqb p "/stats" = false) by (rewrite Hshape; reflexivity).
  rewrite E1, E2, Hstarts, Hends, Hsplit.
  replace (String.eqb "GET" "POST") with false by reflexivity.
  rewrite !andb_false_r. cbn.
  unfold mbind, M_bind. rewrite getUserJourney_run. eexists. split; reflexivity.
Qed.

(** X9. [POST /api/clear] empties the store in memory in every case,
    but the snapshot file only when the write goes through: with a file
    system that refuses the write, the file keeps the records that memory
    has lost.  The statistics of the cleared store are all zero and every
    journey is empty. *)
Theorem clear_empties_memory (req : Request) (w : World) :
  method req = "POST" ->
  pathname req = "/api/clear" ->
  ∃ w',
    handleRequest req w = (Return (mkResponse 200 (Some "application/json") Cleared), w')
    ∧ analyticsData w' = emptyStore
    ∧ file w' = (if writable w then Some (stringify w emptyStore) else file w)
    ∧ (∀ h, ∃ stats w'',
          getStatistics h w' = (Return stats, w'')
          ∧ Stats.totalPageViews stats = 0%nat ∧ Stats.totalEvents stats = 0%nat
          ∧ Stats.uniqueUsers stats = 0%nat ∧ Stats.totalUsers stats = 0%nat
          ∧ Stats.topPages stats = ∅ ∧ Stats.topEvents stats = ∅)
    ∧ (∀ u, getUserJourney u w' = (Return (Journey.mk u [] [] 0), w')).
Proof.
  intros Hm Hp. rewrite handleRequest_logs. fold (logged req w). rewrite Hm, Hp. cbn.
  unfold mbind, M_bind, put_analyticsData, mret, M_ret.
  destruct (saveDataToFile_console (set_analyticsData emptyStore (logged req w)))
    as (w' & -> & Hs & Hsame & Hf).
  cbn in Hs, Hf. exists w'. split; [reflexivity|]. split; [exact Hs|]. split; [exact Hf|]. split.
  - intros h. do 2 eexists. split; [apply getStatistics_run|]. rewrite Hs. cbn.
    repeat split; reflexivity.
  - intros u. rewrite getUserJourney_run. rewrite Hs. reflexivity.
Qed.

Lemma ingest_of_well_formed path d op req :
  ingest_of path d = Some op -> body req = inr (object d) ->
  well_formed_body req = true -> well_formed_request op = true.
Proof.
  unfold ingest_of, well_formed_body. intros Hop -> Hwf.
  apply andb_true_iff in Hwf. destruct Hwf as [Hp Hmeta].
  destruct (String.eqb path "/api/track/pageview"); [injection Hop as <-; reflexivity|].
  destruct (String.eqb path "/api/track/event"); [injection Hop as <-; exact Hp|].
  destruct (String.eqb path "/api/users"); [injection Hop as <-; exact Hmeta|discriminate].
Qed.

(** A request keeps the file the mirror of a store that can be written
    down. *)
Lemma serve_keeps_mirror req w :
  writable w = true ->
  (∀ k, Codec.valid_instant (clock w k) = true) ->
  well_formed_body req = true ->
  Codec.well_formed_store (analyticsData w) = true ->
  mirrored w ->
  Codec.well_formed_store (analyticsData (serve req w)) = true
  ∧ mirrored (serve req w)
  ∧ same_surroundings w (serve req w).
Proof.
  intros Hw Hclock Hbody Hwf Hmir. unfold serve.
  destruct (handleRequest_effect req w) as (resp & w' & -> & Hsame & Heff). cbn [snd].
  split; [|split; [|exact Hsame]];
    destruct Heff as [(Hs & Hf & _)|[(_ & _ & d & op & Hb & Hop & ->)|(_ & _ & _ & Hs & Hf)]].
  - rewrite Hs. exact Hwf.
  - apply well_formed_step; [exact Hclock| |exact Hwf].
    eapply ingest_of_well_formed; eassumption.
  - rewrite Hs. reflexivity.
  - unfold mirrored in *. rewrite Hs, Hf. destruct Hsame as (_ & _ & -> & _). exact Hmir.
  - left. rewrite after_file by exact Hw. f_equal.
    destruct Hsame as (_ & _ & -> & _). reflexivity.
  - left. rewrite Hf, Hs, Hw. destruct Hsame as (_ & _ & -> & _). reflexivity.
Qed.

(** X10. What the server holds in memory survives a restart.  In a world
    with the codec [Codec], a clock that shows valid instants and a file
    system that accepts writes and reads, start from a store that the
    snapshot file mirrors and serve any requests whose mappings can be
    written down: a process that then starts and loads the snapshot holds
    the store that the requests have built. *)
Theorem restart_keeps_the_store (reqs : list Request) (w : World) :
  stringify w = Codec.stringify ->
  parse w = Codec.parse ->
  writable w = true ->
  readable w = true ->
  (∀ k, Codec.valid_instant (clock w k) = true) ->
  forallb well_formed_body reqs = true ->
  Codec.well_formed_store (analyticsData w) = true ->
  mirrored w ->
  let w1 := served reqs w in
  ∃ w2,
    initializeDataStore (set_analyticsData emptyStore w1) = (Return tt, w2)
    ∧ analyticsData w2 = analyticsData w1.
Proof.
  intros Hstr Hparse Hw Hr Hclock Hreqs Hwf Hmir w1.
  assert (Hkept : Codec.well_formed_store (analyticsData w1) = true ∧ mirrored w1
                  ∧ same_surroundings w w1).
  { subst w1. revert w Hstr Hparse Hw Hr Hclock Hwf Hmir.
    induction reqs as [|req reqs IH]; intros w Hstr Hparse Hw Hr Hclock Hwf Hmir.
    - split; [exact Hwf|]. split; [exact Hmir|apply same_surroundings_refl].
    - cbn in Hreqs. apply andb_true_iff in Hreqs. destruct Hreqs as [Hreq Hreqs].
      destruct (serve_keeps_mirror req w Hw Hclock Hreq Hwf Hmir) as (Hwf1 & Hmir1 & Hsame1).
      pose proof Hsame1 as (Hc & _ & Hs & Hp & Hrd & Hwr).
      destruct (IH Hreqs (serve req w)) as (Hwf2 & Hmir2 & Hsame2); try congruence.
      cbn. split; [exact Hwf2|]. split; [exact Hmir2|].
      eapply same_surroundings_trans; eassumption. }
  destruct Hkept as (Hwf1 & Hmir1 & (_ & _ & Hs & Hp & Hrd & _)).
  destruct (initializeDataStore_run (set_analyticsData emptyStore w1))
    as (w2 & line & Hrun & Hsnap & _).
  exists w2. split; [exact Hrun|].
  unfold snapshot_on_disk in Hsnap. cbn in Hsnap.
  destruct Hmir1 as [Hfile|[Hfile Hempty]].
  - rewrite Hfile, Hrd, Hr, Hp, Hparse, Hs, Hstr, (parse_stringify _ Hwf1) in Hsnap. exact Hsnap.
  - rewrite Hfile in Hsnap. rewrite Hsnap, Hempty. reflexivity.
Qed.

(** ** The window of a request *)





(** ** Tallies and windows *)

Lemma inherited_not_empty key s : inherited key = Some s -> s ≠ "".
Proof.
  unfold inherited. destruct (String.eqb key proto_key); [intros [= <-]; discriminate|].
  destruct (bool_decide _); [intros [= <-]; discriminate|].
  destruct (String.eqb key "constructor"); [intros [= <-]|]; discriminate.
Qed.

Lemma ones_snoc n : ones n +:+ "1" = ones (S n).
Proof. induction n as [|n IH]; [reflexivity|]. cbn [ones]. rewrite append_cons, IH. reflexivity. Qed.

Lemma append_not_empty s t : s ≠ "" -> s +:+ t ≠ "".
Proof. destruct s; [contradiction|]. rewrite append_cons. discriminate. Qed.

Lemma occurrences_snoc key keys x :
  occurrences key (keys ++ [x]) =
  (occurrences key keys + (if String.eqb key x then 1 else 0))%nat.
Proof.
  unfold occurrences. rewrite List.filter_app, length_app. cbn.
  destruct (String.eqb key x); reflexivity.
Qed.

(** What a table holds for a key after the keys of a list were tallied
    into the empty table. *)
Lemma tally_fold {A} (f : A -> string) (l : list A) (key : string) :
  foldl (fun obj x => tally (f x) obj) ∅ l !! key = tallied key (occurrences key (map f l)).
Proof.
  induction l as [|x l IH] using rev_ind; [reflexivity|].
  rewrite foldl_app, map_app. cbn [foldl map]. rewrite occurrences_snoc.
  set (m := foldl (fun obj x => tally (f x) obj) ∅ l) in *.
  set (n := occurrences key (map f l)) in *.
  unfold tally. destruct (String.eqb_spec key (f x)) as [<-|Hne].
  - destruct (String.eqb key proto_key) eqn:Hproto.
    + rewrite IH. unfold tallied. rewrite Hproto. destruct n; reflexivity.
    + rewrite lookup_insert_eq, IH. replace (n + 1)%nat with (S n) by lia.
      unfold tallied. rewrite Hproto. destruct n as [|n'].
      * destruct (inherited key); reflexivity.
      * destruct (inherited key) as [s|] eqn:Hinh.
        -- pose proof (inherited_not_empty _ _ Hinh) as Hs.
           destruct (String.eqb_spec (s +:+ ones (S n')) "") as [E|_].
           { exfalso. revert E. apply append_not_empty, Hs. }
           rewrite append_assoc, ones_snoc. reflexivity.
        -- do 2 f_equal. lia.
  - rewrite Nat.add_0_r.
    destruct (String.eqb (f x) proto_key); [exact IH|].
    rewrite lookup_insert_ne by congruence. exact IH.
Qed.

(** X12. The tables [topPages] and [topEvents] hold, for a page or an
    event name that [Object.prototype] does not know, the number of page
    views or events in the window that carry it, and no entry when there
    is none. *)
Theorem tallies_count (h : Z) (w : World) (key : string) :
  inherited key = None ->
  let startTime := startTime_of (clock w (ticks w)) h in
  let pages := map PageView.page (filteredPageViews_of startTime (analyticsData w)) in
  let names := map Event.eventName (filteredEvents_of startTime (analyticsData w)) in
  ∃ stats w',
    getStatistics h w = (Return stats, w')
    ∧ Stats.topPages stats !! key =
        (if occurrences key pages is O then None
         else Some (Count (Z.of_nat (occurrences key pages))))
    ∧ Stats.topEvents stats !! key =
        (if occurrences key names is O then None
         else Some (Count (Z.of_nat (occurrences key names)))).
Proof.
  intros Hinh startTime pages names.
  assert (Hproto : String.eqb key proto_key = false).
  { unfold inherited in Hinh. destruct (String.eqb key proto_key); [discriminate|reflexivity]. }
  do 2 eexists. split; [apply getStatistics_run|]. cbn [Stats.topPages Stats.topEvents].
  rewrite !tally_fold. fold startTime pages names. unfold tallied. rewrite Hproto, Hinh.
  split; reflexivity.
Qed.

(** X13. A page or an event name that is the name of a property of
    [Object.prototype] does not get a count.  For ["__proto__"] the table
    never has an entry; for the others ([toString], [constructor],
    [valueOf] and so on) the entry is a text: what [Object.prototype]
    holds under that name, followed by one ["1"] for every page view or
    event in the window. *)
Theorem tallies_of_inherited_names (h : Z) (w : World) (key s : string) :
  inherited key = Some s ->
  let startTime := startTime_of (clock w (ticks w)) h in
  let pages := map PageView.page (filteredPageViews_of startTime (analyticsData w)) in
  let names := map Event.eventName (filteredEvents_of startTime (analyticsData w)) in
  ∃ stats w',
    getStatistics h w = (Return stats, w')
    ∧ Stats.topPages stats !! key =
        (if occurrences key pages is O then None
         else if String.eqb key proto_key then None
         else Some (Text (s +:+ ones (occurrences key pages))))
    ∧ Stats.topEvents stats !! key =
        (if occurrences key names is O then None
         else if String.eqb key proto_key then None
         else Some (Text (s +:+ ones (occurrences key names)))).
Proof.
  intros Hinh startTime pages names.
  do 2 eexists. split; [apply getStatistics_run|]. cbn [Stats.topPages Stats.topEvents].
  rewrite !tally_fold. fold startTime pages names. unfold tallied. rewrite Hinh.
  split; reflexivity.
Qed.

Lemma filter_length_mono {A} (f g : A -> bool) (l : list A) :
  (∀ x, f x = true -> g x = true) ->
  (length (List.filter f l) <= length (List.filter g l))%nat.
Proof.
  intros Hfg. induction l as [|x l IH]; [reflexivity|]. cbn.
  destruct (f x) eqn:Hf; [rewrite (Hfg x Hf); cbn; lia|].
  destruct (g x); cbn; lia.
Qed.

(** X14. A wider window counts no fewer records: for two positive
    windows, the start of the wider one an instant that a [Date] can
    hold, asked at the same valid moment of the same store, the page
    views and events that the shorter window counts are counted by the
    longer one too. *)
Theorem wider_window_counts_more (h1 h2 : Z) (w : World) :
  0 < h1 <= h2 ->
  Z.abs (window_start (clock w (ticks w)) h2) <= maxTime ->
  Z.abs (clock w (ticks w)) <= maxTime ->
  ∃ stats1 stats2 w1 w2,
    getStatistics h1 w = (Return stats1, w1)
    ∧ getStatistics h2 w = (Return stats2, w2)
    ∧ (Stats.totalPageViews stats1 <= Stats.totalPageViews stats2)%nat
    ∧ (Stats.totalEvents stats1 <= Stats.totalEvents stats2)%nat.
Proof.
  intros Hh Hrange Hnow.
  assert (Hrange1 : Z.abs (window_start (clock w (ticks w)) h1) <= maxTime).
  { unfold window_start, maxTime in *. lia. }
  destruct (getStatistics_window h1 w ltac:(lia) Hrange1) as (stats1 & Hrun1 & Hpv1 & Hev1).
  destruct (getStatistics_window h2 w ltac:(lia) Hrange) as (stats2 & Hrun2 & Hpv2 & Hev2).
  exists stats1, stats2. do 2 eexists. split; [exact Hrun1|]. split; [exact Hrun2|].
  rewrite Hpv1, Hpv2, Hev1, Hev2.
  split; apply filter_length_mono; intros x Hx; apply Z.leb_le; apply Z.leb_le in Hx;
    unfold window_start in *; lia.
Qed.

Lemma distinct_constant (a : string) (l : list string) :
  l ≠ [] -> Forall (fun x => x = a) l -> distinct l = 1%nat.
Proof.
  unfold distinct. induction l as [|x l IH]; intros Hne Hall; [contradiction|].
  apply Forall_cons in Hall as [Hx Hall']. subst x. cbn [remove_dups].
  destruct l as [|y l]; [reflexivity|].
  destruct (decide_rel elem_of a (y :: l)) as [_|Hnot].
  - apply IH; [discriminate|exact Hall'].
  - exfalso. apply Hnot. apply Forall_cons in Hall' as [Hy _]. subst y. left.
Qed.

Lemma anonymous_run ops w :
  forallb is_anonymous_view ops = true ->
  Forall (fun pv => PageView.userId pv = "anonymous") (pageViews (analyticsData w)) ->
  Forall (fun pv => PageView.userId pv = "anonymous")
    (pageViews (analyticsData (ingested ops w))).
Proof.
  revert w. induction ops as [|op ops IH]; intros w Hops Hall; [exact Hall|].
  cbn in Hops. apply andb_true_iff in Hops. destruct Hops as [Hop Hops].
  cbn. apply IH; [exact Hops|].
  destruct op as [d|d|d]; try discriminate. cbn in Hop. apply String.eqb_eq in Hop.
  destruct (trackPageView_run d w) as (pv & w' & Hrun & Hs & _ & _ & _ & Hu & _).
  unfold after, ingest, mbind, M_bind. rewrite Hrun. cbn. rewrite Hs. cbn.
  apply Forall_app. split; [exact Hall|]. constructor; [|constructor].
  rewrite Hu. unfold or_string in *. destruct (Data.userId d) as [u|]; [|reflexivity].
  destruct (String.eqb u "") eqn:E; [reflexivity|]. subst u. discriminate.
Qed.

Lemma all_page_views ops :
  forallb is_anonymous_view ops = true -> List.filter is_TrackPageView ops = ops.
Proof.
  induction ops as [|op ops IH]; [reflexivity|]. cbn. intros H.
  apply andb_true_iff in H. destruct H as [Hop Hops].
  destruct op; try discriminate. cbn. rewrite IH; auto.
Qed.

(** X15. Page views that carry no [userId] are all counted as the one
    user ["anonymous"]: after any number of them, at least one, tracked
    into a store without page views, the statistics of a window that
    reaches back behind the run report as many page views as were tracked
    and one unique user. *)
Theorem anonymous_views_are_one_user (ops : list Ingest) (h : Z) (w : World) :
  let w1 := ingested ops w in
  let now := clock w (ticks w1) in
  pageViews (analyticsData w) = [] ->
  ops ≠ [] ->
  forallb is_anonymous_view ops = true ->
  0 < h ->
  Z.abs (window_start now h) <= maxTime ->
  (∀ k, (ticks w <= k < ticks w1)%nat -> window_start now h <= clock w k) ->
  ∃ stats w2,
    getStatistics h w1 = (Return stats, w2)
    ∧ Stats.totalPageViews stats = length ops
    ∧ Stats.uniqueUsers stats = 1%nat.
Proof.
  intros w1 now Hnopv Hne Hanon Hpos Hrange Hrecent.
  destruct (ingested_appends ops w)
    as ((Hclock & _) & Hticks & pvs & evs & Hpv & _ & Hlp & _ & Hfp & _).
  fold w1 in Hclock, Hticks, Hpv, Hfp.
  rewrite Hnopv in Hpv. cbn in Hpv. rewrite (all_page_views ops Hanon) in Hlp.
  assert (Hnow : clock w1 (ticks w1) = now) by (unfold now; congruence).
  assert (Hstart : startTime_of (clock w1 (ticks w1)) h = Some (window_start now h)).
  { rewrite Hnow. apply startTime_of_valid; [lia|exact Hrange]. }
  assert (Hwindow : filteredPageViews_of (Some (window_start now h)) (analyticsData w1) = pvs).
  { rewrite (filteredPageViews_from _ _ _ eq_refl), Hpv. apply filter_all.
    eapply Forall_impl; [exact Hfp|]. cbn. intros pv (k & Hk & ->).
    apply Z.leb_le, Hrecent, Hk. }
  pose proof (anonymous_run ops w Hanon) as Hall. fold w1 in Hall.
  rewrite Hnopv, Hpv in Hall. specialize (Hall (List.Forall_nil _)).
  do 2 eexists. split; [apply getStatistics_run|].
  cbn [Stats.totalPageViews Stats.uniqueUsers]. rewrite Hstart, Hwindow.
  split; [exact Hlp|].
  unfold keys_length. rewrite set_true_fold, union_empty_l_L, size_list_to_set_distinct.
  assert (Hkeys : List.filter is_table_key (map PageView.userId pvs) = map PageView.userId pvs).
  { apply filter_all. apply Forall_forall. intros x Hx.
    apply list_elem_of_In, in_map_iff in Hx. destruct Hx as (pv & <- & Hin).
    rewrite Forall_forall in Hall. rewrite (Hall pv); [reflexivity|].
    apply list_elem_of_In, Hin. }
  rewrite Hkeys. apply (distinct_constant "anonymous").
  - destruct pvs; [|discriminate]. destruct ops; [contradiction|discriminate].
  - apply Forall_forall. intros x Hx.
    apply list_elem_of_In, in_map_iff in Hx. destruct Hx as (pv & <- & Hin).
    rewrite Forall_forall in Hall. apply Hall, list_elem_of_In, Hin.
Qed.

(** ** Registrations, events and refused writes *)

Lemma findUser_undefined i us : findUser None i us = None.
Proof.
  revert i. induction us as [|x us IH]; intros i; [reflexivity|].
  rewrite findUser_cons. rewrite bool_decide_eq_false_2 by discriminate. apply IH.
Qed.

(** X16. A registration without [userId] never updates: whatever users
    are stored and whatever else the body carries, it appends a user
    under a generated id, so that the same body sent twice makes two
    users.  [registeredAt] and [lastSeen] are two readings of the clock,
    made in this order after the one that the id is made from. *)
Theorem registerUser_without_id_appends (d : Data.t) (w : World) :
  Data.userId d = None ->
  ∃ user w',
    registerUser (object d) w = (Return user, w')
    ∧ users (analyticsData w') = users (analyticsData w) ++ [user]
    ∧ User.userId user = next_id w
    ∧ User.registeredAt user = clock w (S (ticks w))
    ∧ User.lastSeen user = clock w (S (S (ticks w)))
    ∧ ticks w' = S (S (S (ticks w))).
Proof.
  intros Hu. run.
  destruct (users (analyticsData w)) as [|x us] eqn:Hus; cbn;
    rewrite ?Hu; cbn; rewrite ?findUser_undefined; cbn;
    destruct (writable w) eqn:E; cbn; rewrite ?E, ?Hus;
    do 2 eexists; (split; [reflexivity|]); cbn; repeat split.
Qed.


(** X18. [trackEvent] accepts every object.  The event it returns is the
    one it appends to the events; page views, users and sessions stay as
    they are.  A field that is missing or empty gets its default:
    ["custom_event"], ["general"], ["anonymous"], the empty mapping, and
    for the session an id generated after the event's own id and
    timestamp, from the next clock reading and the next random draw. *)
Theorem trackEvent_defaults (d : Data.t) (w : World) :
  ∃ ev w',
    trackEvent (object d) w = (Return ev, w')
    ∧ analyticsData w' =
        mkStore (pageViews (analyticsData w)) (events (analyticsData w) ++ [ev])
          (users (analyticsData w)) (sessions (analyticsData w))
    ∧ Event.id ev = next_id w
    ∧ Event.timestamp ev = clock w (S (ticks w))
    ∧ (or_string (Data.eventName d) "" = "" -> Event.eventName ev = "custom_event")
    ∧ (or_string (Data.category d) "" = "" -> Event.category ev = "general")
    ∧ (or_string (Data.userId d) "" = "" -> Event.userId ev = "anonymous")
    ∧ (Data.properties d = None -> Event.properties ev = [])
    ∧ (or_string (Data.sessionId d) "" = "" ->
       Event.sessionId ev =
         Number_toString 36 (clock w (S (S (ticks w)))) +:+ entropy w (S (draws w)))
    ∧ (∀ s, Data.sessionId d = Some s -> s ≠ "" -> Event.sessionId ev = s).
Proof.
  assert (Hdefault : ∀ (a : option string) (b : string),
             or_string a "" = "" -> or_string a b = b).
  { intros [s|] b; cbn; [|reflexivity]. destruct (String.eqb s "") eqn:E; [reflexivity|].
    intros ->. discriminate. }
  run. destruct (Data.sessionId d) as [s|] eqn:Hs; [destruct (String.eqb_spec s "")|]; cbn;
    destruct (writable w) eqn:E; cbn; rewrite ?E;
    do 2 eexists; (split; [reflexivity|]); cbn;
    (split; [reflexivity|]); (split; [reflexivity|]); (split; [reflexivity|]);
    (split; [apply Hdefault|]); (split; [apply Hdefault|]); (split; [apply Hdefault|]);
    (split; [intros ->; reflexivity|]).
  all: split; [try reflexivity|].
  all: try (intros s0 [= <-] Hne; congruence).
  all: try (intros s0 [=]).
  all: try (intros H; exfalso; destruct (String.eqb_spec s ""); congruence).
Qed.

(** X19. A write that the file system refuses does not fail the
    operation: it returns as it does otherwise and the store in memory
    becomes what it becomes when the write goes through.  The snapshot
    file stays as it was, so the record is in memory only, and the one
    trace is a line on the console. *)
Theorem refused_write_is_only_logged (op : Ingest) (w : World) :
  writable w = false ->
  ingest op w = (Return tt, after op w)
  ∧ analyticsData (after op w) = analyticsData (after op (accepting_writes w))
  ∧ file (after op w) = file w
  ∧ ∃ reason, console (after op w) = console w ++ ["Error saving data: " +:+ reason].
Proof.
  intros Hw. split; [apply ingest_Return|].
  destruct op as [d|d|d]; unfold after, ingest, accepting_writes.
  - run. destruct (Data.sessionId d) as [s|]; [destruct (String.eqb s "")|]; cbn;
      rewrite Hw; cbn; (split; [reflexivity|]); (split; [reflexivity|]); eexists; reflexivity.
  - run. destruct (Data.sessionId d) as [s|]; [destruct (String.eqb s "")|]; cbn;
      rewrite Hw; cbn; (split; [reflexivity|]); (split; [reflexivity|]); eexists; reflexivity.
  - run. destruct (users (analyticsData w)) as [|x us]; cbn;
      (destruct (Data.userId d) as [u|]; [destruct (String.eqb u "")|]); cbn;
      repeat match goal with
             | |- context [match ?o with Some _ => _ | None => _ end] => destruct o as [[? ?]|]
             end; cbn; rewrite Hw; cbn;
      (split; [reflexivity|]); (split; [reflexivity|]); eexists; reflexivity.
Qed.

(** ** Journeys and runs *)

Lemma sort_insert_snoc {A} (key : A -> Z) (y x : A) (l : list A) :
  key y <= key x ->
  sort_insert (fun a b => key a - key b) y (l ++ [x])
  = sort_insert (fun a b => key a - key b) y l ++ [x].
Proof.
  intros Hle. induction l as [|z l IH]; cbn.
  - destruct (Z.leb_spec (key y - key x) 0); [reflexivity|lia].
  - destruct (key y - key z <=? 0); [reflexivity|]. rewrite IH. reflexivity.
Qed.

(** Sorting a list whose last element is not before any other leaves
    that element last. *)
Lemma Array_sort_snoc {A} (key : A -> Z) (l : list A) (x : A) :
  Forall (fun y => key y <= key x) l ->
  Array_sort (fun a b => key a - key b) (l ++ [x])
  = Array_sort (fun a b => key a - key b) l ++ [x].
Proof.
  unfold Array_sort. induction 1 as [|y l Hy _ IH]; [reflexivity|].
  cbn. rewrite IH. apply sort_insert_snoc, Hy.
Qed.

Lemma filter_snoc {A} (f : A -> bool) (l : list A) (x : A) :
  List.filter f (l ++ [x]) = List.filter f l ++ (if f x then [x] else []).
Proof. rewrite List.filter_app. cbn. destruct (f x); reflexivity. Qed.

(** X20. A page view tracked for a user is the last page view of that
    user's journey, when no stored page view carries a later timestamp:
    the journey after the call is the journey before it with the new
    record at the end of the page views, the same events and one more
    action.  The journey of every other user is what it was. *)
Theorem tracked_view_ends_the_journey (d : Data.t) (u : string) (w : World) :
  u ≠ "" ->
  Data.userId d = Some u ->
  Forall (fun pv => PageView.timestamp pv <= clock w (S (ticks w)))
    (pageViews (analyticsData w)) ->
  ∃ pv w1 j0 j1,
    getUserJourney u w = (Return j0, w)
    ∧ trackPageView (object d) w = (Return pv, w1)
    ∧ getUserJourney u w1 = (Return j1, w1)
    ∧ Journey.pageViews j1 = Journey.pageViews j0 ++ [pv]
    ∧ Journey.events j1 = Journey.events j0
    ∧ Journey.totalActions j1 = S (Journey.totalActions j0)
    ∧ ∀ other j, other ≠ u ->
        getUserJourney other w = (Return j, w) ->
        getUserJourney other w1 = (Return j, w1).
Proof.
  intros Hne Hu Hold.
  destruct (trackPageView_run d w) as (pv & w1 & Hrun & Hs & _ & Hts & _ & Hid & _).
  rewrite Hu in Hid. cbn in Hid. apply String.eqb_neq in Hne. rewrite Hne in Hid.
  exists pv, w1. do 2 eexists.
  split; [apply getUserJourney_run|]. split; [exact Hrun|].
  split; [apply getUserJourney_run|]. rewrite Hs.
  cbn [Journey.pageViews Journey.events Journey.totalActions pageViews events].
  assert (Hmine : List.filter (fun pv0 => String.eqb (PageView.userId pv0) u)
                    (pageViews (analyticsData w) ++ [pv])
                  = List.filter (fun pv0 => String.eqb (PageView.userId pv0) u)
                      (pageViews (analyticsData w)) ++ [pv]).
  { rewrite filter_snoc, Hid, String.eqb_refl. reflexivity. }
  rewrite Hmine.
  rewrite (Array_sort_snoc PageView.timestamp).
  - split; [reflexivity|]. split; [reflexivity|]. split.
    + rewrite length_app. cbn. lia.
    + intros other j Hother. rewrite !getUserJourney_run, Hs. cbn [pageViews events].
      rewrite filter_snoc, Hid.
      destruct (String.eqb_spec u other) as [E|_]; [congruence|].
      rewrite app_nil_r. intros [= <-]. reflexivity.
  - apply Forall_forall. intros x Hx. apply list_elem_of_In, filter_In in Hx.
    destruct Hx as [Hx _]. rewrite Forall_forall in Hold. rewrite Hts.
    apply Hold, list_elem_of_In, Hx.
Qed.

Lemma prefix_snoc {A} (l k : list A) (x : A) : l `prefix_of` k -> l `prefix_of` (k ++ [x]).
Proof. intros (t & ->). exists (t ++ [x]). rewrite app_assoc. reflexivity. Qed.

Lemma ingest_step_keeps op w :
  let s := analyticsData w in
  let s' := analyticsData (after op w) in
  pageViews s `prefix_of` pageViews s'
  ∧ events s `prefix_of` events s'
  ∧ sessions s' = sessions s
  ∧ (length (users s) <= length (users s'))%nat
  ∧ ∀ u, u ≠ "" -> u ∈ map User.userId (users s) -> u ∈ map User.userId (users s').
Proof.
  intros s s'. subst s s'. destruct op as [d|d|d].
  - destruct (after_trackPageView d w) as (pv & -> & _). cbn.
    split; [apply prefix_snoc; reflexivity|]. repeat split; auto.
  - destruct (after_trackEvent d w) as (ev & -> & _). cbn.
    split; [reflexivity|]. split; [apply prefix_snoc; reflexivity|]. repeat split; auto.
  - destruct (registerUser_run d w)
      as (user & w' & Hrun & Husers & Hpvs & Hevs & Hss & Hid & _).
    unfold after, ingest, mbind, M_bind. rewrite Hrun. cbn. rewrite Hpvs, Hevs, Hss, Husers.
    split; [reflexivity|]. split; [reflexivity|]. split; [reflexivity|].
    destruct (findUser (Data.userId d) 0 (users (analyticsData w))) as [[i old]|] eqn:Hfind.
    + destruct (findUser_Some _ _ _ _ _ Hfind) as (k & -> & Hk & Hold & _). cbn.
      split; [rewrite length_insert; lia|]. intros u Hne Hin.
      destruct (Data.userId d) as [u0|] eqn:Hu; [|discriminate]. injection Hold as Hold.
      rewrite list_fmap_insert.
      destruct (decide (u = u0)) as [->|Hdiff].
      * apply String.eqb_neq in Hne. rewrite Hne in Hid. rewrite Hid.
        apply list_elem_of_lookup. exists k. apply list_lookup_insert_eq.
        rewrite length_map. eapply lookup_lt_Some, Hk.
      * apply list_elem_of_lookup in Hin. destruct Hin as (j & Hj).
        apply list_elem_of_lookup. exists j. rewrite list_lookup_insert_ne; [exact Hj|].
        intros <-. rewrite list_lookup_fmap, Hk in Hj. cbn in Hj. congruence.
    + split; [rewrite length_app; lia|]. intros u Hne Hin.
      rewrite map_app. apply elem_of_app. left. exact Hin.
Qed.

(** X21. The ingest operations only add.  After any run of them the page
    views and the events that were stored before are still there, first
    and in their order, with the new ones behind them; no user is gone,
    every non-empty [userId] that was registered is still registered; and
    [sessions] is what it was, since nothing ever writes to it. *)
Theorem ingest_only_adds (ops : list Ingest) (w : World) :
  let s := analyticsData w in
  let s' := analyticsData (ingested ops w) in
  pageViews s `prefix_of` pageViews s'
  ∧ events s `prefix_of` events s'
  ∧ sessions s' = sessions s
  ∧ (length (users s) <= length (users s'))%nat
  ∧ ∀ u, u ≠ "" -> u ∈ map User.userId (users s) -> u ∈ map User.userId (users s').
Proof.
  cbv zeta. revert w. induction ops as [|op ops IH]; intros w.
  - cbn. repeat split; auto.
  - cbn. destruct (ingest_step_keeps op w) as (Hp1 & He1 & Hs1 & Hl1 & Hu1).
    destruct (IH (after op w)) as (Hp2 & He2 & Hs2 & Hl2 & Hu2).
    fold (ingested ops (after op w)) in *.
    split; [etrans; eassumption|]. split; [etrans; eassumption|].
    split; [congruence|]. split; [lia|]. auto.
Qed.

(** ** The pages of the dashboard *)

Lemma get_replace key value obj k :
  Ordered.get key obj ≠ None ->
  Ordered.get k (Ordered.replace key value obj)
  = if String.eqb key k then Some value else Ordered.get k obj.
Proof.
  induction obj as [|[k0 v0] obj IH]; cbn; intros H; [contradiction|].
  destruct (String.eqb_spec k0 key) as [->|Hne]; cbn.
  - destruct (String.eqb key k); reflexivity.
  - destruct (String.eqb_spec k0 k) as [->|Hk].
    + destruct (String.eqb_spec key k); [congruence|reflexivity].
    + apply IH, H.
Qed.

Lemma get_create key value obj k :
  Ordered.get key obj = None ->
  Ordered.get k (Ordered.create key value obj)
  = if String.eqb key k then Some value else Ordered.get k obj.
Proof.
  induction obj as [|[k0 v0] obj IH]; cbn; intros H.
  - destruct (String.eqb key k); reflexivity.
  - destruct (String.eqb_spec k0 key) as [->|Hne]; [discriminate|].
    assert (Hfront : Ordered.get k ((key, value) :: (k0, v0) :: obj)
                     = if String.eqb key k then Some value
                       else if String.eqb k0 k then Some v0 else Ordered.get k obj)
      by reflexivity.
    assert (Hback : Ordered.get k ((k0, v0) :: Ordered.create key value obj)
                    = if String.eqb key k then Some value
                      else if String.eqb k0 k then Some v0 else Ordered.get k obj).
    { cbn. rewrite (IH H). destruct (String.eqb_spec k0 k) as [->|]; [|reflexivity].
      destruct (String.eqb_spec key k); [congruence|reflexivity]. }
    destruct (Ordered.array_index key) as [n|]; [destruct (Ordered.array_index k0) as [m|]|];
      [destruct (n <? m)%N| |]; assumption.
Qed.

Lemma get_set key value obj k :
  Ordered.get k (Ordered.set key value obj)
  = if String.eqb key k then Some value else Ordered.get k obj.
Proof.
  unfold Ordered.set. destruct (Ordered.get key obj) eqn:E.
  - apply get_replace. congruence.
  - apply get_create, E.
Qed.

(** The table with order holds what the table without order holds. *)
Lemma ordered_tally_agrees key obj (m : gmap string Tally) :
  (∀ k, Ordered.get k obj = m !! k) ->
  ∀ k, Ordered.get k (Ordered.tally key obj) = tally key m !! k.
Proof.
  intros H k. unfold Ordered.tally, tally. rewrite (H key).
  destruct (String.eqb key proto_key); [apply H|].
  rewrite get_set. destruct (String.eqb_spec key k) as [->|Hne].
  - rewrite lookup_insert_eq. reflexivity.
  - rewrite lookup_insert_ne by exact Hne. apply H.
Qed.

Lemma ordered_fold_agrees {A} (f : A -> string) (l : list A) (k : string) :
  Ordered.get k (foldl (fun obj x => Ordered.tally (f x) obj) [] l)
  = foldl (fun obj x => tally (f x) obj) ∅ l !! k.
Proof.
  revert k. induction l as [|x l IH] using rev_ind; intros k; [reflexivity|].
  rewrite !foldl_app. cbn [foldl]. apply ordered_tally_agrees, IH.
Qed.

Lemma get_keys key obj : Ordered.get key obj = None ↔ ¬ In key (map fst obj).
Proof.
  induction obj as [|[k0 v0] obj IH]; cbn; [tauto|].
  destruct (String.eqb_spec k0 key) as [->|Hne]; [split; [discriminate|tauto]|].
  rewrite IH. tauto.
Qed.

Lemma get_In key value obj : Ordered.get key obj = Some value -> In (key, value) obj.
Proof.
  induction obj as [|[k0 v0] obj IH]; cbn; [discriminate|].
  destruct (String.eqb_spec k0 key) as [->|Hne]; [intros [= ->]; auto|auto].
Qed.

Lemma keys_replace key value obj :
  map fst (Ordered.replace key value obj) = map fst obj.
Proof.
  induction obj as [|[k0 v0] obj IH]; [reflexivity|]. cbn.
  destruct (String.eqb k0 key); cbn; congruence.
Qed.

Lemma keys_create key value obj :
  Permutation (map fst (Ordered.create key value obj)) (key :: map fst obj).
Proof.
  induction obj as [|[k0 v0] obj IH]; [reflexivity|]. cbn.
  assert (Hback : Permutation (k0 :: map fst (Ordered.create key value obj))
                    (key :: k0 :: map fst obj)).
  { rewrite IH. apply perm_swap. }
  destruct (Ordered.array_index key) as [n|]; [destruct (Ordered.array_index k0) as [m|]|];
    [destruct (n <? m)%N| |]; cbn; solve [reflexivity | exact Hback].
Qed.

Lemma keys_tally_NoDup key obj :
  List.NoDup (map fst obj) -> List.NoDup (map fst (Ordered.tally key obj)).
Proof.
  intros Hnd. unfold Ordered.tally. destruct (String.eqb key proto_key); [exact Hnd|].
  unfold Ordered.set. destruct (Ordered.get key obj) eqn:E.
  - rewrite keys_replace. exact Hnd.
  - eapply Permutation_NoDup; [symmetry; apply keys_create|].
    constructor; [apply get_keys, E|exact Hnd].
Qed.

Lemma keys_fold_NoDup {A} (f : A -> string) (l : list A) :
  List.NoDup (map fst (foldl (fun obj x => Ordered.tally (f x) obj) [] l)).
Proof.
  induction l as [|x l IH] using rev_ind; [constructor|].
  rewrite foldl_app. cbn [foldl]. apply keys_tally_NoDup, IH.
Qed.

Lemma Ordered_getStatistics_run h w :
  let now := clock w (ticks w) in
  let s := analyticsData w in
  let startTime := startTime_of now h in
  Ordered.getStatistics h w =
  (Return
     (Ordered.mkStats (Number_toString 10 h +:+ " hours")
        (length (filteredPageViews_of startTime s))
        (length (filteredEvents_of startTime s))
        (keys_length (foldl (fun obj pv => set_true (PageView.userId pv) obj) ∅
                        (filteredPageViews_of startTime s)))
        (foldl (fun obj pv => Ordered.tally (PageView.page pv) obj) []
           (filteredPageViews_of startTime s))
        (foldl (fun obj ev => Ordered.tally (Event.eventName ev) obj) []
           (filteredEvents_of startTime s))
        (length (users s))),
   set_ticks (S (ticks w)) w).
Proof. reflexivity. Qed.

(** X22. The page that [GET /] sends is made from what [getStatistics]
    returns for the same query: the same label and totals, and two
    tables that hold, in the order of their properties, what [topPages]
    and [topEvents] hold, no name twice and under each name the entry of
    that name. *)
Theorem dashboard_shows_the_statistics (q : option string) (b : Error + Value) (w : World) :
  let req := mkRequest "GET" "/" q b in
  ∃ stats shown w',
    handleRequest req w = (Return (mkResponse 200 (Some "text/html") (Dashboard stats)), w')
    ∧ dashboard q (logged req w) = (Return (generateDashboard shown), w')
    ∧ Ordered.timeRange shown = Stats.timeRange stats
    ∧ Ordered.totalPageViews shown = Stats.totalPageViews stats
    ∧ Ordered.totalEvents shown = Stats.totalEvents stats
    ∧ Ordered.uniqueUsers shown = Stats.uniqueUsers stats
    ∧ Ordered.totalUsers shown = Stats.totalUsers stats
    ∧ List.NoDup (map fst (Ordered.topPages shown))
    ∧ List.NoDup (map fst (Ordered.topEvents shown))
    ∧ (∀ name, Ordered.get name (Ordered.topPages shown) = Stats.topPages stats !! name)
    ∧ (∀ name, Ordered.get name (Ordered.topEvents shown) = Stats.topEvents stats !! name).
Proof.
  intros req. do 3 eexists.
  split; [rewrite handleRequest_logs; cbn; unfold mbind, M_bind;
          rewrite getStatistics_run; reflexivity|].
  split; [unfold dashboard, mbind, M_bind; rewrite Ordered_getStatistics_run; reflexivity|].
  cbn. repeat split; try apply keys_fold_NoDup; intros name; apply ordered_fold_agrees.
Qed.

Lemma append_assoc' s t r : s +:+ t +:+ r = (s +:+ t) +:+ r.
Proof. symmetry. apply append_assoc. Qed.

Lemma rows_app html obj : foldl row html obj = html +:+ foldl row "" obj.
Proof.
  revert html. induction obj as [|p obj IH]; intros html; cbn [foldl].
  - rewrite append_nil_r. reflexivity.
  - rewrite IH, (IH (row "" p)). unfold row. rewrite append_assoc. reflexivity.
Qed.

Lemma rows_In name value obj :
  In (name, value) obj ->
  ∃ before after,
    foldl row "" obj =
      before +:+ ("                <tr><td>" +:+ name +:+ "</td><td>"
                  +:+ Tally_toString value +:+ "</td></tr>" +:+ nl) +:+ after.
Proof.
  induction obj as [|p obj IH]; [contradiction|]. intros [->|Hin]; cbn [foldl].
  - exists "", (foldl row "" obj). rewrite rows_app. reflexivity.
  - destruct (IH Hin) as (before & after & E).
    exists (row "" p +:+ before), after.
    rewrite rows_app, E, !append_assoc. reflexivity.
Qed.

(** The page is its head, the rows of the first table, what lies
    between, the rows of the second table and its foot. *)
Lemma generateDashboard_parts (stats : Ordered.Stats) :
  generateDashboard stats =
    page_head stats +:+ foldl row "" (Ordered.topPages stats) +:+ page_middle
    +:+ foldl row "" (Ordered.topEvents stats) +:+ page_foot.
Proof.
  unfold generateDashboard. cbv zeta.
  rewrite (rows_app (page_head stats)), (rows_app (_ +:+ page_middle)).
  rewrite !append_assoc. reflexivity.
Qed.

(** X23. [generateDashboard] writes the names of its tables into the page
    as they are, with no escaping: every entry of [topPages] and of
    [topEvents] is a row of the page that holds the name between
    [<td>] and [</td>], byte for byte, followed by the text of its
    tally. *)
Theorem generateDashboard_does_not_escape (stats : Ordered.Stats) (name : string) (value : Tally) :
  In (name, value) (Ordered.topPages stats) ∨ In (name, value) (Ordered.topEvents stats) ->
  ∃ before after,
    generateDashboard stats =
      before +:+ "                <tr><td>" +:+ name +:+ "</td><td>"
             +:+ Tally_toString value +:+ "</td></tr>" +:+ nl +:+ after.
Proof.
  rewrite generateDashboard_parts.
  intros [Hin|Hin]; destruct (rows_In _ _ _ Hin) as (before & after & ->).
  - exists (page_head stats +:+ before),
           (after +:+ page_middle +:+ foldl row "" (Ordered.topEvents stats) +:+ page_foot).
    rewrite !append_assoc. reflexivity.
  - exists (page_head stats +:+ foldl row "" (Ordered.topPages stats) +:+ page_middle +:+ before),
           (after +:+ page_foot).
    rewrite !append_assoc. reflexivity.
Qed.

Lemma occurrences_In key keys : occurrences key keys = 0%nat ↔ ¬ In key keys.
Proof.
  unfold occurrences. induction keys as [|k keys IH]; cbn; [tauto|].
  destruct (String.eqb_spec key k) as [->|Hne]; cbn.
  - split; [discriminate|]. intros H. exfalso. apply H. left. reflexivity.
  - rewrite IH. split; [intros H [E|Hin]; [congruence|tauto]|tauto].
Qed.

(** X24. A page name that is stored reaches the dashboard as it is
    stored.  For every page view in the window whose [page] is not
    ["__proto__"], the page that [GET /] sends has a row that holds that
    [page] between [<td>] and [</td>], byte for byte: a name that is
    markup is markup in the page. *)
Theorem page_names_reach_the_dashboard (q : option string) (w : World) (pv : PageView.t) :
  In pv (filteredPageViews_of (startTime_of (clock w (ticks w)) (hours_of q))
           (analyticsData w)) ->
  PageView.page pv ≠ proto_key ->
  ∃ html w' before shown after,
    dashboard q w = (Return html, w')
    ∧ html = before +:+ "                <tr><td>" +:+ PageView.page pv +:+ "</td><td>"
                    +:+ shown +:+ "</td></tr>" +:+ nl +:+ after.
Proof.
  intros Hin Hproto. unfold dashboard, mbind, M_bind, mret, M_ret.
  rewrite Ordered_getStatistics_run. cbv zeta.
  set (window := filteredPageViews_of _ _) in *.
  set (stats := Ordered.mkStats _ _ _ _ _ _ _).
  assert (Hget : ∃ value, Ordered.get (PageView.page pv) (Ordered.topPages stats) = Some value).
  { subst stats. cbn [Ordered.topPages]. rewrite ordered_fold_agrees, tally_fold.
    destruct (occurrences (PageView.page pv) (map PageView.page window)) as [|n] eqn:Hocc.
    - exfalso. apply occurrences_In in Hocc. apply Hocc. apply in_map, Hin.
    - unfold tallied. apply String.eqb_neq in Hproto. rewrite Hproto.
      destruct (inherited (PageView.page pv)); eauto. }
  destruct Hget as (value & Hget).
  apply get_In, rows_In in Hget. destruct Hget as (before & after & E).
  exists (generateDashboard stats). eexists.
  exists (page_head stats +:+ before), (Tally_toString value),
         (after +:+ page_middle +:+ foldl row "" (Ordered.topEvents stats) +:+ page_foot).
  split; [reflexivity|]. rewrite generateDashboard_parts, E, !append_assoc. reflexivity.
Qed.

Lemma create_ordinary key value obj :
  Ordered.array_index key = None -> Ordered.create key value obj = obj ++ [(key, value)].
Proof.
  intros H. induction obj as [|[k v] obj IH]; [reflexivity|]. cbn. rewrite H, IH. reflexivity.
Qed.

Lemma first_seen_In k keys : In k (first_seen keys) ↔ In k keys.
Proof.
  revert k. induction keys as [|k0 keys IH]; intros k; cbn; [tauto|].
  rewrite filter_In, IH. destruct (String.eqb_spec k k0) as [->|Hne]; cbn.
  - split; [auto|]. intros _. left. reflexivity.
  - split; [intros [E|[H _]]; [congruence|auto]|intros [E|H]; [congruence|auto]].
Qed.

Lemma first_seen_NoDup keys : List.NoDup (first_seen keys).
Proof.
  induction keys as [|k keys IH]; cbn; constructor.
  - rewrite filter_In. intros [_ H]. rewrite String.eqb_refl in H. discriminate.
  - apply List.NoDup_filter, IH.
Qed.

Lemma first_seen_snoc keys x :
  first_seen (keys ++ [x]) =
  if occurrences x keys is O then first_seen keys ++ [x] else first_seen keys.
Proof.
  induction keys as [|k keys IH]; [reflexivity|]. cbn [app first_seen]. rewrite IH.
  unfold occurrences. cbn [List.filter].
  destruct (String.eqb_spec x k) as [->|Hne]; cbn [length].
  - destruct (length (List.filter (String.eqb k) keys)); [|reflexivity].
    rewrite List.filter_app. cbn. rewrite String.eqb_refl. cbn. rewrite app_nil_r. reflexivity.
  - destruct (length (List.filter (String.eqb x) keys)); [|reflexivity].
    rewrite List.filter_app. cbn.
    destruct (String.eqb_spec x k); [contradiction|]. reflexivity.
Qed.

Lemma replace_map (g g' : string -> string * Tally) x v (keys : list string) :
  List.NoDup keys ->
  (∀ k, fst (g k) = k) ->
  g' x = (x, v) ->
  (∀ k, k ≠ x -> g' k = g k) ->
  In x keys ->
  Ordered.replace x v (map g keys) = map g' keys.
Proof.
  intros Hnd Hfst Hx Hother. induction Hnd as [|k keys Hk Hnd IH]; intros Hin; [contradiction|].
  cbn. destruct (g k) as [k1 v1] eqn:Hg. pose proof (Hfst k) as Hk1. rewrite Hg in Hk1.
  cbn in Hk1. subst k1.
  destruct (String.eqb_spec k x) as [->|Hne].
  - rewrite Hx. f_equal. apply map_ext_in. intros a Ha. symmetry. apply Hother.
    intros ->. contradiction.
  - rewrite Hother, Hg by exact Hne. f_equal. apply IH.
    destruct Hin as [E|Hin]; [contradiction|exact Hin].
Qed.

Lemma ordinary_name_spec key :
  ordinary_name key = true ->
  Ordered.array_index key = None ∧ inherited key = None ∧ String.eqb key proto_key = false.
Proof.
  unfold ordinary_name. destruct (Ordered.array_index key); [discriminate|].
  destruct (inherited key) eqn:Hinh; [discriminate|]. intros _. split; [reflexivity|].
  split; [reflexivity|]. unfold inherited in Hinh.
  destruct (String.eqb key proto_key); [discriminate|reflexivity].
Qed.

(** The table of ordinary names: one entry for each, in the order of
    their first occurrence, with the number of their occurrences. *)
Lemma ordered_fold_first_seen {A} (f : A -> string) (l : list A) :
  forallb ordinary_name (map f l) = true ->
  foldl (fun obj x => Ordered.tally (f x) obj) [] l
  = map (fun key => (key, Count (Z.of_nat (occurrences key (map f l)))))
      (first_seen (map f l)).
Proof.
  induction l as [|x l IH] using rev_ind; intros Hord; [reflexivity|].
  rewrite map_app, forallb_app in Hord. cbn in Hord.
  apply andb_true_iff in Hord. destruct Hord as [Hl Hx]. rewrite andb_true_r in Hx.
  destruct (ordinary_name_spec _ Hx) as (Hidx & Hinh & Hproto).
  rewrite foldl_app, map_app. cbn [foldl map].
  pose proof (ordered_fold_agrees f l (f x)) as Hget. rewrite tally_fold in Hget.
  rewrite (IH Hl) in Hget |- *. clear IH.
  rewrite first_seen_snoc. unfold Ordered.tally. rewrite Hproto, Hget. unfold Ordered.set.
  set (keys := map f l) in *.
  destruct (occurrences (f x) keys) as [|n] eqn:Hocc.
  - cbn [tallied]. rewrite Hinh.
    assert (Hnone : Ordered.get (f x)
              (map (fun key => (key, Count (Z.of_nat (occurrences key keys)))) (first_seen keys))
              = None).
    { apply get_keys. rewrite map_map. cbn. rewrite map_id, first_seen_In.
      apply occurrences_In, Hocc. }
    rewrite Hnone, create_ordinary by exact Hidx. rewrite map_app. cbn [map].
    rewrite occurrences_snoc, Hocc, String.eqb_refl. cbn. f_equal.
    apply map_ext_in. intros k Hk. rewrite occurrences_snoc.
    destruct (String.eqb_spec k (f x)) as [->|_]; [|rewrite Nat.add_0_r; reflexivity].
    exfalso. apply (proj1 (first_seen_In _ _)) in Hk. apply occurrences_In in Hocc. contradiction.
  - unfold tallied. rewrite Hproto, Hinh.
    assert (Hsome : Ordered.get (f x)
              (map (fun key => (key, Count (Z.of_nat (occurrences key keys)))) (first_seen keys))
              = Some (Count (Z.of_nat (S n)))).
    { assert (Hin : In (f x) (first_seen keys)).
      { apply first_seen_In. destruct (in_dec string_dec (f x) keys) as [H|H]; [exact H|].
        apply occurrences_In in H. congruence. }
      clear -Hin Hocc. induction (first_seen keys) as [|k ks IHk]; [contradiction|]. cbn.
      destruct (String.eqb_spec k (f x)) as [->|Hne]; [rewrite Hocc; reflexivity|].
      apply IHk. destruct Hin as [E|Hin]; [contradiction|exact Hin]. }
    rewrite Hsome. apply replace_map.
    + apply first_seen_NoDup.
    + reflexivity.
    + rewrite occurrences_snoc, Hocc, String.eqb_refl. do 3 f_equal. lia.
    + intros k Hne. rewrite occurrences_snoc.
      destruct (String.eqb_spec k (f x)); [contradiction|]. rewrite Nat.add_0_r. reflexivity.
    + apply first_seen_In. destruct (in_dec string_dec (f x) keys) as [H|H]; [exact H|].
      apply occurrences_In in H. congruence.
Qed.

(** X25. Under the heading Top Pages the dashboard does not sort by
    count.  When the pages in the window are ordinary names (no array
    index, no name that [Object.prototype] knows), the table has one row
    for each page, in the order in which the pages were first viewed in
    the window, with the number of its page views; the same holds for the
    events. *)
Theorem tables_are_in_order_of_first_occurrence (h : Z) (w : World) :
  let startTime := startTime_of (clock w (ticks w)) h in
  let pages := map PageView.page (filteredPageViews_of startTime (analyticsData w)) in
  let names := map Event.eventName (filteredEvents_of startTime (analyticsData w)) in
  forallb ordinary_name pages = true ->
  forallb ordinary_name names = true ->
  ∃ stats w',
    Ordered.getStatistics h w = (Return stats, w')
    ∧ Ordered.topPages stats =
        map (fun page => (page, Count (Z.of_nat (occurrences page pages)))) (first_seen pages)
    ∧ Ordered.topEvents stats =
        map (fun name => (name, Count (Z.of_nat (occurrences name names)))) (first_seen names).
Proof.
  intros startTime pages names Hpages Hnames.
  do 2 eexists. split; [apply Ordered_getStatistics_run|].
  cbn [Ordered.topPages Ordered.topEvents]. fold startTime.
  split; apply ordered_fold_first_seen; assumption.
Qed.

Lemma array_index_text key n :
  Ordered.array_index key = Some n -> key = Number_toString 10 (Z.of_N n).
Proof.
  unfold Ordered.array_index. destruct (parse_digits 10 key None) as [m|]; [|discriminate].
  destruct (String.eqb_spec (Number_toString 10 (Z.of_N m)) key) as [E|_]; [|discriminate].
  cbn. destruct (m <? 4294967295)%N; [|discriminate]. intros [= <-]. symmetry. exact E.
Qed.

Lemma keys_create_index key value obj n :
  Ordered.array_index key = Some n ->
  ¬ In key (map fst obj) ->
  indices_first (map fst obj) ->
  indices_first (map fst (Ordered.create key value obj)).
Proof.
  intros Hkey Hnew (indexed & others & Hkeys & Hidx & Hoth & Hsorted).
  revert obj Hkeys Hnew. induction Hsorted as [|k indexed Hsorted IH Hk]; intros obj Hkeys Hnew.
  - cbn in Hkeys. exists [key], others.
    assert (Hio : is_index key = true) by (unfold is_index; rewrite Hkey; reflexivity).
    assert (Hfront : map fst (Ordered.create key value obj) = key :: map fst obj).
    { destruct obj as [|[k0 v0] obj]; [reflexivity|]. cbn [Ordered.create]. rewrite Hkey.
      rewrite <- Hkeys in Hoth. cbn in Hoth. apply Forall_cons in Hoth as [Hk0 _].
      unfold is_index in Hk0. destruct (Ordered.array_index k0); [discriminate|reflexivity]. }
    rewrite Hfront, <- Hkeys. split; [reflexivity|].
    rewrite Hkeys.
    split; [constructor; [exact Hio|constructor]|]. split; [exact Hoth|].
    repeat constructor.
  - destruct obj as [|[k1 v0] obj]; [discriminate|]. cbn in Hkeys.
    injection Hkeys as E Hkeys. subst k1.
    apply Forall_cons in Hidx as [Hki Hidx]. cbn [Ordered.create]. rewrite Hkey.
    unfold is_index in Hki. destruct (Ordered.array_index k) as [m|] eqn:Hm; [|discriminate].
    destruct (N.ltb_spec n m) as [Hlt|Hge].
    + exists (key :: k :: indexed), others. cbn. rewrite Hkeys.
      split; [reflexivity|]. split.
      { constructor; [unfold is_index; rewrite Hkey; reflexivity|].
        constructor; [unfold is_index; rewrite Hm; reflexivity|exact Hidx]. }
      split; [exact Hoth|]. constructor; [constructor; assumption|].
      constructor; [unfold index_before; rewrite Hkey, Hm; exact Hlt|].
      eapply Forall_impl; [exact Hk|]. cbn. intros a Ha. unfold index_before in *.
      rewrite Hkey. rewrite Hm in Ha. destruct (Ordered.array_index a); [lia|contradiction].
    + assert (Hne : n ≠ m).
      { intros ->. apply Hnew. left. cbn.
        rewrite (array_index_text _ _ Hkey), (array_index_text _ _ Hm). reflexivity. }
      destruct (IH Hidx obj Hkeys) as (indexed' & others' & Hkeys' & Hidx' & Hoth' & Hsorted').
      { intros Hin. apply Hnew. right. exact Hin. }
      exists (k :: indexed'), others'. cbn. rewrite Hkeys'.
      split; [reflexivity|]. split; [constructor; [unfold is_index; rewrite Hm; reflexivity|exact Hidx']|].
      split; [exact Hoth'|]. constructor; [exact Hsorted'|].
      assert (Hperm : Permutation (indexed' ++ others') (key :: indexed ++ others)).
      { rewrite <- Hkeys', <- Hkeys. apply keys_create. }
      apply Forall_forall. intros a Ha.
      assert (Hin : In a (key :: indexed ++ others)).
      { eapply Permutation_in; [exact Hperm|]. apply in_or_app. left.
        apply list_elem_of_In, Ha. }
      destruct Hin as [<-|Hin].
      * unfold index_before. rewrite Hm, Hkey. lia.
      * apply in_app_or in Hin. destruct Hin as [Hin|Hin].
        -- rewrite Forall_forall in Hk. apply Hk, list_elem_of_In, Hin.
        -- exfalso. rewrite Forall_forall in Hidx', Hoth.
           specialize (Hidx' a Ha). specialize (Hoth a (proj2 (list_elem_of_In _ _) Hin)).
           congruence.
Qed.

Lemma indices_first_snoc keys key :
  is_index key = false -> indices_first keys -> indices_first (keys ++ [key]).
Proof.
  intros Hkey (indexed & others & -> & Hidx & Hoth & Hsorted).
  exists indexed, (others ++ [key]). rewrite app_assoc.
  split; [reflexivity|]. split; [exact Hidx|]. split; [|exact Hsorted].
  apply Forall_app. split; [exact Hoth|]. constructor; [exact Hkey|constructor].
Qed.

Lemma keys_tally_indices_first key obj :
  indices_first (map fst obj) -> indices_first (map fst (Ordered.tally key obj)).
Proof.
  intros H. unfold Ordered.tally. destruct (String.eqb key proto_key); [exact H|].
  unfold Ordered.set. destruct (Ordered.get key obj) eqn:E.
  - rewrite keys_replace. exact H.
  - apply get_keys in E. destruct (Ordered.array_index key) as [n|] eqn:Hkey.
    + eapply keys_create_index; eassumption.
    + rewrite create_ordinary by exact Hkey. rewrite map_app. cbn.
      apply indices_first_snoc; [|exact H]. unfold is_index. rewrite Hkey. reflexivity.
Qed.

Lemma keys_fold_indices_first {A} (f : A -> string) (l : list A) :
  indices_first (map fst (foldl (fun obj x => Ordered.tally (f x) obj) [] l)).
Proof.
  induction l as [|x l IH] using rev_ind.
  - exists [], []. repeat split; constructor.
  - rewrite foldl_app. cbn [foldl]. apply keys_tally_indices_first, IH.
Qed.

(** X26. A name that is an array index goes to the front, wherever it was
    first seen: in both tables that the dashboard walks, the names that
    are the canonical text of an integer from 0 to 2^32 - 2 come first,
    in ascending order of that integer, and every other name comes after
    them. *)
Theorem index_names_come_first (h : Z) (w : World) :
  ∃ stats w',
    Ordered.getStatistics h w = (Return stats, w')
    ∧ indices_first (map fst (Ordered.topPages stats))
    ∧ indices_first (map fst (Ordered.topEvents stats)).
Proof.
  do 2 eexists. split; [apply Ordered_getStatistics_run|].
  cbn [Ordered.topPages Ordered.topEvents]. split; apply keys_fold_indices_first.
Qed.

(** ** Where the statements fail *)


(** The zero window counts the hour-old page view. *)
Example zero_window_counts :
  ∃ stats w',
    getStatistics 0 (sample_world (mkStore [hour_old_view] [] [] [])) = (Return stats, w')
    ∧ Stats.totalPageViews stats = 1%nat
    ∧ Stats.timeRange stats = "0 hours".
Proof. do 2 eexists. split; [apply getStatistics_run|]. split; reflexivity. Qed.

(** A window of 2450 million hours starts before the first instant a
    [Date] can hold: [startTime] is invalid and nothing is counted,
    though the stored page view and event are recent. *)
Lemma huge_window_counts_nothing :
  ¬ counts_from_window_start 2450000000
      (sample_world (mkStore [hour_old_view] [recent_event] [] [])).
Proof.
  intros (stats & w' & Hrun & Hpv & _).
  rewrite getStatistics_run in Hrun. injection Hrun as <- <-.
  vm_compute in Hpv. discriminate.
Qed.


(** C1 at a page view of user ["__proto__"].  The page view is in the
    window and its [userId] is one distinct value, but the assignment
    [uniqueUsers["__proto__"] = true] makes no entry in the table:
    [getStatistics] reports one page view and no unique user. *)
Theorem uniqueUsers_misses_proto :
  let w := sample_world (mkStore [proto_view] [] [] []) in
  ∃ stats w',
    getStatistics 24 w = (Return stats, w')
    ∧ Stats.totalPageViews stats = 1%nat
    ∧ distinct (map PageView.userId
                  (filteredPageViews_of (startTime_of (clock w (ticks w)) 24)
                     (analyticsData w))) = 1%nat
    ∧ Stats.uniqueUsers stats = 0%nat.
Proof.
  do 2 eexists. split; [apply getStatistics_run|]. repeat split; vm_compute; reflexivity.
Qed.

(** ** The theorems at work on the sample worlds *)

Lemma trackPageView_page_default_witness :
  ∃ pv w',
    trackPageView (object Data.empty) (sample_world emptyStore) = (Return pv, w')
    ∧ PageView.page pv = "/"
    ∧ pageViews (analyticsData w') = [pv].
Proof.
  apply (trackPageView_page_default Data.empty (sample_world emptyStore)).
  left. reflexivity.
Defined.



Lemma getStatistics_counts_witness :
  let w := sample_world (mkStore [hour_old_view] [recent_event] [] []) in
  ∃ stats w',
    getStatistics 24 w = (Return stats, w')
    ∧ Stats.totalPageViews stats = 1%nat
    ∧ Stats.totalEvents stats = 1%nat.
Proof.
  destruct (getStatistics_counts 24
              (sample_world (mkStore [hour_old_view] [recent_event] [] [])))
    as (stats & w' & Hrun & _ & _ & _ & Hpv & Hev & _).
  - lia.
  - vm_compute. discriminate.
  - exists stats, w'. split; [exact Hrun|]. split; [exact Hpv|exact Hev].
Defined.

Lemma save_then_load_witness :
  let s := mkStore [hour_old_view] [recent_event] [john] [] in
  ∃ w1 w2,
    saveDataToFile (sample_world s) = (Return tt, w1)
    ∧ file w1 = Some (Codec.stringify s)
    ∧ initializeDataStore (set_analyticsData emptyStore w1) = (Return tt, w2)
    ∧ analyticsData w2 = s
    ∧ pageViews (analyticsData w2) = pageViews s
    ∧ events (analyticsData w2) = events s
    ∧ users (analyticsData w2) = users s
    ∧ sessions (analyticsData w2) = sessions s.
Proof.
  apply (save_then_load
           (sample_world (mkStore [hour_old_view] [recent_event] [john] []))
           emptyStore); reflexivity.
Defined.


Lemma getUserJourney_unknown_witness :
  let w := sample_world (mkStore [hour_old_view] [recent_event] [] []) in
  getUserJourney "nobody" w = (Return (Journey.mk "nobody" [] [] 0), w)
  ∧ ∃ w',
      handleRequest
        (mkRequest "GET" "/api/users/nobody/journey" None (inr null)) w =
        (Return (mkResponse 200 (Some "application/json")
                   (JourneyJSON (Journey.mk "nobody" [] [] 0))), w')
      ∧ analyticsData w' = analyticsData w.
Proof.
  destruct (getUserJourney_unknown "nobody"
              (sample_world (mkStore [hour_old_view] [recent_event] [] [])))
    as [Hrun Hroute].
  - intros pv [<-|[]]. discriminate.
  - intros ev [<-|[]]. discriminate.
  - split; [exact Hrun|].
    apply (Hroute (mkRequest "GET" "/api/users/nobody/journey" None (inr null)));
      reflexivity.
Defined.


Lemma generateId_distinct_readings_witness :
  ∃ id1 id2 w1' w2',
    generateId (sample_world emptyStore) = (Return id1, w1')
    ∧ generateId (set_ticks 1 (sample_world emptyStore)) = (Return id2, w2')
    ∧ id1 ≠ id2.
Proof.
  apply (generateId_distinct_readings (sample_world emptyStore)
           (set_ticks 1 (sample_world emptyStore))).
  - vm_compute. split; [discriminate|reflexivity].
  - vm_compute. split; [discriminate|reflexivity].
  - vm_compute. discriminate.
Defined.

Lemma later_starts_unique_ids_witness :
  let w := slowing_world emptyStore in
  let ops := [TrackPageView Data.empty; TrackEvent Data.empty; TrackPageView Data.empty] in
  NoDup (map PageView.id (pageViews (analyticsData (ingested ops w))))
  ∧ NoDup (map Event.id (events (analyticsData (ingested ops w)))).
Proof.
  apply (later_starts_unique_ids
           [TrackPageView Data.empty; TrackEvent Data.empty; TrackPageView Data.empty]
           (slowing_world emptyStore)).
  - reflexivity.
  - reflexivity.
  - intros k. unfold eight_digits. simpl. unfold slowing_clock. lia.
  - simpl. unfold slowing_clock. repeat split; intros k Hk; lia.
Defined.


Lemma only_POST_writes_witness :
  let w := sample_world (mkStore [hour_old_view] [] [] []) in
  ∃ resp w',
    handleRequest (mkRequest "DELETE" "/api/clear" None (inr null)) w = (Return resp, w')
    ∧ analyticsData w' = analyticsData w
    ∧ file w' = file w.
Proof.
  apply (only_POST_writes (mkRequest "DELETE" "/api/clear" None (inr null))
           (sample_world (mkStore [hour_old_view] [] [] []))).
  simpl. discriminate.
Defined.

Lemma bad_body_is_refused_witness :
  let w := sample_world (mkStore [] [] [john] []) in
  ∃ error w',
    handleRequest (mkRequest "POST" "/api/users" None (inr null)) w =
      (Return (mkResponse 400 (Some "application/json") (Failure error)), w')
    ∧ analyticsData w' = analyticsData w
    ∧ file w' = file w.
Proof.
  apply (bad_body_is_refused (mkRequest "POST" "/api/users" None (inr null))
           (sample_world (mkStore [] [] [john] []))).
  - reflexivity.
  - simpl. auto.
  - left. reflexivity.
Defined.

Lemma any_object_is_accepted_witness :
  let req := mkRequest "POST" "/api/track/event" None (inr (object Data.empty)) in
  ∃ payload,
    handleRequest req (sample_world emptyStore) =
      (Return (mkResponse 201 (Some "application/json") payload),
       after (TrackEvent Data.empty) (logged req (sample_world emptyStore))).
Proof.
  destruct (any_object_is_accepted
              (mkRequest "POST" "/api/track/event" None (inr (object Data.empty)))
              Data.empty (sample_world emptyStore))
    as (op & payload & Hop & Hrun & _).
  - reflexivity.
  - simpl. auto.
  - reflexivity.
  - injection Hop as <-. exists payload. exact Hrun.
Defined.

Lemma journey_route_takes_fourth_segment_witness :
  let req := mkRequest "GET" "/api/users/user_001/anything/journey" None (inr null) in
  let w := sample_world (mkStore [hour_old_view] [] [] []) in
  ∃ journey,
    getUserJourney "user_001" (logged req w) = (Return journey, logged req w)
    ∧ handleRequest req w =
        (Return (mkResponse 200 (Some "application/json") (JourneyJSON journey)),
         logged req w).
Proof.
  apply (journey_route_takes_fourth_segment "user_001" "/anything/journey"
           (mkRequest "GET" "/api/users/user_001/anything/journey" None (inr null))
           (sample_world (mkStore [hour_old_view] [] [] []))).
  - reflexivity.
  - reflexivity.
  - reflexivity.
  - right. eexists. reflexivity.
  - reflexivity.
Defined.

Lemma clear_empties_memory_witness :
  let w := read_only_world (mkStore [hour_old_view] [recent_event] [john] []) in
  ∃ w',
    handleRequest (mkRequest "POST" "/api/clear" None (inr null)) w =
      (Return (mkResponse 200 (Some "application/json") Cleared), w')
    ∧ analyticsData w' = emptyStore
    ∧ file w' = file w.
Proof.
  destruct (clear_empties_memory (mkRequest "POST" "/api/clear" None (inr null))
              (read_only_world (mkStore [hour_old_view] [recent_event] [john] [])))
    as (w' & Hrun & Hs & Hf & _).
  - reflexivity.
  - reflexivity.
  - exists w'. split; [exact Hrun|]. split; [exact Hs|exact Hf].
Defined.

Lemma restart_keeps_the_store_witness :
  let reqs := [mkRequest "POST" "/api/track/pageview" None (inr (object Data.empty));
               mkRequest "POST" "/api/users" None (inr (object john_again));
               mkRequest "GET" "/stats" (Some "1") (inr null);
               mkRequest "POST" "/api/track/event" None (inr null)] in
  let w1 := served reqs (slowing_world emptyStore) in
  ∃ w2,
    initializeDataStore (set_analyticsData emptyStore w1) = (Return tt, w2)
    ∧ analyticsData w2 = analyticsData w1.
Proof.
  apply (restart_keeps_the_store
           [mkRequest "POST" "/api/track/pageview" None (inr (object Data.empty));
            mkRequest "POST" "/api/users" None (inr (object john_again));
            mkRequest "GET" "/stats" (Some "1") (inr null);
            mkRequest "POST" "/api/track/event" None (inr null)]
           (slowing_world emptyStore)).
  - reflexivity.
  - reflexivity.
  - reflexivity.
  - reflexivity.
  - intros k. unfold Codec.valid_instant, maxTime. simpl. unfold slowing_clock.
    apply Z.leb_le. lia.
  - reflexivity.
  - reflexivity.
  - right. split; reflexivity.
Defined.

Lemma tallies_count_witness :
  let w := sample_world (mkStore [hour_old_view; pricing_view; hour_old_view] [recent_event] [] []) in
  ∃ stats w',
    getStatistics 24 w = (Return stats, w')
    ∧ Stats.topPages stats !! "/home" = Some (Count 2).
Proof.
  destruct (tallies_count 24
              (sample_world (mkStore [hour_old_view; pricing_view; hour_old_view]
                               [recent_event] [] []))
              "/home")
    as (stats & w' & Hrun & Hpages & _).
  - reflexivity.
  - exists stats, w'. split; [exact Hrun|exact Hpages].
Defined.

Lemma tallies_of_inherited_names_witness :
  let w := sample_world (mkStore [method_view; method_view] [] [] []) in
  ∃ stats w',
    getStatistics 24 w = (Return stats, w')
    ∧ Stats.topPages stats !! "toString"
      = Some (Text "function toString() { [native code] }11").
Proof.
  destruct (tallies_of_inherited_names 24
              (sample_world (mkStore [method_view; method_view] [] [] []))
              "toString" "function toString() { [native code] }")
    as (stats & w' & Hrun & Hpages & _).
  - reflexivity.
  - exists stats, w'. split; [exact Hrun|exact Hpages].
Defined.

Lemma wider_window_counts_more_witness :
  let w := sample_world (mkStore [hour_old_view; pricing_view] [recent_event] [] []) in
  ∃ stats1 stats2 w1 w2,
    getStatistics 1 w = (Return stats1, w1)
    ∧ getStatistics 24 w = (Return stats2, w2)
    ∧ (Stats.totalPageViews stats1 <= Stats.totalPageViews stats2)%nat
    ∧ (Stats.totalEvents stats1 <= Stats.totalEvents stats2)%nat.
Proof.
  apply (wider_window_counts_more 1 24
           (sample_world (mkStore [hour_old_view; pricing_view] [recent_event] [] []))).
  - lia.
  - vm_compute. discriminate.
  - vm_compute. discriminate.
Defined.

Lemma anonymous_views_are_one_user_witness :
  let w1 := ingested [TrackPageView Data.empty; TrackPageView Data.empty]
              (sample_world emptyStore) in
  ∃ stats w2,
    getStatistics 24 w1 = (Return stats, w2)
    ∧ Stats.totalPageViews stats = 2%nat
    ∧ Stats.uniqueUsers stats = 1%nat.
Proof.
  apply (anonymous_views_are_one_user [TrackPageView Data.empty; TrackPageView Data.empty] 24
           (sample_world emptyStore)).
  - reflexivity.
  - discriminate.
  - reflexivity.
  - lia.
  - vm_compute. discriminate.
  - intros k _. unfold window_start.
    change (ticks (ingested [TrackPageView Data.empty; TrackPageView Data.empty]
                     (sample_world emptyStore))) with 6%nat.
    simpl. unfold sample_clock. lia.
Defined.

Lemma registerUser_without_id_appends_witness :
  let w := sample_world (mkStore [] [] [john] []) in
  ∃ user w',
    registerUser (object Data.empty) w = (Return user, w')
    ∧ users (analyticsData w') = [john; user]
    ∧ User.userId user = next_id w.
Proof.
  destruct (registerUser_without_id_appends Data.empty (sample_world (mkStore [] [] [john] [])))
    as (user & w' & Hrun & Husers & Hid & _).
  - reflexivity.
  - exists user, w'. split; [exact Hrun|]. split; [exact Husers|exact Hid].
Defined.


Lemma refused_write_is_only_logged_witness :
  let w := read_only_world emptyStore in
  ingest (TrackPageView Data.empty) w = (Return tt, after (TrackPageView Data.empty) w)
  ∧ analyticsData (after (TrackPageView Data.empty) w)
    = analyticsData (after (TrackPageView Data.empty) (accepting_writes w))
  ∧ file (after (TrackPageView Data.empty) w) = None
  ∧ ∃ reason,
      console (after (TrackPageView Data.empty) w) = ["Error saving data: " +:+ reason].
Proof.
  apply (refused_write_is_only_logged (TrackPageView Data.empty) (read_only_world emptyStore)).
  reflexivity.
Defined.

Lemma tracked_view_ends_the_journey_witness :
  let w := sample_world (mkStore [hour_old_view] [] [] []) in
  ∃ pv w1 j0 j1,
    getUserJourney "u1" w = (Return j0, w)
    ∧ trackPageView (object view_of_u1) w = (Return pv, w1)
    ∧ getUserJourney "u1" w1 = (Return j1, w1)
    ∧ Journey.pageViews j1 = Journey.pageViews j0 ++ [pv].
Proof.
  destruct (tracked_view_ends_the_journey view_of_u1 "u1"
              (sample_world (mkStore [hour_old_view] [] [] [])))
    as (pv & w1 & j0 & j1 & H0 & Hrun & H1 & Hpvs & _).
  - discriminate.
  - reflexivity.
  - constructor; [|constructor]. vm_compute. discriminate.
  - exists pv, w1, j0, j1. split; [exact H0|]. split; [exact Hrun|]. split; [exact H1|exact Hpvs].
Defined.

Lemma generateDashboard_does_not_escape_witness :
  ∃ before after,
    generateDashboard
      (Ordered.mkStats "24 hours" 1 0 1 [("<script>alert(1)</script>", Count 1)] [] 0) =
      before +:+ "                <tr><td>" +:+ "<script>alert(1)</script>" +:+ "</td><td>"
             +:+ "1" +:+ "</td></tr>" +:+ nl +:+ after.
Proof.
  apply (generateDashboard_does_not_escape
           (Ordered.mkStats "24 hours" 1 0 1 [("<script>alert(1)</script>", Count 1)] [] 0)
           "<script>alert(1)</script>" (Count 1)).
  left. simpl. left. reflexivity.
Defined.

Lemma page_names_reach_the_dashboard_witness :
  ∃ html w' before shown after,
    dashboard None (sample_world (mkStore [script_view] [] [] [])) = (Return html, w')
    ∧ html = before +:+ "                <tr><td>" +:+ "<script>alert(1)</script>" +:+ "</td><td>"
                    +:+ shown +:+ "</td></tr>" +:+ nl +:+ after.
Proof.
  apply (page_names_reach_the_dashboard None (sample_world (mkStore [script_view] [] [] []))
           script_view).
  - vm_compute. left. reflexivity.
  - discriminate.
Defined.

Lemma tables_are_in_order_of_first_occurrence_witness :
  let w := sample_world (mkStore [pricing_view; hour_old_view; hour_old_view] [recent_event] [] []) in
  ∃ stats w',
    Ordered.getStatistics 24 w = (Return stats, w')
    ∧ Ordered.topPages stats = [("/pricing", Count 1); ("/home", Count 2)]
    ∧ Ordered.topEvents stats = [("purchase", Count 1)].
Proof.
  apply (tables_are_in_order_of_first_occurrence 24
           (sample_world (mkStore [pricing_view; hour_old_view; hour_old_view]
                            [recent_event] [] []))); reflexivity.
Defined.
